(** * MQSMaster: the resilient backfill pipeline

    A shallow embedding of the market-data backfill code:
    - [src/orchestrator/marketData/fmpMarketData.py]  (class [FMPMarketData])
    - [src/orchestrator/backfill/backfill.py]          ([backfill_data])
    - [src/orchestrator/backfill/concurrent_backfill.py]
    - [src/orchestrator/backfill/update/crypto_tickers.py]
    - [src/orchestrator/backfill/refresh.py]           (the ticker file)
    - [src/orchestrator/backfill/backfill_cli.py]      (the exchange map)

    Conventions of the model.
    - Instants returned by [time.time()] are rationals (seconds); Python
      integers are [Z]; values decoded from JSON are a tree type whose
      objects are association lists; files live in finite maps from
      paths to contents.
    - A call is a function from the state of the process to an outcome
      (a value, an exception, or no return at all) and the next state.
      [while True] loops take the number of iterations they may use.
    - Everything outside the process is an environment: the outcome of
      the n-th HTTP request, the file-system calls that fail, the
      configured key, the capacity of the connection pool.
    - The clock only moves when the process sleeps, by the time slept; a
      request takes no time.
    - The threads that call the rate limiter of one instance are modelled
      as a scheduler interleaving their steps ([RateLimiter]); the
      workers of the thread pool are run one after the other, in the
      order of submission.
    - Of pandas, frames are column labels with rows of cells; parsing a
      cell as a timestamp and taking its date come from the environment. *)

From Stdlib Require Import QArith Lqa ZArith Lia List Ascii String Sorted.
From stdpp Require Import base option list gmap strings pretty sorting.

Import ListNotations.
Local Open Scope Z_scope.

(** ** Comparisons on instants *)

Definition Qltb (x y : Q) : bool := negb (Qle_bool y x).

(** ** The rate limiter of [FMPMarketData]

    [self.request_timestamps], guarded by [self._lock]. *)

Module RateLimiter.

Definition MAX_REQUESTS_PER_MIN : Z := 3000.
Definition LOCK_WINDOW_SECONDS : Q := 60.

(** [(current_time - t) < self.LOCK_WINDOW_SECONDS] *)
Definition in_window (current_time t : Q) : bool :=
  Qltb (current_time - t) LOCK_WINDOW_SECONDS.

(** The list comprehension that drops the timestamps older than the
    window. *)
Definition purge (current_time : Q) (request_timestamps : list Q) : list Q :=
  List.filter (in_window current_time) request_timestamps.

(** What one pass through the [with self._lock:] block decides. *)
Inductive check_result : Type :=
| Reserved (request_timestamps : list Q)
    (* slot appended; [_check_rate_limit] returns *)
| MustWait (request_timestamps : list Q) (wait_time : Q)
    (* limit reached; the caller sleeps outside the lock *)
| NoOldest (request_timestamps : list Q).
    (* [request_timestamps[0]] on an empty list: IndexError *)

Definition critical_section (current_time : Q) (request_timestamps : list Q)
  : check_result :=
  let kept := purge current_time request_timestamps in
  if Z.of_nat (length kept) <? MAX_REQUESTS_PER_MIN
  then Reserved (kept ++ [current_time])
  else match kept with
       | oldest :: _ =>
           MustWait kept (LOCK_WINDOW_SECONDS - (current_time - oldest))
       | [] => NoOldest kept
       end.

(** Number of recorded requests inside the trailing window of an
    instant. *)
Definition count_in_window (current_time : Q) (request_timestamps : list Q) : Z :=
  Z.of_nat (length (purge current_time request_timestamps)).

(** *** Threads calling [_check_rate_limit] on one shared instance *)

Inductive pc : Type :=
| WantLock                    (* at [with self._lock:], not yet inside *)
| InLock                      (* inside the [with] block *)
| Sleeping (wait_time : Q)    (* in [time.sleep], the lock released *)
| Returned (at_time : Q)      (* the call has returned *)
| Failed.                     (* left the call with an exception *)

Record limiter : Type := mkLimiter {
  request_timestamps : list Q;
  lock_holder : option nat;
  threads : gmap nat pc
}.

Definition initial (ts : list Q) : limiter :=
  {| request_timestamps := ts; lock_holder := None; threads := ∅ |}.

Inductive action : Type :=
| Call (t : nat)                       (* thread [t] calls _check_rate_limit *)
| Enter (t : nat)                      (* acquires the lock *)
| Check (t : nat) (current_time : Q)   (* runs the block, reading the clock *)
| Wake (t : nat).                      (* sleep over: next loop iteration *)

Definition set_pc (t : nat) (p : pc) (s : limiter) : limiter :=
  {| request_timestamps := request_timestamps s;
     lock_holder := lock_holder s;
     threads := <[t := p]> (threads s) |}.

(** One scheduler step; [None] when the action is not enabled. *)
Definition exec (s : limiter) (a : action) : option limiter :=
  match a with
  | Call t =>
      match threads s !! t with
      | None | Some (Returned _) => Some (set_pc t WantLock s)
      | _ => None
      end
  | Enter t =>
      match threads s !! t, lock_holder s with
      | Some WantLock, None =>
          Some {| request_timestamps := request_timestamps s;
                  lock_holder := Some t;
                  threads := <[t := InLock]> (threads s) |}
      | _, _ => None
      end
  | Check t current_time =>
      match threads s !! t with
      | Some InLock =>
          match critical_section current_time (request_timestamps s) with
          | Reserved ts' =>
              Some {| request_timestamps := ts'; lock_holder := None;
                      threads := <[t := Returned current_time]> (threads s) |}
          | MustWait ts' wait_time =>
              Some {| request_timestamps := ts'; lock_holder := None;
                      threads := <[t := Sleeping wait_time]> (threads s) |}
          | NoOldest ts' =>
              Some {| request_timestamps := ts'; lock_holder := None;
                      threads := <[t := Failed]> (threads s) |}
          end
      | _ => None
      end
  | Wake t =>
      match threads s !! t with
      | Some (Sleeping _) => Some (set_pc t WantLock s)
      | _ => None
      end
  end.

Fixpoint run (s : limiter) (schedule : list action) : option limiter :=
  match schedule with
  | [] => Some s
  | a :: rest =>
      match exec s a with
      | Some s' => run s' rest
      | None => None
      end
  end.

(** The lock is held exactly by the thread that is inside the block. *)
Definition lock_inv (s : limiter) : Prop :=
  forall t, lock_holder s = Some t <-> threads s !! t = Some InLock.

End RateLimiter.

(** ** Python values and exceptions *)

(** The exceptions that the modelled calls raise.  All are subclasses of
    [Exception]. *)
Inductive exn : Type :=
| ReadTimeout            (* requests.exceptions.ReadTimeout *)
| ConnectTimeout         (* requests.exceptions.ConnectTimeout *)
| ConnectionError        (* requests.exceptions.ConnectionError *)
| JSONDecodeError        (* requests.exceptions.JSONDecodeError *)
| OtherRequestError      (* any other requests.exceptions.RequestException *)
| OSError
| KeyError
| TypeError
| ValueError
| IndexError
| AttributeError
| UniqueViolation        (* psycopg2.errors.UniqueViolation *)
| PoolError.             (* psycopg2.pool.PoolError *)

(** The classes named in the [except] clauses of the source. *)
Inductive exn_class : Type :=
| Cls_Timeout               (* requests.exceptions.Timeout *)
| Cls_ConnectionError       (* requests.exceptions.ConnectionError *)
| Cls_RequestException      (* requests.exceptions.RequestException *)
| Cls_OSError               (* OSError, alias IOError *)
| Cls_Exception.

(** [isinstance(e, c)], following the class hierarchy of [requests]:
    [ConnectTimeout] derives from both [ConnectionError] and [Timeout],
    [RequestException] derives from [IOError]. *)
Definition isinstance (e : exn) (c : exn_class) : bool :=
  match c, e with
  | Cls_Exception, _ => true
  | Cls_Timeout, (ReadTimeout | ConnectTimeout) => true
  | Cls_ConnectionError, (ConnectionError | ConnectTimeout) => true
  | Cls_RequestException,
    (ReadTimeout | ConnectTimeout | ConnectionError | JSONDecodeError
     | OtherRequestError) => true
  | Cls_OSError,
    (OSError | ReadTimeout | ConnectTimeout | ConnectionError
     | JSONDecodeError | OtherRequestError) => true
  | _, _ => false
  end.

#[local] Set Warnings "-register-all".

(** Values decoded by [response.json()]; [JNull] is Python's [None]. *)
Inductive json : Type :=
| JNull
| JBool (b : bool)
| JNum (q : Q)
| JStr (s : string)
| JList (items : list json)
| JDict (fields : list (string * json)).

(** Truth value of a Python object ([if not data]). *)
Definition truthy (v : json) : bool :=
  match v with
  | JNull => false
  | JBool b => b
  | JNum q => negb (Qeq_bool q 0)
  | JStr s => negb (String.eqb s "")
  | JList items => match items with [] => false | _ => true end
  | JDict fields => match fields with [] => false | _ => true end
  end.

Fixpoint dict_get (key : string) (fields : list (string * json)) : option json :=
  match fields with
  | [] => None
  | (k, v) :: rest => if String.eqb k key then Some v else dict_get key rest
  end.

(** [d[key] = v] on a dict: replaces the value in place, or appends. *)
Fixpoint dict_set (key : string) (v : json) (fields : list (string * json))
  : list (string * json) :=
  match fields with
  | [] => [(key, v)]
  | (k, v0) :: rest =>
      if String.eqb k key then (k, v) :: rest
      else (k, v0) :: dict_set key v rest
  end.


(** Pure Python expressions evaluate to a value or raise. *)
Definition pyres (A : Type) : Type := exn + A.

(** [for item in v]: lists give their items, dicts their keys, strings
    their characters; anything else is not iterable. *)
Definition py_iter (v : json) : pyres (list json) :=
  match v with
  | JList items => inr items
  | JDict fields => inr (map (fun kv => JStr (fst kv)) fields)
  | JStr s => inr (map (fun c => JStr (String c EmptyString))
                       (list_ascii_of_string s))
  | _ => inl TypeError
  end.

(** [v[key]] with a string key. *)
Definition py_getitem (v : json) (key : string) : pyres json :=
  match v with
  | JDict fields =>
      match dict_get key fields with
      | Some x => inr x
      | None => inl KeyError
      end
  | _ => inl TypeError
  end.

(** [v[key] = x] with a string key. *)
Definition py_setitem (v : json) (key : string) (x : json) : pyres json :=
  match v with
  | JDict fields => inr (JDict (dict_set key x fields))
  | _ => inl TypeError
  end.

(** Whitespace removed by [str.strip()] (ASCII part). *)
Definition is_space (c : ascii) : bool :=
  let n := nat_of_ascii c in
  ((9 <=? n) && (n <=? 13) || (28 <=? n) && (n <=? 32))%nat.

(** [bool(s.strip())]: some character is not whitespace. *)
Definition strip_nonempty (s : string) : bool :=
  existsb (fun c => negb (is_space c)) (list_ascii_of_string s).

(** [str(n)] for an integer. *)
Definition py_str (n : Z) : string := pretty n.

(** ** The world

    Everything outside the process is an environment: what the network
    answers to the n-th request, which file-system calls fail, the
    configured credentials. *)

Inductive http_outcome : Type :=
| Response (status_code : Z) (body : option json)
    (* [body = None]: [response.json()] raises JSONDecodeError *)
| Fails (e : exn).

(** A side file: what readers see, and what sits in the writer's
    buffer. *)
Inductive content : Type :=
| Empty
| JsonArray (symbols : list string).

Record file : Type := mkFile {
  on_disk : content;
  buffer : option content
}.

(** A path is a directory and a file name. *)
Definition Path : Type := string * string.

Inductive io_op : Type :=
| Mkdir (dir : string)
| CreateTemp (p : Path)
| OpenTruncate (p : Path)
| WriteBuffer (p : Path)
| Flush (p : Path)
| Fsync (p : Path)
| Close (p : Path)
| Replace (src dst : Path)
| Unlink (p : Path).

Inductive level : Type := INFO | WARNING | ERROR.

Inductive event : Type :=
| EvSleep (seconds : Q)
| EvGet (url : string) (params : list (string * string))
| EvLog (lvl : level) (msg : string)
| EvPrint (msg : string)
| EvIO (op : io_op) (ok : bool).

(** A line of the CSV sink. *)
Inductive csv_line : Type :=
| Header (columns : list string)
| Line (cells : list json).

(** A row of the [market_data] table. *)
Record db_row : Type := mkRow {
  row_ticker : json;
  row_timestamp : json;
  row_date : json;
  row_exchange : string;
  row_open : Q;
  row_high : Q;
  row_low : Q;
  row_close : Q;
  row_volume : Z
}.

(** Modelled from the spec: [MQSDBConnector] (src/common/database) is not
    part of the sources at hand.  It is a connection pool with a hard cap
    on concurrently leased connections: [get_connection] hands out a
    lease while fewer than the cap are out, [release_connection] takes
    one back, [close_all_connections] closes the pool. *)
Record Database : Type := mkDatabase {
  market_data : list db_row;
  leased : Z;
  pools_open : Z;
  pools_closed : Z
}.

Record FMPMarketData : Type := mkClient {
  fmp_api_key : string;
  request_timestamps : list Q
}.

Record Env : Type := mkEnv {
  network : nat -> http_outcome;
    (* outcome of the n-th [requests.get] of the process *)
  io_fault : nat -> bool;
    (* the n-th file-system call raises OSError *)
  tmp_token : nat -> string;
    (* random part of a NamedTemporaryFile name *)
  api_key_setting : option string;
    (* [APIAuth().get_fmp_api_key()] *)
  crypto_feed : pyres (list json);
    (* what CoinGecko fetch, reference list and [format_for_fmp] yield *)
  float_of_string : string -> option Q;
    (* [float(s)] on a string; [None] when it raises *)
  to_datetime : json -> option json;
    (* [pd.to_datetime] on one cell; [None] when it raises *)
  dt_date : json -> json;
    (* [.dt.date] on one parsed cell *)
  pool_capacity : Z
    (* max-connections setting of the pool *)
}.

Record World : Type := mkWorld {
  env : Env;
  clock : Q;
  http_calls : nat;
  io_calls : nat;
  clients : list FMPMarketData;
  side_files : gmap Path file;
  cache_files : gmap string (list csv_line);
  db : Database;
  events : list event
}.

Definition set_clock (x : Q) (w : World) : World :=
  mkWorld (env w) x (http_calls w) (io_calls w) (clients w) (side_files w)
          (cache_files w) (db w) (events w).
Definition set_http_calls (x : nat) (w : World) : World :=
  mkWorld (env w) (clock w) x (io_calls w) (clients w) (side_files w)
          (cache_files w) (db w) (events w).
Definition set_io_calls (x : nat) (w : World) : World :=
  mkWorld (env w) (clock w) (http_calls w) x (clients w) (side_files w)
          (cache_files w) (db w) (events w).
Definition set_clients (x : list FMPMarketData) (w : World) : World :=
  mkWorld (env w) (clock w) (http_calls w) (io_calls w) x (side_files w)
          (cache_files w) (db w) (events w).
Definition set_side_files (x : gmap Path file) (w : World) : World :=
  mkWorld (env w) (clock w) (http_calls w) (io_calls w) (clients w) x
          (cache_files w) (db w) (events w).
Definition set_cache_files (x : gmap string (list csv_line)) (w : World)
  : World :=
  mkWorld (env w) (clock w) (http_calls w) (io_calls w) (clients w)
          (side_files w) x (db w) (events w).
Definition set_db (x : Database) (w : World) : World :=
  mkWorld (env w) (clock w) (http_calls w) (io_calls w) (clients w)
          (side_files w) (cache_files w) x (events w).
Definition emit (e : event) (w : World) : World :=
  mkWorld (env w) (clock w) (http_calls w) (io_calls w) (clients w)
          (side_files w) (cache_files w) (db w) (events w ++ [e]).

(** ** Computations

    A call returns a value, raises, or never returns ([Hang]: a loop that
    ran out of the iterations granted to it). *)

Inductive outcome (A : Type) : Type :=
| Return (a : A)
| Raise (e : exn)
| Hang.
Arguments Return {A} a.
Arguments Raise {A} e.
Arguments Hang {A}.

Definition M (A : Type) : Type := World -> outcome A * World.

Definition ret {A} (a : A) : M A := fun w => (Return a, w).
Definition raise {A} (e : exn) : M A := fun w => (Raise e, w).
Definition hang {A} : M A := fun w => (Hang, w).

Definition bind {A B} (c : M A) (k : A -> M B) : M B :=
  fun w =>
    match c w with
    | (Return a, w') => k a w'
    | (Raise e, w') => (Raise e, w')
    | (Hang, w') => (Hang, w')
    end.

Declare Scope py_scope.
Delimit Scope py_scope with py.
Notation "x <- c ;; k" := (bind c (fun x => k))
  (at level 100, c at next level, right associativity) : py_scope.
Notation "c ;; k" := (bind c (fun _ => k))
  (at level 100, right associativity) : py_scope.
Local Open Scope py_scope.

Definition gets {A} (f : World -> A) : M A := fun w => (Return (f w), w).
Definition modify (f : World -> World) : M unit := fun w => (Return tt, f w).

(** Lifts the result of a pure expression. *)
Definition lift {A} (r : pyres A) : M A :=
  match r with
  | inr a => ret a
  | inl e => raise e
  end.

(** [try: c  except <classes>: handler]: the handler receives the
    exception and re-raises what its clauses do not name. *)
Definition try_except {A} (c : M A) (handler : exn -> M A) : M A :=
  fun w =>
    match c w with
    | (Raise e, w') => handler e w'
    | r => r
    end.

(** [try: c  finally: cleanup]. *)
Definition try_finally {A} (c : M A) (cleanup : M unit) : M A :=
  fun w =>
    match c w with
    | (Return a, w') => (_ <- cleanup ;; ret a) w'
    | (Raise e, w') => (_ <- cleanup ;; raise e) w'
    | (Hang, w') => (Hang, w')
    end.

Definition log (lvl : level) (msg : string) : M unit :=
  modify (emit (EvLog lvl msg)).
Definition print (msg : string) : M unit :=
  modify (emit (EvPrint msg)).

(** [time.time()] *)
Definition time_time : M Q := gets clock.

(** [time.sleep(seconds)]: the clock moves on by the time slept. *)
Definition time_sleep (seconds : Q) : M unit :=
  modify (fun w => emit (EvSleep seconds) (set_clock (clock w + seconds)%Q w)).

(** [requests.get(url, params=params, timeout=...)] *)
Definition requests_get (url : string) (params : list (string * string))
  : M (Z * option json) :=
  fun w =>
    let w' := emit (EvGet url params) (set_http_calls (S (http_calls w)) w) in
    match network (env w) (http_calls w) with
    | Response status_code body => (Return (status_code, body), w')
    | Fails e => (Raise e, w')
    end.

(** ** [FMPMarketData]: construction and the request layer *)

Definition MAX_RETRIES : Z := 6.
Definition TIMEOUT_SECONDS : Z := 10.
Definition CRYPTO_TOP_LIMIT : Z := 500.
Definition INTERNET_RETRY_INTERVAL_SECONDS : Q := 10.
Definition INTERNET_MAX_WAIT_SECONDS : Q := 120.

(** [FMPMarketData()]: a new instance with its own, empty
    [request_timestamps]; the result is the reference to it. *)
Definition FMPMarketData_init : M nat :=
  key <- gets (fun w => api_key_setting (env w)) ;;
  match key with
  | Some k =>
      if String.eqb k "" then raise ValueError
      else
        self <- gets (fun w => length (clients w)) ;;
        _ <- modify (fun w => set_clients (clients w ++ [mkClient k []]) w) ;;
        ret self
  | None => raise ValueError
  end.

Definition timestamps_of (self : nat) (w : World) : list Q :=
  match clients w !! self with
  | Some c => request_timestamps c
  | None => []
  end.

Definition api_key_of (self : nat) (w : World) : string :=
  match clients w !! self with
  | Some c => fmp_api_key c
  | None => ""
  end.

Definition store_timestamps (self : nat) (ts : list Q) : M unit :=
  modify (fun w =>
    set_clients (alter (fun c => mkClient (fmp_api_key c) ts) self (clients w)) w).

(** [_check_rate_limit]: the [while True] loop, one [critical_section]
    per iteration, sleeping between iterations. *)
Fixpoint _check_rate_limit (fuel : nat) (self : nat) : M unit :=
  match fuel with
  | O => hang
  | S fuel' =>
      current_time <- time_time ;;
      ts <- gets (timestamps_of self) ;;
      match RateLimiter.critical_section current_time ts with
      | RateLimiter.Reserved ts' => store_timestamps self ts'
      | RateLimiter.MustWait ts' wait_time =>
          _ <- store_timestamps self ts' ;;
          _ <- (if Qltb 0 wait_time
                then _ <- log WARNING "[RateLimiter] Hit API limit. Sleeping..." ;;
                     time_sleep wait_time
                else time_sleep 0) ;;
          _check_rate_limit fuel' self
      | RateLimiter.NoOldest ts' =>
          _ <- store_timestamps self ts' ;;
          raise IndexError
      end
  end.

(** The loop of [_wait_for_internet]; [Some b] is [return b], [None] goes
    round again. *)
Fixpoint _wait_for_internet_loop (fuel : nat) (start_time max_wait_seconds : Q)
  : M bool :=
  match fuel with
  | O => hang
  | S fuel' =>
      r <- try_except
             (_ <- requests_get "https://www.google.com" [] ;;
              _ <- log INFO "[Internet] Connection restored" ;;
              ret (Some true))
             (fun e =>
                if isinstance e Cls_ConnectionError then
                  t <- time_time ;;
                  let elapsed := (t - start_time)%Q in
                  if Qle_bool max_wait_seconds elapsed then
                    _ <- log WARNING "[Internet] Still offline. Proceeding with retry limits." ;;
                    ret (Some false)
                  else
                    _ <- log WARNING "[Internet] No connection. Retrying..." ;;
                    _ <- time_sleep INTERNET_RETRY_INTERVAL_SECONDS ;;
                    ret None
                else raise e) ;;
      match r with
      | Some b => ret b
      | None => _wait_for_internet_loop fuel' start_time max_wait_seconds
      end
  end.

Definition _wait_for_internet (fuel : nat) (max_wait_seconds : option Q)
  : M bool :=
  let max_wait_seconds :=
    match max_wait_seconds with
    | None => INTERNET_MAX_WAIT_SECONDS
    | Some x => x
    end in
  start_time <- time_time ;;
  _wait_for_internet_loop fuel start_time max_wait_seconds.

(** One pass of the [for attempt in range(1, MAX_RETRIES + 1)] body:
    [Some v] is [return v], [None] falls through to the next attempt. *)
Definition _make_request_attempt (fuel : nat) (self : nat) (url : string)
    (params : list (string * string)) (attempt : Z) : M (option json) :=
  try_except
    (_ <- _check_rate_limit fuel self ;;
     response <- requests_get url params ;;
     let '(status_code, body) := response in
     if status_code =? 200 then
       match body with
       | Some v => ret (Some v)
       | None => raise JSONDecodeError
       end
     else
       _ <- log WARNING "[FMP API] Received a non-200 status" ;;
       _ <- (if status_code =? 429
             then _ <- log WARNING "[FMP API] Too many requests. Waiting before retrying..." ;;
                  time_sleep (inject_Z (10 * attempt))
             else ret tt) ;;
       ret None)
    (fun e =>
       if isinstance e Cls_Timeout then
         _ <- log WARNING "[FMP API] Timeout. Retrying..." ;;
         _ <- time_sleep (inject_Z (5 * attempt)) ;;
         ret None
       else if isinstance e Cls_ConnectionError then
         _ <- log WARNING "[FMP API] Lost internet connection. Waiting for reconnection..." ;;
         reconnected <- _wait_for_internet fuel None ;;
         _ <- (if negb reconnected
               then log WARNING "[FMP API] Reconnection timeout reached for this attempt."
               else ret tt) ;;
         ret None
       else if isinstance e Cls_RequestException then
         _ <- log WARNING "[FMP API] Request failed" ;;
         _ <- time_sleep (inject_Z (5 * attempt)) ;;
         ret None
       else raise e).

Fixpoint _make_request_from (fuel : nat) (self : nat) (url : string)
    (params : list (string * string)) (attempts : list Z) : M json :=
  match attempts with
  | [] =>
      _ <- log ERROR "[FMP API] Failed to fetch data after all attempts." ;;
      ret JNull   (* Fail gracefully *)
  | attempt :: rest =>
      r <- _make_request_attempt fuel self url params attempt ;;
      match r with
      | Some v => ret v
      | None => _make_request_from fuel self url params rest
      end
  end.

(** [range(1, self.MAX_RETRIES + 1)] *)
Definition attempts_range : list Z := seqZ 1 (MAX_RETRIES + 1 - 1).

Definition _make_request (fuel : nat) (self : nat) (url : string)
    (params : list (string * string)) : M json :=
  _make_request_from fuel self url params attempts_range.

(** ** [FMPMarketData]: bars *)

(** The [tickers] argument: one symbol or a list of symbols. *)
Inductive tickers_arg : Type :=
| OneTicker (s : string)
| TickerList (l : list string).

Definition join_tickers (tickers : tickers_arg) : string :=
  match tickers with
  | TickerList l => String.concat "," l
  | OneTicker s => s
  end.

Definition pybind {A B} (r : pyres A) (k : A -> pyres B) : pyres B :=
  match r with
  | inl e => inl e
  | inr a => k a
  end.

(** [for record in stock["historical"]: record["ticker"] = t_symbol;
    historical_data.append(record)] *)
Fixpoint stamp_records (t_symbol : json) (records : list json)
  : pyres (list json) :=
  match records with
  | [] => inr []
  | record :: rest =>
      pybind (py_setitem record "ticker" t_symbol) (fun record' =>
      pybind (stamp_records t_symbol rest) (fun rest' =>
      inr (record' :: rest')))
  end.

(** [for stock in data["historicalStockList"]: ...] *)
Fixpoint flatten_stock_list (stocks : list json) : pyres (list json) :=
  match stocks with
  | [] => inr []
  | stock :: rest =>
      pybind (py_getitem stock "symbol") (fun t_symbol =>
      pybind (py_getitem stock "historical") (fun historical =>
      pybind (py_iter historical) (fun records =>
      pybind (stamp_records t_symbol records) (fun stamped =>
      pybind (flatten_stock_list rest) (fun rest' =>
      inr (stamped ++ rest'))))))
  end.

Definition get_historical_data (fuel : nat) (self : nat)
    (tickers : tickers_arg) (from_date to_date : string) : M json :=
  let tickers := join_tickers tickers in
  let url :=
    "https://financialmodelingprep.com/api/v3/historical-price-full/" +:+ tickers in
  key <- gets (api_key_of self) ;;
  let params := [("from", from_date); ("to", to_date); ("apikey", key)] in
  data <- _make_request fuel self url params ;;
  if negb (truthy data) then ret JNull
  else
    match data with
    | JDict fields =>
        match dict_get "historical" fields with
        | Some historical => ret historical   (* single ticker *)
        | None =>
            match dict_get "historicalStockList" fields with
            | Some stock_list =>
                stocks <- lift (py_iter stock_list) ;;
                historical_data <- lift (flatten_stock_list stocks) ;;
                ret (JList historical_data)
            | None =>
                _ <- log INFO "[FMP API] No historical data found." ;;
                ret JNull
            end
        end
    | _ =>
        _ <- log INFO "[FMP API] No historical data found." ;;
        ret JNull
    end.

Definition get_intraday_data (fuel : nat) (self : nat)
    (tickers : tickers_arg) (from_date to_date : string) (interval : Z)
  : M json :=
  let tickers := join_tickers tickers in
  let interval_str :=
    if interval =? 60 then "1hour" else py_str interval +:+ "min" in
  let url :=
    "https://financialmodelingprep.com/api/v3/historical-chart/"
      +:+ interval_str +:+ "/" +:+ tickers in
  key <- gets (api_key_of self) ;;
  let params := [("from", from_date); ("to", to_date); ("apikey", key)] in
  data <- _make_request fuel self url params ;;
  if negb (truthy data) then ret JNull
  else
    match data with
    | JList (_ :: _) => ret data
    | _ =>
        _ <- log INFO "[FMP API] No intraday data found." ;;
        ret JNull
    end.

(** The process at start-up: nothing requested, no instance constructed,
    the given files on disk. *)
Definition boot (e : Env) (side : gmap Path file)
    (cache : gmap string (list csv_line)) : World :=
  {| env := e; clock := 0; http_calls := 0; io_calls := 0; clients := [];
     side_files := side; cache_files := cache;
     db := mkDatabase [] 0 0 0; events := [] |}.

(** ** Side files *)

Definition EXTRA_TICKERS_DIR : string :=
  "orchestrator/backfill/update/extra_tickers".
Definition SP500_TICKERS_PATH : Path := (EXTRA_TICKERS_DIR, "sp500_tickers.json").
Definition COMMODITY_TICKERS_PATH : Path :=
  (EXTRA_TICKERS_DIR, "commodity_tickers.json").
Definition CRYPTO_TICKERS_PATH : Path :=
  (EXTRA_TICKERS_DIR, "crypto_tickers.json").

(** One file-system call: it fails with OSError when the environment says
    so, leaving the files as they were. *)
Definition io_call (op : io_op) (effect : gmap Path file -> gmap Path file)
  : M unit :=
  fun w =>
    let n := io_calls w in
    let w1 := set_io_calls (S n) w in
    if io_fault (env w) n
    then (Raise OSError, emit (EvIO op false) w1)
    else (Return tt,
          emit (EvIO op true) (set_side_files (effect (side_files w1)) w1)).

(** Writes the buffered data through to the file. *)
Definition flush_file (f : file) : file :=
  match buffer f with
  | Some c => mkFile c None
  | None => f
  end.

(** [dir.mkdir(parents=True, exist_ok=True)], [os.makedirs(dir,
    exist_ok=True)]; directories themselves are not tracked. *)
Definition mkdir_parents (dir : string) : M unit :=
  io_call (Mkdir dir) (fun m => m).

(** [tempfile.NamedTemporaryFile(mode="w", dir=..., prefix=".<name>.",
    suffix=".tmp", delete=False)] *)
Definition NamedTemporaryFile (target_path : Path) : M Path :=
  token <- gets (fun w => tmp_token (env w) (io_calls w)) ;;
  let temp_file : Path :=
    (fst target_path, "." +:+ snd target_path +:+ "." +:+ token +:+ ".tmp") in
  _ <- io_call (CreateTemp temp_file) (fun m => <[temp_file := mkFile Empty None]> m) ;;
  ret temp_file.

(** [open(path, "w")]: the file is created or truncated at once. *)
Definition open_w (p : Path) : M Path :=
  _ <- io_call (OpenTruncate p) (fun m => <[p := mkFile Empty None]> m) ;;
  ret p.

(** [json.dump(tickers, handle, indent=2)]: the text goes to the buffer of
    the handle. *)
Definition json_dump (tickers : list string) (handle : Path) : M unit :=
  io_call (WriteBuffer handle)
          (fun m => alter (fun f => mkFile (on_disk f) (Some (JsonArray tickers))) handle m).

Definition file_flush (handle : Path) : M unit :=
  io_call (Flush handle) (fun m => alter flush_file handle m).

Definition os_fsync (handle : Path) : M unit :=
  io_call (Fsync handle) (fun m => m).

(** Leaving a [with] block closes the handle, which flushes it. *)
Definition file_close (handle : Path) : M unit :=
  io_call (Close handle) (fun m => alter flush_file handle m).

(** [os.replace(src, dst)]: an atomic rename over the target. *)
Definition os_replace (src dst : Path) : M unit :=
  present <- gets (fun w => side_files w !! src) ;;
  match present with
  | Some f => io_call (Replace src dst) (fun m => <[dst := f]> (delete src m))
  | None =>
      _ <- modify (emit (EvIO (Replace src dst) false)) ;;
      raise OSError   (* FileNotFoundError *)
  end.

Definition path_exists (p : Path) : M bool :=
  gets (fun w => bool_decide (is_Some (side_files w !! p))).

Definition path_unlink (p : Path) : M unit :=
  io_call (Unlink p) (fun m => delete p m).

(** [with <opened> as handle: body] *)
Definition with_file {A} (opened : M Path) (body : Path -> M A) : M A :=
  handle <- opened ;;
  try_finally (body handle) (file_close handle).

(** [_write_json_atomic].  [temp_path] is assigned by the last statement
    of the [with] block, so the handler sees [None] for every failure up
    to there and [Some] for the failures after it. *)
Definition _write_json_atomic_except (temp_path : option Path) (e : exn)
  : M bool :=
  if isinstance e Cls_OSError then
    _ <- log ERROR "[FMP API] Failed to write tickers" ;;
    _ <- match temp_path with
         | Some p =>
             there <- path_exists p ;;
             if there
             then try_except (path_unlink p)
                    (fun e' => if isinstance e' Cls_OSError then ret tt
                               else raise e')
             else ret tt
         | None => ret tt
         end ;;
    ret false
  else raise e.

Definition _write_json_atomic (target_path : Path) (tickers : list string)
    (label : string) : M bool :=
  r <- try_except
         (_ <- mkdir_parents (fst target_path) ;;
          temp_file <- NamedTemporaryFile target_path ;;
          (* body of the [with] block; when it raises, leaving the block
             closes the file and [temp_path] has not been assigned *)
          _ <- try_except
                 (_ <- json_dump tickers temp_file ;;
                  _ <- file_flush temp_file ;;
                  os_fsync temp_file)
                 (fun e => _ <- file_close temp_file ;; raise e) ;;
          (* [temp_path = Path(temp_file.name)] *)
          ret (inr temp_file))
         (fun e => b <- _write_json_atomic_except None e ;; ret (inl b)) ;;
  match r with
  | inl b => ret b
  | inr temp_path =>
      try_except
        (_ <- file_close temp_path ;;     (* end of the [with] block *)
         _ <- os_replace temp_path target_path ;;
         ret true)
        (_write_json_atomic_except (Some temp_path))
  end.

(** ** Universe fetches *)

(** Filter and value of the comprehension
    [[item.get("symbol") for item in data if isinstance(item, dict) and
      isinstance(item.get("symbol"), str) and item.get("symbol").strip()]] *)
Definition symbol_of (item : json) : option string :=
  match item with
  | JDict fields =>
      match dict_get "symbol" fields with
      | Some (JStr s) => if strip_nonempty s then Some s else None
      | _ => None
      end
  | _ => None
  end.

Definition get_sp500_tickers (fuel : nat) (self : nat) : M (list string) :=
  let url := "https://financialmodelingprep.com/stable/sp500-constituent" in
  key <- gets (api_key_of self) ;;
  data <- _make_request fuel self url [("apikey", key)] ;;
  if negb (truthy data) then
    _ <- log ERROR "[FMP API] Failed to fetch S&P 500 tickers." ;;
    ret []
  else
    items <- lift (py_iter data) ;;
    let tickers := omap symbol_of items in
    match tickers with
    | [] =>
        _ <- log ERROR "[FMP API] No valid S&P 500 ticker symbols found." ;;
        ret []
    | _ =>
        _ <- _write_json_atomic SP500_TICKERS_PATH tickers "S&P 500 tickers" ;;
        ret tickers
    end.

Definition get_commodity_tickers (fuel : nat) (self : nat) : M (list string) :=
  let url := "https://financialmodelingprep.com/stable/batch-commodity-quotes" in
  key <- gets (api_key_of self) ;;
  data <- _make_request fuel self url [("apikey", key)] ;;
  if negb (truthy data) then
    _ <- log ERROR "[FMP API] Failed to fetch commodity tickers." ;;
    ret []
  else
    items <- lift (py_iter data) ;;
    let tickers := omap symbol_of items in
    match tickers with
    | [] =>
        _ <- log ERROR "[FMP API] No valid commodity ticker symbols found." ;;
        ret []
    | _ =>
        _ <- _write_json_atomic COMMODITY_TICKERS_PATH tickers "commodity tickers" ;;
        ret tickers
    end.

(** Keeps the first occurrence of every symbol ([seen] is the set of the
    symbols met so far). *)
Fixpoint dedupe (seen : gset string) (symbols : list string) : list string :=
  match symbols with
  | [] => []
  | symbol :: rest =>
      if bool_decide (symbol ∈ seen) then dedupe seen rest
      else symbol :: dedupe ({[symbol]} ∪ seen) rest
  end.

(** [save_crypto_details] of crypto_tickers.py *)
Definition save_crypto_details (crypto_tickers : list json) (log_summary : bool)
  : M unit :=
  let symbols := omap symbol_of crypto_tickers in
  let deduped_symbols := dedupe ∅ symbols in
  _ <- mkdir_parents (fst CRYPTO_TICKERS_PATH) ;;
  _ <- with_file (open_w CRYPTO_TICKERS_PATH)
         (fun handle => json_dump deduped_symbols handle) ;;
  if log_summary
  then log INFO "Saved entries to crypto_tickers.json"
  else ret tt.

(** [symbol = ticker.get("symbol")] followed by the [isinstance(symbol,
    str)] test of [get_crypto_tickers]; [.get] exists on dicts only. *)
Definition crypto_symbol (ticker : json) : pyres (option string) :=
  match ticker with
  | JDict fields =>
      match dict_get "symbol" fields with
      | Some (JStr s) => inr (Some s)
      | _ => inr None
      end
  | _ => inl AttributeError
  end.

Fixpoint crypto_symbols (seen : gset string) (fmp_tickers : list json)
  : pyres (list string) :=
  match fmp_tickers with
  | [] => inr []
  | ticker :: rest =>
      pybind (crypto_symbol ticker) (fun symbol =>
      match symbol with
      | Some s =>
          if bool_decide (s ∈ seen) then crypto_symbols seen rest
          else pybind (crypto_symbols ({[s]} ∪ seen) rest)
                      (fun rest' => inr (s :: rest'))
      | None => crypto_symbols seen rest
      end)
  end.

(** [get_crypto_tickers].  The CoinGecko download, the reference list and
    [format_for_fmp] are taken from the environment as one result:
    the formatted records, or the exception the [try] block catches. *)
Definition get_crypto_tickers : M (list string) :=
  feed <- gets (fun w => crypto_feed (env w)) ;;
  match feed with
  | inl e =>
      _ <- log ERROR "Error fetching crypto data for formatting" ;;
      ret []
  | inr fmp_tickers =>
      symbols <- lift (crypto_symbols ∅ fmp_tickers) ;;
      match symbols with
      | [] =>
          _ <- log ERROR "[FMP API] Error parsing crypto ticker symbols." ;;
          ret []
      | _ =>
          _ <- save_crypto_details fmp_tickers false ;;
          ret symbols
      end
  end.

(** ** Dates

    A [date] is its proleptic Gregorian ordinal ([date.toordinal()]);
    the conversions follow [datetime]. *)

Definition date : Type := Z.

Definition _is_leap (year : Z) : bool :=
  (year mod 4 =? 0) && (negb (year mod 100 =? 0) || (year mod 400 =? 0)).

Definition _days_before_year (year : Z) : Z :=
  let y := year - 1 in
  y * 365 + y / 4 - y / 100 + y / 400.

Definition _DAYS_IN_MONTH (month : Z) : Z :=
  match month with
  | 1 => 31 | 2 => 28 | 3 => 31 | 4 => 30 | 5 => 31 | 6 => 30
  | 7 => 31 | 8 => 31 | 9 => 30 | 10 => 31 | 11 => 30 | 12 => 31
  | _ => -1
  end.

Definition _DAYS_BEFORE_MONTH (month : Z) : Z :=
  match month with
  | 1 => 0 | 2 => 31 | 3 => 59 | 4 => 90 | 5 => 120 | 6 => 151
  | 7 => 181 | 8 => 212 | 9 => 243 | 10 => 273 | 11 => 304 | 12 => 334
  | _ => -1
  end.

Definition _days_before_month (year month : Z) : Z :=
  _DAYS_BEFORE_MONTH month + (if (2 <? month) && _is_leap year then 1 else 0).

(** [date(year, month, day).toordinal()] *)
Definition _ymd2ord (year month day : Z) : date :=
  _days_before_year year + _days_before_month year month + day.

Definition _DI400Y : Z := 146097.
Definition _DI100Y : Z := 36524.
Definition _DI4Y : Z := 1461.

(** [date.fromordinal(n)] as (year, month, day) *)
Definition _ord2ymd (n : date) : Z * Z * Z :=
  let n := n - 1 in
  let n400 := n / _DI400Y in
  let n := n mod _DI400Y in
  let year := n400 * 400 + 1 in
  let n100 := n / _DI100Y in
  let n := n mod _DI100Y in
  let n4 := n / _DI4Y in
  let n := n mod _DI4Y in
  let n1 := n / 365 in
  let n := n mod 365 in
  let year := year + n100 * 100 + n4 * 4 + n1 in
  if (n1 =? 4) || (n100 =? 4) then (year - 1, 12, 31)
  else
    let leapyear := (n1 =? 3) && (negb (n4 =? 24) || (n100 =? 3)) in
    let month := Z.shiftr (n + 50) 5 in
    let preceding :=
      _DAYS_BEFORE_MONTH month + (if (2 <? month) && leapyear then 1 else 0) in
    if n <? preceding then
      let month := month - 1 in
      let preceding :=
        preceding - (_DAYS_IN_MONTH month
                     + (if (month =? 2) && leapyear then 1 else 0)) in
      (year, month, n - preceding + 1)
    else (year, month, n - preceding + 1).

(** [date.weekday()]: Monday is 0. *)
Definition weekday (d : date) : Z := (d + 6) mod 7.

(** Decimal digits, zero-padded to a width ([%Y], [%m], [%d]). *)
Fixpoint zero_pad (width : nat) (s : string) : string :=
  match width with
  | O => s
  | S w => if (String.length s <=? w)%nat then zero_pad w ("0" +:+ s) else s
  end.

(** [d.strftime(fmt)] for the two formats the code uses; [sep] is the
    separator: "-" for '%Y-%m-%d', "" for '%Y%m%d'. *)
Definition strftime (sep : string) (d : date) : string :=
  let '(y, m, dd) := _ord2ymd d in
  zero_pad 4 (py_str y) +:+ sep +:+ zero_pad 2 (py_str m) +:+ sep
    +:+ zero_pad 2 (py_str dd).

(** [pd.bdate_range(start=start_date, end=end_date).date]: pandas yields
    the business days (Monday to Friday, no holiday calendar) of the
    closed range, in ascending order. *)
Definition bdate_range (start_date end_date : date) : list date :=
  List.filter (fun d => weekday d <? 5) (seqZ start_date (end_date - start_date + 1)).

(** ** The batch planner of [backfill_data] *)

Definition BATCH_DAYS : nat := 3.

(** [l[i:j]] for [0 <= i <= j] *)
Definition py_slice {A} (l : list A) (i j : nat) : list A :=
  take (j - i) (drop i l).

(** [range(0, stop, step)] for a positive step *)
Definition py_range0 (stop step : nat) : list nat :=
  map (fun k => (k * step)%nat) (seq 0 ((stop + step - 1) / step)).

(** [[all_dates[i : i + BATCH_DAYS]
      for i in range(0, len(all_dates), BATCH_DAYS)]] *)
Definition group_dates (all_dates : list date) : list (list date) :=
  map (fun i => py_slice all_dates i (i + BATCH_DAYS))
      (py_range0 (length all_dates) BATCH_DAYS).

(** ** Data frames

    A frame has column labels and rows of cells.  What pandas does to a
    single cell when parsing is taken from the environment. *)

Record DataFrame : Type := mkDF {
  columns : list string;
  rows : list (list json)
}.

(** [pd.DataFrame()] *)
Definition empty_frame : DataFrame := mkDF [] [].

(** A record of the payload as labelled cells; an item that is not an
    object lands in a column labelled 0. *)
Definition as_record (item : json) : list (string * json) :=
  match item with
  | JDict fields => fields
  | v => [("0", v)]
  end.

Definition has_label (c : string) (labels : list string) : bool :=
  existsb (String.eqb c) labels.

(** Column labels in order of first appearance. *)
Fixpoint union_labels (acc : list string) (keys : list string) : list string :=
  match keys with
  | [] => acc
  | k :: rest =>
      if has_label k acc then union_labels acc rest
      else union_labels (acc ++ [k]) rest
  end.

(** [pd.DataFrame(data_chunk)] for a list of records; an absent field is
    a missing value. *)
Definition pd_DataFrame (data_chunk : list json) : DataFrame :=
  let records := map as_record data_chunk in
  let labels := union_labels [] (concat (map (map fst) records)) in
  mkDF labels
       (map (fun r => map (fun c => default JNull (dict_get c r)) labels) records).

(** [df.empty] *)
Definition df_empty (df : DataFrame) : bool :=
  match rows df, columns df with
  | [], _ | _, [] => true
  | _, _ => false
  end.

Fixpoint label_index (c : string) (labels : list string) : option nat :=
  match labels with
  | [] => None
  | l :: rest =>
      if String.eqb l c then Some O
      else option_map S (label_index c rest)
  end.

(** [df[c]]: the cells of a column, KeyError when there is none. *)
Definition df_column (c : string) (df : DataFrame) : pyres (list json) :=
  match label_index c (columns df) with
  | Some i => inr (map (fun r => default JNull (r !! i)) (rows df))
  | None => inl KeyError
  end.

(** [df[c] = values]: replaces the column or appends it. *)
Definition df_assign (c : string) (values : list json) (df : DataFrame)
  : DataFrame :=
  match label_index c (columns df) with
  | Some i =>
      mkDF (columns df)
           (zip_with (fun r v => <[i := v]> r) (rows df) values)
  | None =>
      mkDF (columns df ++ [c])
           (zip_with (fun r v => r ++ [v]) (rows df) values)
  end.

(** [df.rename(columns={old: new}, inplace=True)] *)
Definition df_rename (old new : string) (df : DataFrame) : DataFrame :=
  mkDF (map (fun l => if String.eqb l old then new else l) (columns df))
       (rows df).

Fixpoint sequence_res {A} (l : list (pyres A)) : pyres (list A) :=
  match l with
  | [] => inr []
  | r :: rest =>
      pybind r (fun a => pybind (sequence_res rest) (fun rest' => inr (a :: rest')))
  end.

(** [df[column_order]] *)
Definition df_select (labels : list string) (df : DataFrame) : pyres DataFrame :=
  pybind (sequence_res (map (fun c => df_column c df) labels)) (fun cols =>
  inr (mkDF labels
            (imap (fun i _ => map (fun col => default JNull (col !! i)) cols)
                  (rows df)))).

Definition column_order : list string :=
  ["ticker"; "date"; "datetime"; "open"; "high"; "low"; "close"; "volume"].

(** [pd.to_datetime] on a column; [parse] is its action on one cell. *)
Definition to_datetime_column (parse : json -> option json) (cells : list json)
  : pyres (list json) :=
  sequence_res (map (fun v => match parse v with
                              | Some t => inr t
                              | None => inl ValueError
                              end) cells).

(** ** [backfill.py] *)

Definition TEMP_DIR : string := "data/backfill_cache".

(** [os.path.join(dir, name)]: an absolute [name] replaces [dir]. *)
Definition os_path_join (dir name : string) : string :=
  if String.prefix "/" name then name else dir +:+ "/" +:+ name.

Definition lower_ascii (c : ascii) : ascii :=
  let n := nat_of_ascii c in
  if ((65 <=? n) && (n <=? 90))%nat then ascii_of_nat (n + 32) else c.

Definition upper_ascii (c : ascii) : ascii :=
  let n := nat_of_ascii c in
  if ((97 <=? n) && (n <=? 122))%nat then ascii_of_nat (n - 32) else c.

(** [s.lower()], [s.upper()] *)
Definition str_lower (s : string) : string :=
  string_of_list_ascii (map lower_ascii (list_ascii_of_string s)).
Definition str_upper (s : string) : string :=
  string_of_list_ascii (map upper_ascii (list_ascii_of_string s)).

Definition generate_output_filename (tickers : list string)
    (start_date end_date : date) (interval : Z) (exchange : option string)
    (output_filename : option string) : string :=
  let dynamic :=
    let ticker_str :=
      match tickers with
      | [t] => t
      | _ => "multiple_tickers"
      end in
    let date_range_str := strftime "" start_date +:+ "_" +:+ strftime "" end_date in
    let interval_str := py_str interval +:+ "min" in
    let exchange_str :=
      match exchange with
      | Some e => if String.eqb e "" then "nasdaq" else str_lower e
      | None => "nasdaq"
      end in
    "backfill_" +:+ ticker_str +:+ "_" +:+ date_range_str +:+ "_"
      +:+ interval_str +:+ "_" +:+ exchange_str +:+ ".csv" in
  let output_filename :=
    match output_filename with
    | None => dynamic
    | Some name =>
        if String.eqb name "" || String.eqb name "backfilled_data.csv"
        then dynamic else name
    end in
  os_path_join TEMP_DIR output_filename.

Definition count_label (c : string) (labels : list string) : nat :=
  length (List.filter (String.eqb c) labels).

(** [prepare_data(df_chunk, ticker)] *)
Definition prepare_data (df_chunk : DataFrame) (ticker : string) : M DataFrame :=
  parse <- gets (fun w => to_datetime (env w)) ;;
  date_part <- gets (fun w => dt_date (env w)) ;;
  converted <-
    (if has_label "date" (columns df_chunk) then
       let df1 := df_rename "date" "datetime" df_chunk in
       (* with two columns labelled datetime, [df["datetime"]] is a frame
          and [pd.to_datetime] rejects it *)
       if (1 <? count_label "datetime" (columns df1))%nat then raise ValueError
       else
         cells <- lift (df_column "datetime" df1) ;;
         parsed <- lift (to_datetime_column parse cells) ;;
         ret (df_assign "datetime" parsed df1, true)
     else ret (df_chunk, false)) ;;
  let '(df1, is_datetime) := converted in
  let df2 := df_assign "ticker" (map (fun _ => JStr ticker) (rows df1)) df1 in
  cells <- lift (df_column "datetime" df2) ;;
  (* [.dt] needs datetime-like values: only the converted column has them *)
  if negb is_datetime then raise AttributeError
  else
    let df3 := df_assign "date" (map date_part cells) df2 in
    lift (df_select column_order df3).

(** The CSV cache: no faults are injected here. *)
Definition cache_exists (path : string) : M bool :=
  gets (fun w => bool_decide (is_Some (cache_files w !! path))).

(** [os.remove(path)] *)
Definition cache_remove (path : string) : M unit :=
  modify (fun w => set_cache_files (delete path (cache_files w)) w).

(** [df.to_csv(path, mode="a", index=False, header=...)] *)
Definition to_csv_append (df : DataFrame) (path : string) (header : bool)
  : M unit :=
  modify (fun w =>
    let old := default [] (cache_files w !! path) in
    let head := if header then [Header (columns df)] else [] in
    set_cache_files
      (<[path := old ++ head ++ map Line (rows df)]> (cache_files w)) w).

(** [pd.concat(all_dfs, ignore_index=True)] for frames that share their
    columns, as the frames built by [prepare_data] do. *)
Definition pd_concat (all_dfs : list DataFrame) : DataFrame :=
  mkDF (match all_dfs with d :: _ => columns d | [] => [] end)
       (concat (map rows all_dfs)).

(** The body of the [try] of one attempt; the result is [all_dfs] after
    it. *)
Definition fetch_batch (fuel : nat) (fmp : nat) (ticker : string)
    (from_date_str to_date_str : string) (interval : Z)
    (output_path : option string) (all_dfs : list DataFrame)
  : M (list DataFrame) :=
  data_chunk <- get_intraday_data fuel fmp (OneTicker ticker)
                  from_date_str to_date_str interval ;;
  data_chunk <-
    match data_chunk with
    | JNull => get_historical_data fuel fmp (OneTicker ticker)
                 from_date_str to_date_str
    | _ => ret data_chunk
    end ;;
  match data_chunk with
  | JList (item :: items) =>
      let df_chunk := pd_DataFrame (item :: items) in
      if negb (df_empty df_chunk) then
        df_chunk <- prepare_data df_chunk ticker ;;
        let all_dfs := all_dfs ++ [df_chunk] in
        _ <- match output_path with
             | Some path =>
                 there <- cache_exists path ;;
                 to_csv_append df_chunk path (negb there)
             | None => ret tt
             end ;;
        ret all_dfs
      else
        _ <- log WARNING "  [Backfill] No data returned for the batch." ;;
        ret all_dfs
  | _ => ret all_dfs
  end.

Definition fetching_msg (ticker from_date_str to_date_str : string) : string :=
  "[Backfill] Fetching " +:+ ticker +:+ " from " +:+ from_date_str
    +:+ " to " +:+ to_date_str +:+ "...".

Definition error_msg (attempt : Z) (ticker from_date_str to_date_str : string)
  : string :=
  "[Backfill:ERROR] Attempt " +:+ py_str attempt +:+ " error fetching "
    +:+ ticker +:+ " from " +:+ from_date_str +:+ " to " +:+ to_date_str.

(** [while attempt < 2 and not success: ...] *)
Fixpoint batch_tries (iterations : nat) (fuel : nat) (fmp : nat)
    (ticker : string) (from_date_str to_date_str : string) (interval : Z)
    (output_path : option string)
    (attempt : Z) (success : bool) (all_dfs : list DataFrame)
  : M (list DataFrame) :=
  if (attempt <? 2) && negb success then
    match iterations with
    | O => hang
    | S iterations' =>
        let attempt := attempt + 1 in
        r <- try_except
               (dfs <- fetch_batch fuel fmp ticker from_date_str to_date_str
                         interval output_path all_dfs ;;
                ret (true, dfs))
               (fun ex =>   (* except Exception *)
                  _ <- log ERROR (error_msg attempt ticker from_date_str to_date_str) ;;
                  _ <- time_sleep 1 ;;   (* small wait before retry *)
                  ret (false, all_dfs)) ;;
        batch_tries iterations' fuel fmp ticker from_date_str to_date_str
                    interval output_path attempt (fst r) (snd r)
    end
  else ret all_dfs.

(** One [date_group] of one ticker. *)
Definition process_batch (fuel : nat) (fmp : nat) (ticker : string)
    (interval : Z) (output_path : option string)
    (date_group : list date) (all_dfs : list DataFrame)
  : M (list DataFrame) :=
  match date_group, last date_group with
  | first :: _, Some final =>
      let from_date_str := strftime "-" first in
      let to_date_str := strftime "-" final in
      _ <- log INFO (fetching_msg ticker from_date_str to_date_str) ;;
      batch_tries fuel fuel fmp ticker from_date_str to_date_str interval
                  output_path 0 false all_dfs
  | _, _ => raise IndexError
  end.

(** [for date_group in grouped_dates: ...] *)
Fixpoint batches_loop (fuel : nat) (fmp : nat) (ticker : string)
    (interval : Z) (output_path : option string)
    (grouped_dates : list (list date)) (all_dfs : list DataFrame)
  : M (list DataFrame) :=
  match grouped_dates with
  | [] => ret all_dfs
  | date_group :: rest =>
      all_dfs <- process_batch fuel fmp ticker interval output_path
                   date_group all_dfs ;;
      batches_loop fuel fmp ticker interval output_path rest all_dfs
  end.

(** [for ticker in tickers: ...] *)
Fixpoint tickers_loop (fuel : nat) (fmp : nat) (tickers : list string)
    (interval : Z) (output_path : option string)
    (grouped_dates : list (list date)) (all_dfs : list DataFrame)
  : M (list DataFrame) :=
  match tickers with
  | [] => ret all_dfs
  | ticker :: rest =>
      _ <- log INFO ("[Backfill] Processing " +:+ ticker +:+ "...") ;;
      all_dfs <- batches_loop fuel fmp ticker interval output_path
                   grouped_dates all_dfs ;;
      tickers_loop fuel fmp rest interval output_path grouped_dates all_dfs
  end.

(** Steps 6 to 9 of [backfill_data]: the loops and the value returned. *)
Definition backfill_collect (fuel : nat) (fmp : nat) (tickers : list string)
    (interval : Z) (output_filename : option string)
    (output_path : option string) (grouped_dates : list (list date))
  : M (option DataFrame) :=
  (* 6), 7) Loop over tickers and date batches *)
  all_dfs <- tickers_loop fuel fmp tickers interval output_path
               grouped_dates [] ;;
  (* 8) *)
  _ <- match output_path with
       | Some _ => log INFO "[Backfill] Completed. Data saved."
       | None => log INFO "[Backfill] Completed. No CSV file generated (output_filename=None)."
       end ;;
  (* 9) *)
  match output_filename with
  | None =>
      match all_dfs with
      | _ :: _ =>
          _ <- log INFO "[Backfill] Returning DataFrame." ;;
          ret (Some (pd_concat all_dfs))
      | [] =>
          _ <- log INFO "[Backfill] No data fetched; returning empty DataFrame." ;;
          ret (Some empty_frame)
      end
  | Some _ => ret None
  end.

(** [backfill_data].  [start_date] and [end_date] are date objects, on
    which [convert_to_date] is the identity.  The result is [Some df] for
    a returned frame and [None] for [return None]. *)
Definition backfill_data (fuel : nat) (tickers : list string)
    (start_date end_date : date) (interval : Z) (exchange : option string)
    (output_filename : option string) : M (option DataFrame) :=
  _ <- print "Starting backfill" ;;
  (* 2) Prepare an instance of FMPMarketData *)
  fmp <- FMPMarketData_init ;;
  (* 3) Generate a list of business days *)
  let all_dates := bdate_range start_date end_date in
  match all_dates with
  | [] =>
      _ <- log WARNING "[Backfill] No valid trading days in the specified range." ;;
      ret (match output_filename with
           | None => Some empty_frame
           | Some _ => None
           end)
  | _ :: _ =>
      (* 4) Group business days into batches *)
      let grouped_dates := group_dates all_dates in
      (* 5) Generate the output path if output_filename is provided *)
      output_path <-
        match output_filename with
        | Some _ =>
            let output_path :=
              generate_output_filename tickers start_date end_date interval
                                       exchange output_filename in
            (* Ensure the file is empty before appending data *)
            there <- cache_exists output_path ;;
            _ <- (if there then cache_remove output_path else ret tt) ;;
            ret (Some output_path)
        | None => ret None
        end ;;
      backfill_collect fuel fmp tickers interval output_filename output_path
                       grouped_dates
  end.

(** ** [concurrent_backfill.py] *)

Definition MAX_WORKERS : Z := 8.

(** Modelled from the spec: [MQSDBConnector()], a new pool. *)
Definition MQSDBConnector_init : M unit :=
  modify (fun w =>
    set_db (mkDatabase (market_data (db w)) (leased (db w))
                       (pools_open (db w) + 1) (pools_closed (db w))) w).

(** Modelled from the spec: [db_connector.get_connection()] borrows a
    lease; the borrow blocks while the pool is exhausted, which in a run
    where nobody else can release is a call that never returns. *)
Definition get_connection : M bool :=
  fun w =>
    if leased (db w) <? pool_capacity (env w)
    then (Return true,
          set_db (mkDatabase (market_data (db w)) (leased (db w) + 1)
                             (pools_open (db w)) (pools_closed (db w))) w)
    else (Hang, w).

(** Modelled from the spec: [db_connector.release_connection(conn)]. *)
Definition release_connection : M unit :=
  modify (fun w =>
    set_db (mkDatabase (market_data (db w)) (leased (db w) - 1)
                       (pools_open (db w)) (pools_closed (db w))) w).

(** Modelled from the spec: [db_connector.close_all_connections()]. *)
Definition close_all_connections : M unit :=
  modify (fun w =>
    set_db (mkDatabase (market_data (db w)) 0
                       (pools_open (db w)) (pools_closed (db w) + 1)) w).

Fixpoint json_eqb (a b : json) : bool :=
  match a, b with
  | JNull, JNull => true
  | JBool x, JBool y => Bool.eqb x y
  | JNum x, JNum y => Qeq_bool x y
  | JStr x, JStr y => String.eqb x y
  | JList xs, JList ys =>
      (fix items_eqb (xs ys : list json) : bool :=
         match xs, ys with
         | [], [] => true
         | x :: xs', y :: ys' => json_eqb x y && items_eqb xs' ys'
         | _, _ => false
         end) xs ys
  | JDict xs, JDict ys =>
      (fix fields_eqb (xs ys : list (string * json)) : bool :=
         match xs, ys with
         | [], [] => true
         | (kx, x) :: xs', (ky, y) :: ys' =>
             String.eqb kx ky && json_eqb x y && fields_eqb xs' ys'
         | _, _ => false
         end) xs ys
  | _, _ => false
  end.

(** The uniqueness key (ticker, timestamp) of [market_data]. *)
Definition same_key (r1 r2 : db_row) : bool :=
  json_eqb (row_ticker r1) (row_ticker r2)
  && json_eqb (row_timestamp r1) (row_timestamp r2).

Definition key_taken (r : db_row) (table : list db_row) : bool :=
  existsb (same_key r) table.

(** Modelled from the spec: the bulk insert.  Under "ignore" a row whose
    key is taken is dropped; otherwise a taken key rejects the whole
    statement. *)
Fixpoint insert_rows (ignore : bool) (insert_data table : list db_row)
  : pyres (list db_row) :=
  match insert_data with
  | [] => inr table
  | r :: rest =>
      if key_taken r table then
        if ignore then insert_rows ignore rest table
        else inl UniqueViolation
      else insert_rows ignore rest (table ++ [r])
  end.

Definition execute_values (on_conflict : string) (insert_data : list db_row)
  : M unit :=
  table <- gets (fun w => market_data (db w)) ;;
  table' <- lift (insert_rows (String.eqb on_conflict "ignore") insert_data table) ;;
  modify (fun w =>
    set_db (mkDatabase table' (leased (db w)) (pools_open (db w))
                       (pools_closed (db w))) w).

(** [float(v)]; [None] when it raises. *)
Definition py_float (parse : string -> option Q) (v : json) : option Q :=
  match v with
  | JNum q => Some q
  | JBool b => Some (if b then 1 else 0)%Q
  | JStr s => parse s
  | _ => None
  end.

(** [int(x)] on a float: truncation towards zero. *)
Definition py_int (q : Q) : Z := Z.quot (Qnum q) (Z.pos (Qden q)).

(** The tuple built from one row of the frame; [None] when a conversion
    raises and the row is skipped. *)
Definition insert_tuple (parse : string -> option Q) (effective_exchange : string)
    (row : list json) : option db_row :=
  let cell (c : string) : json :=
    match label_index c column_order with
    | Some i => default JNull (row !! i)
    | None => JNull
    end in
  o ← py_float parse (cell "open");
  h ← py_float parse (cell "high");
  l ← py_float parse (cell "low");
  c ← py_float parse (cell "close");
  v ← py_float parse (cell "volume");
  Some (mkRow (cell "ticker") (cell "datetime") (cell "date")
              (if String.eqb effective_exchange "" then "nasdaq"
               else str_lower effective_exchange)
              o h l c (py_int v)).

(** [for _, row in df.iterrows(): try: insert_data.append(...) except:
    print; continue] *)
Fixpoint build_insert_data (parse : string -> option Q) (ticker : string)
    (effective_exchange : string) (rows : list (list json))
  : M (list db_row) :=
  match rows with
  | [] => ret []
  | row :: rest =>
      head <- match insert_tuple parse effective_exchange row with
              | Some t => ret [t]
              | None =>
                  _ <- print ("[" +:+ ticker +:+ "] Skipping row due to parsing error") ;;
                  ret []
              end ;;
      tail <- build_insert_data parse ticker effective_exchange rest ;;
      ret (head ++ tail)
  end.

Definition inserted_msg (ticker : string) (n : nat) : string :=
  "[" +:+ ticker +:+ "] Inserted " +:+ py_str (Z.of_nat n) +:+ " rows into DB.".

(** [backfill_single_ticker].  [conn] is assigned by [get_connection];
    the [finally] clause releases it when it is set. *)
Definition backfill_single_ticker (fuel : nat) (ticker : string)
    (start_date end_date : date) (interval : Z) (exchange : option string)
    (dry_run : bool) (on_conflict : string)
    (exchange_map : option (gmap string string)) : M unit :=
  let fallback :=
    match exchange with
    | Some e => if String.eqb e "" then "nasdaq" else e
    | None => "nasdaq"
    end in
  let effective_exchange :=
    default fallback (default ∅ exchange_map !! str_upper ticker) in
  let fetched : M (option DataFrame) :=
    df <- backfill_data fuel [ticker] start_date end_date interval
            (Some effective_exchange) None ;;
    match df with
    | None => _ <- print ("[" +:+ ticker +:+ "] No data returned from backfill.") ;;
              ret None
    | Some df =>
        if df_empty df
        then _ <- print ("[" +:+ ticker +:+ "] No data returned from backfill.") ;;
             ret None
        else ret (Some df)
    end in
  let on_error (ex : exn) : M unit :=   (* except Exception as e *)
    print ("[" +:+ ticker +:+ "] Error during backfill or insert") in
  r <- try_except fetched (fun ex => _ <- on_error ex ;; ret None) ;;
  match r with
  | None => ret tt              (* [conn] is still None in [finally] *)
  | Some df =>
      conn <- try_except (c <- get_connection ;; ret (Some c))
                         (fun ex => _ <- on_error ex ;; ret None) ;;
      match conn with
      | None => ret tt
      | Some false =>
          print ("[" +:+ ticker +:+ "] Could not get DB connection from pool.")
      | Some true =>
          try_finally
            (try_except
               (parse <- gets (fun w => float_of_string (env w)) ;;
                insert_data <- build_insert_data parse ticker effective_exchange
                                 (rows df) ;;
                match insert_data, dry_run with
                | _ :: _, false =>
                    _ <- execute_values on_conflict insert_data ;;
                    print (inserted_msg ticker (length insert_data))
                | _, true => log INFO ("[" +:+ ticker +:+ ":DRY_RUN] Rows prepared.")
                | [], false => print ("[" +:+ ticker +:+ "] No valid rows to insert.")
                end)
               on_error)
            release_connection
      end
  end.

(** What a caller would need to receive for an aggregate report. *)
Record run_stats : Type := mkStats {
  total_inserted : Z;
  total_skipped : Z;
  ticker_count : Z;
  elapsed_seconds : Q
}.

(** Submitting the tickers and collecting the futures, in the schedule
    where the workers run one after the other in submission order.  An
    exception of a worker is stored in its future and printed by the
    collecting loop. *)
Fixpoint run_workers (fuel : nat) (tickers : list string)
    (start_date end_date : date) (interval : Z) (exchange : option string)
    (dry_run : bool) (on_conflict : string)
    (exchange_map : option (gmap string string)) : M unit :=
  match tickers with
  | [] => ret tt
  | ticker :: rest =>
      _ <- try_except
             (backfill_single_ticker fuel ticker start_date end_date interval
                exchange dry_run on_conflict exchange_map)
             (fun ex => print "[ConcurrentBackfill:ERROR] A worker failed") ;;
      run_workers fuel rest start_date end_date interval exchange dry_run
                  on_conflict exchange_map
  end.

(** [concurrent_backfill].  The function has no [return] statement: the
    caller receives [None]. *)
Definition concurrent_backfill (fuel : nat) (tickers : list string)
    (start_date end_date : date) (interval : Z) (exchange : option string)
    (exchange_map : option (gmap string string)) (dry_run : bool)
    (on_conflict : string) (threads : Z) : M (option run_stats) :=
  _ <- print ("[ConcurrentBackfill] Starting concurrency for "
              +:+ py_str (Z.of_nat (length tickers)) +:+ " tickers.") ;;
  _ <- print ("  Date range: " +:+ strftime "-" start_date +:+ " to "
              +:+ strftime "-" end_date +:+ ", interval="
              +:+ py_str interval +:+ " min") ;;
  _ <- print ("  Using up to " +:+ py_str threads +:+ " threads.") ;;
  (* Create ONE shared database connector instance *)
  _ <- MQSDBConnector_init ;;
  _ <- try_finally
         ((* ThreadPoolExecutor(max_workers=threads) *)
          if threads <=? 0 then raise ValueError
          else run_workers fuel tickers start_date end_date interval exchange
                 dry_run on_conflict exchange_map)
         (_ <- print "[ConcurrentBackfill] All threads completed. Closing connection pool." ;;
          close_all_connections) ;;
  ret None.

(** ** [FMPMarketData]: quotes *)

(** [key in v] for a string key: membership in the keys of a dict, in the
    items of a list, as a substring of a string; other values are not
    containers. *)
Definition py_contains (key : string) (v : json) : pyres bool :=
  match v with
  | JDict fields => inr (bool_decide (is_Some (dict_get key fields)))
  | JList items => inr (existsb (json_eqb (JStr key)) items)
  | JStr s => inr (bool_decide (is_Some (String.index 0 key s)))
  | _ => inl TypeError
  end.


(** [get_current_price]: the result is a float, 0.0 when no price was
    found or anything went wrong. *)
Definition get_current_price (fuel : nat) (self : nat) (ticker : string) : M Q :=
  let url := "https://financialmodelingprep.com/stable/quote?symbol=" +:+ ticker in
  key <- gets (api_key_of self) ;;
  let params := [("apikey", key)] in
  try_except
    (data <- _make_request fuel self url params ;;
     price <-
       match data with
       | JList (first :: _) =>
           has_price <- lift (py_contains "price" first) ;;
           if has_price then
             price <- lift (py_getitem first "price") ;;
             match price with
             | JNull => ret None
             | _ => ret (Some price)
             end
           else ret None
       | _ => ret None
       end ;;
     match price with
     | Some price =>
         parse <- gets (fun w => float_of_string (env w)) ;;
         match py_float parse price with
         | Some q => ret q
         | None =>
             raise (match price with JStr _ => ValueError | _ => TypeError end)
         end
     | None =>
         _ <- log WARNING ("No valid price found for ticker " +:+ ticker
                           +:+ " in API response.") ;;
         ret 0%Q
     end)
    (fun e =>   (* except Exception *)
       _ <- log ERROR ("Price fetch failed for " +:+ ticker) ;;
       ret 0%Q).

(** ** [crypto_tickers.py] *)

Definition lstrip_chars : list ascii -> list ascii :=
  fix go (l : list ascii) : list ascii :=
    match l with
    | c :: rest => if is_space c then go rest else l
    | [] => []
    end.

(** [s.strip()] (ASCII whitespace) *)
Definition str_strip (s : string) : string :=
  string_of_list_ascii
    (rev (lstrip_chars (rev (lstrip_chars (list_ascii_of_string s))))).

(** [s.endswith(suffix)] *)
Definition str_endswith (suffix s : string) : bool :=
  let n := String.length s in
  let k := String.length suffix in
  (k <=? n)%nat && String.eqb (substring (n - k) k s) suffix.

(** The class [[A-Z0-9]] of the regular expression. *)
Definition is_upper_alnum (c : ascii) : bool :=
  let n := nat_of_ascii c in
  ((65 <=? n) && (n <=? 90) || (48 <=? n) && (n <=? 57))%nat.

(** [normalize_symbol], on ASCII text as everywhere in the model. *)
Definition normalize_symbol (symbol : string) : string :=
  let value := str_upper (str_strip symbol) in
  let value :=
    if str_endswith "USD" value
    then substring 0 (String.length value - 3) value   (* value[:-3] *)
    else value in
  (* re.sub(r"[^A-Z0-9]", "", value) *)
  string_of_list_ascii (List.filter is_upper_alnum (list_ascii_of_string value)).

(** [l[:limit]] *)
Definition py_prefix {A} (l : list A) (limit : Z) : list A :=
  if 0 <=? limit then take (Z.to_nat limit) l
  else take (length l - Z.to_nat (- limit)) l.

Definition coingecko_url (per_page page : Z) : string :=
  "https://api.coingecko.com/api/v3/coins/markets"
    +:+ "?vs_currency=usd&order=market_cap_desc&per_page=" +:+ py_str per_page
    +:+ "&page=" +:+ py_str page.

(** [response.raise_for_status()]: HTTPError, a RequestException, for the
    4xx and 5xx statuses. *)
Definition raise_for_status (status_code : Z) : M unit :=
  if (400 <=? status_code) && (status_code <? 600)
  then raise OtherRequestError
  else ret tt.

(** The [for page in range(1, pages_needed + 1)] loop of
    [get_top_crypto_from_coingecko], which ends at the first page that
    fails ([break]). *)
Fixpoint coingecko_pages (per_page : Z) (pages : list Z) (all_coins : list json)
  : M (list json) :=
  match pages with
  | [] => ret all_coins
  | page :: rest =>
      r <- try_except
             (response <- requests_get (coingecko_url per_page page) [] ;;
              let '(status_code, body) := response in
              _ <- raise_for_status status_code ;;
              coins <- match body with
                       | Some v => ret v
                       | None => raise JSONDecodeError
                       end ;;
              (* all_coins.extend(coins) *)
              items <- lift (py_iter coins) ;;
              _ <- time_sleep (1 # 5) ;;
              ret (Some (all_coins ++ items)))
             (fun exc =>   (* except Exception *)
                _ <- log ERROR ("  Error on page " +:+ py_str page) ;;
                ret None) ;;
      match r with
      | Some all_coins => coingecko_pages per_page rest all_coins
      | None => ret all_coins   (* break *)
      end
  end.

Definition get_top_crypto_from_coingecko (limit : Z) : M (list json) :=
  let per_page := 250 in
  let pages_needed := (limit + per_page - 1) / per_page in
  all_coins <- coingecko_pages per_page (seqZ 1 pages_needed) [] ;;
  ret (py_prefix all_coins limit).

(** [load_reference_list].  The reference file is an argument: absent
    ([None]), unreadable or not JSON (the exception), or the decoded
    value. *)
Definition load_reference_list (reference_file : option (pyres json))
  : M (list json) :=
  match reference_file with
  | None =>
      _ <- log ERROR "No reference file found, skipping symbol matching." ;;
      ret []
  | Some (inl exc) =>
      _ <- log WARNING "Failed to read reference file" ;;
      ret []
  | Some (inr (JList data)) => ret data
  | Some (inr _) => ret []
  end.

(** [(d.get(key) or "")] as the receiver of a [str] method: the text;
    AttributeError when [d] has no [get] or the value is neither falsy
    nor a string. *)
Definition get_text (key : string) (d : json) : pyres string :=
  match d with
  | JDict fields =>
      match dict_get key fields with
      | Some (JStr s) => inr s
      | Some v => if truthy v then inl AttributeError else inr ""
      | None => inr ""
      end
  | _ => inl AttributeError
  end.

Definition reference_index : Type := gmap string json * gmap string (list json).

Fixpoint build_reference_index_from (reference_rows : list json)
    (by_exact_symbol : gmap string json) (by_base : gmap string (list json))
  : pyres reference_index :=
  match reference_rows with
  | [] => inr (by_exact_symbol, by_base)
  | row :: rest =>
      pybind (get_text "symbol" row) (fun text =>
      let symbol := str_upper (str_strip text) in
      if String.eqb symbol "" then
        build_reference_index_from rest by_exact_symbol by_base   (* continue *)
      else
        let base := normalize_symbol symbol in
        build_reference_index_from rest
          (<[symbol := row]> by_exact_symbol)
          (* by_base.setdefault(base, []).append(row) *)
          (<[base := default [] (by_base !! base) ++ [row]]> by_base))
  end.

Definition build_reference_index (reference_rows : list json)
  : pyres reference_index :=
  build_reference_index_from reference_rows ∅ ∅.

(** [row["symbol"].upper()] *)
Definition symbol_upper (row : json) : pyres string :=
  pybind (py_getitem row "symbol") (fun v =>
  match v with
  | JStr s => inr (str_upper s)
  | _ => inl AttributeError
  end).

(** [for row in matches: ... if symbol.endswith("USD"): return symbol] *)
Fixpoint first_usd (matches : list json) : pyres (option string) :=
  match matches with
  | [] => inr None
  | row :: rest =>
      pybind (get_text "symbol" row) (fun text =>
      let symbol := str_upper text in
      if str_endswith "USD" symbol then inr (Some symbol) else first_usd rest)
  end.

Definition pick_reference_symbol (base : string)
    (by_exact_symbol : gmap string json) (by_base : gmap string (list json))
  : pyres (option string) :=
  let exact_usd := base +:+ "USD" in
  match by_exact_symbol !! exact_usd with
  | Some row => pybind (symbol_upper row) (fun s => inr (Some s))
  | None =>
      match by_exact_symbol !! base with
      | Some row => pybind (symbol_upper row) (fun s => inr (Some s))
      | None =>
          match default [] (by_base !! base) with
          | [] => inr None
          | first :: others =>
              pybind (first_usd (first :: others)) (fun found =>
              match found with
              | Some symbol => inr (Some symbol)
              | None =>
                  pybind (get_text "symbol" first) (fun text =>
                  let symbol := str_upper text in
                  inr (if String.eqb symbol "" then None else Some symbol))
              end)
          end
      end
  end.

(** [coin.get(key)] *)
Definition py_get (d : json) (key : string) : pyres json :=
  match d with
  | JDict fields => inr (default JNull (dict_get key fields))
  | _ => inl AttributeError
  end.

(** The loop of [format_for_fmp]; the result is [fmp_tickers] and
    [matched_count]. *)
Fixpoint format_coins (coins : list json) (index : reference_index)
  : pyres (list json * Z) :=
  match coins with
  | [] => inr ([], 0)
  | coin :: rest =>
      pybind (get_text "symbol" coin) (fun text =>
      let raw_symbol := str_upper (str_strip text) in
      if String.eqb raw_symbol "" then format_coins rest index
      else
        let base := normalize_symbol raw_symbol in
        if String.eqb base "" then format_coins rest index
        else
          pybind (pick_reference_symbol base (fst index) (snd index))
                 (fun matched_symbol =>
          let matched :=
            match matched_symbol with
            | Some s => negb (String.eqb s "")
            | None => false
            end in
          let final_symbol :=
            if matched then default "" matched_symbol else base +:+ "USD" in
          pybind (py_get coin "current_price") (fun price =>
          pybind (py_get coin "price_change_24h") (fun change =>
          pybind (py_get coin "total_volume") (fun volume =>
          pybind (format_coins rest index) (fun '(fmp_tickers, matched_count) =>
          inr (JDict [("symbol", JStr final_symbol);
                      ("price", price);
                      ("change", if truthy change then change else JNum 0);
                      ("volume", volume)] :: fmp_tickers,
               if matched then matched_count + 1 else matched_count)))))))
  end.

(** [format_for_fmp(coins, reference_rows)]; [None] for the default
    [reference_rows=None]. *)
Definition format_for_fmp (coins : list json) (reference_rows : option (list json))
  : pyres (list json * Z) :=
  pybind (build_reference_index (default [] reference_rows)) (fun index =>
  format_coins coins index).

(** ** Command-line arguments ([concurrent_backfill.py]) *)

(** [sys.exit(code)] raises SystemExit, which is not an [Exception] and
    which none of the modelled handlers catches: a call that may end the
    process returns [Exit code] or [Done a]. *)
Inductive exit_or (A : Type) : Type :=
| Exit (code : Z)
| Done (a : A).
Arguments Exit {A} code.
Arguments Done {A} a.

(** [arg.split("=", 1)[1]]: the text after the first "=". *)
Fixpoint after_first_eq (arg : string) : pyres string :=
  match arg with
  | EmptyString => inl IndexError
  | String c rest => if Ascii.eqb c "=" then inr rest else after_first_eq rest
  end.

(** The [for arg in argv] loop of [parse_main_args]. *)
Fixpoint parse_main_args_loop (argv : list string)
    (start_date_arg end_date_arg : option string)
  : pyres (option string * option string) :=
  match argv with
  | [] => inr (start_date_arg, end_date_arg)
  | arg :: rest =>
      if String.prefix "startdate=" arg then
        pybind (after_first_eq arg) (fun v =>
        parse_main_args_loop rest (Some v) end_date_arg)
      else if String.prefix "enddate=" arg then
        pybind (after_first_eq arg) (fun v =>
        parse_main_args_loop rest start_date_arg (Some v))
      else parse_main_args_loop rest start_date_arg end_date_arg
  end.

(** [not x] for [x] a string or None *)
Definition not_text (x : option string) : bool :=
  match x with
  | None => true
  | Some s => String.eqb s ""
  end.

Definition parse_main_args (argv : list string) : M (exit_or (string * string)) :=
  r <- lift (parse_main_args_loop argv None None) ;;
  let '(start_date_arg, end_date_arg) := r in
  if not_text start_date_arg || not_text end_date_arg then
    _ <- print "❌ Missing required arguments: startdate and enddate." ;;
    _ <- print "Usage: python3 concurrent_backfill.py startdate=DDMMYY enddate=DDMMYY" ;;
    ret (Exit 1)
  else ret (Done (default "" start_date_arg, default "" end_date_arg)).

(** ** Ticker files read back ([refresh.py], [backfill_cli.py]) *)

(** What [with open(path, "r") as f: json.load(f)] comes to: the file is
    missing (FileNotFoundError), cannot be read (another OSError), does
    not hold JSON (JSONDecodeError), or the decoded array.  A reader sees
    what is on disk, not what sits in a writer's buffer. *)
Inductive read_outcome : Type :=
| FileNotFound
| Unreadable
| InvalidJSON
| Loaded (data : list string).

Definition json_load_file (p : Path) : M read_outcome :=
  fun w =>
    let n := io_calls w in
    let w1 := set_io_calls (S n) w in
    match side_files w !! p with
    | None => (Return FileNotFound, w1)
    | Some f =>
        if io_fault (env w) n then (Return Unreadable, w1)
        else match on_disk f with
             | Empty => (Return InvalidJSON, w1)
             | JsonArray symbols => (Return (Loaded symbols), w1)
             end
    end.

(** [load_existing_tickers] of refresh.py: every exception ends in []. *)
Definition load_existing_tickers (tickers_path : Path) : M (list string) :=
  present <- path_exists tickers_path ;;
  if present then
    r <- json_load_file tickers_path ;;
    match r with
    | Loaded tickers =>
        _ <- log INFO ("Loaded " +:+ py_str (Z.of_nat (length tickers))
                       +:+ " existing tickers from " +:+ snd tickers_path) ;;
        ret tickers
    | InvalidJSON =>
        _ <- log ERROR ("Invalid JSON in " +:+ snd tickers_path) ;;
        ret []
    | FileNotFound | Unreadable =>
        _ <- log ERROR "Error loading tickers" ;;
        ret []
    end
  else
    _ <- log WARNING "Tickers file not found, starting fresh" ;;
    ret [].

(** [save_tickers] of refresh.py: the file is opened for writing in place;
    an exception is logged and raised again. *)
Definition save_tickers (tickers : list string) (tickers_path : Path) : M unit :=
  try_except
    (_ <- with_file (open_w tickers_path)
            (fun handle => json_dump tickers handle) ;;
     log INFO ("Saved " +:+ py_str (Z.of_nat (length tickers)) +:+ " tickers to "
               +:+ snd tickers_path))
    (fun e =>
       _ <- log ERROR "Error saving tickers" ;;
       raise e).

(** The methods of [FMPMarketData] that return a ticker list, by name.
    The class defines no [__getattr__]; attribute names are case
    sensitive. *)
Definition FMPMarketData_method (name : string)
  : option (nat -> nat -> M (list string)) :=
  if String.eqb name "get_sp500_tickers" then Some get_sp500_tickers
  else if String.eqb name "get_commodity_tickers" then Some get_commodity_tickers
  else if String.eqb name "get_crypto_tickers"
       then Some (fun _ _ => get_crypto_tickers)
  else None.

(** [fmp.<name>()] *)
Definition call_method (name : string) (fuel : nat) (fmp : nat)
  : M (list string) :=
  match FMPMarketData_method name with
  | Some method => method fuel fmp
  | None => raise AttributeError
  end.

(** [combined = list(set(a) | set(b)); combined.sort()] *)
Definition sorted_union (a b : list string) : list string :=
  merge_sort String.leb
    (elements ((list_to_set a : gset string) ∪ list_to_set b)).

(** [fetch_and_merge_tickers] of refresh.py *)
Definition fetch_and_merge_tickers (fuel : nat) (fmp : nat)
    (existing_tickers : list string) : M (list string) :=
  try_except
    (sp500 <- call_method "get_SP500_tickers" fuel fmp ;;
     _ <- log INFO ("Fetched " +:+ py_str (Z.of_nat (length sp500))
                    +:+ " S&P 500 tickers from FMP") ;;
     commodity_tickers <- call_method "get_commodity_tickers" fuel fmp ;;
     _ <- log INFO ("Fetched " +:+ py_str (Z.of_nat (length commodity_tickers))
                    +:+ " commodity tickers from FMP") ;;
     crypto <- call_method "get_crypto_tickers" fuel fmp ;;
     _ <- log INFO ("Fetched " +:+ py_str (Z.of_nat (length crypto))
                    +:+ " crypto tickers from FMP") ;;
     let new_tickers := sp500 ++ commodity_tickers ++ crypto in
     _ <- log INFO ("Total new tickers fetched: "
                    +:+ py_str (Z.of_nat (length new_tickers))) ;;
     let combined := sorted_union existing_tickers new_tickers in
     _ <- log INFO ("Total unique tickers after merge: "
                    +:+ py_str (Z.of_nat (length combined))) ;;
     ret combined)
    (fun e =>
       _ <- log ERROR "Error fetching tickers" ;;
       raise e).

(** ** Exchanges of the selected tickers ([backfill_cli.py]) *)

(** The directory of backfill_cli.py, in the notation of
    [EXTRA_TICKERS_DIR]. *)
Definition SCRIPT_DIR : string := "orchestrator/backfill".

(** The directories searched, in order; [cwd] is [os.getcwd()]. *)
Definition candidate_dirs (cwd : string) : list string :=
  [ os_path_join (os_path_join SCRIPT_DIR "update") "extra_tickers";
    "orchestrator";                      (* abspath(script_dir/..) *)
    SCRIPT_DIR;
    cwd ].

Fixpoint first_file (dirs : list string) (filename : string) : M (option Path) :=
  match dirs with
  | [] => ret None
  | base :: rest =>
      present <- path_exists (base, filename) ;;
      if present then ret (Some (base, filename)) else first_file rest filename
  end.

Definition _resolve_ticker_file (cwd : string) (filename : string) : M Path :=
  found <- first_file (candidate_dirs cwd) filename ;;
  match found with
  | Some path => ret path
  | None => raise OSError   (* FileNotFoundError *)
  end.

(** [[str(t).strip().upper() for t in data if str(t).strip()]]; the
    arrays of the file model hold strings, for which [str(t)] is [t]. *)
Definition clean_tickers (data : list string) : list string :=
  map (fun t => str_upper (str_strip t)) (List.filter strip_nonempty data).

(** [_load_tickers_file].  A file of the model holds an array or nothing,
    so the test [isinstance(data, list)] passes whenever the file could
    be decoded. *)
Definition _load_tickers_file (path : Path) (label : string)
  : M (exit_or (list string)) :=
  r <- json_load_file path ;;
  match r with
  | FileNotFound =>
      _ <- log ERROR ("[EXCHANGE]: Missing " +:+ label +:+ " file") ;;
      ret (Exit 1)
  | InvalidJSON =>
      _ <- log ERROR ("[EXCHANGE]: Invalid JSON in " +:+ label +:+ " file") ;;
      ret (Exit 1)
  | Unreadable =>
      _ <- log ERROR ("[EXCHANGE]: Could not read " +:+ label +:+ " file") ;;
      ret (Exit 1)
  | Loaded data => ret (Done (clean_tickers data))
  end.

(** Sequencing of calls that may exit. *)
Definition bind_exit {A B} (c : M (exit_or A)) (k : A -> M (exit_or B))
  : M (exit_or B) :=
  r <- c ;;
  match r with
  | Exit code => ret (Exit code)
  | Done a => k a
  end.

Record ticker_lists : Type := mkLists {
  my_tickers : list string;
  crypto_tickers : list string;
  sp500_tickers : list string;
  commodity_tickers : list string;
  nasdaq_tickers : list string
}.

Definition _load_all_ticker_lists (cwd : string) : M (exit_or ticker_lists) :=
  ticker_file_path <- _resolve_ticker_file cwd "tickers.json" ;;
  crypto_ticker_file_path <- _resolve_ticker_file cwd "crypto_tickers.json" ;;
  sp500_ticker_file_path <- _resolve_ticker_file cwd "sp500_tickers.json" ;;
  commodity_ticker_file_path <- _resolve_ticker_file cwd "commodity_tickers.json" ;;
  nasdaq_ticker_file_path <- _resolve_ticker_file cwd "nasdaq_tickers.json" ;;
  bind_exit (_load_tickers_file ticker_file_path "default tickers") (fun my =>
  bind_exit (_load_tickers_file crypto_ticker_file_path "crypto tickers") (fun crypto =>
  bind_exit (_load_tickers_file sp500_ticker_file_path "sp500 tickers") (fun sp500 =>
  bind_exit (_load_tickers_file commodity_ticker_file_path "commodity tickers")
    (fun commodity =>
  bind_exit (_load_tickers_file nasdaq_ticker_file_path "nasdaq tickers")
    (fun nasdaq =>
  ret (Done (mkLists my crypto sp500 commodity nasdaq))))))).

Definition _build_exchange_sets (cwd : string)
  : M (exit_or (gmap string (gset string))) :=
  bind_exit (_load_all_ticker_lists cwd) (fun lists =>
  ret (Done (<["nasdaq" := list_to_set (nasdaq_tickers lists)]>
            (<["sp500" := list_to_set (sp500_tickers lists)]>
            (<["commodity" := list_to_set (commodity_tickers lists)]>
            (<["crypto" := list_to_set (crypto_tickers lists)]> ∅)))))).

(** [exchange_sets[key]] *)
Definition exchange_set (key : string) (exchange_sets : gmap string (gset string))
  : pyres (gset string) :=
  match exchange_sets !! key with
  | Some s => inr s
  | None => inl KeyError
  end.

Definition _identify_exchange_for_ticker (ticker : string)
    (exchange_sets : gmap string (gset string)) : pyres string :=
  let symbol := str_upper ticker in
  pybind (exchange_set "crypto" exchange_sets) (fun crypto =>
  if bool_decide (symbol ∈ crypto) then inr "crypto" else
  pybind (exchange_set "commodity" exchange_sets) (fun commodity =>
  if bool_decide (symbol ∈ commodity) then inr "commodity" else
  pybind (exchange_set "sp500" exchange_sets) (fun sp500 =>
  if bool_decide (symbol ∈ sp500) then inr "sp500" else
  pybind (exchange_set "nasdaq" exchange_sets) (fun nasdaq =>
  if bool_decide (symbol ∈ nasdaq) then inr "nasdaq" else
  inr "nasdaq")))).

(** The dict comprehension of [_build_exchange_map]: a later ticker with
    the same upper-case form overwrites the entry of an earlier one. *)
Fixpoint exchange_map_of (selected_tickers : list string)
    (exchange_sets : gmap string (gset string)) (acc : gmap string string)
  : pyres (gmap string string) :=
  match selected_tickers with
  | [] => inr acc
  | ticker :: rest =>
      pybind (_identify_exchange_for_ticker ticker exchange_sets) (fun ex =>
      exchange_map_of rest exchange_sets (<[str_upper ticker := ex]> acc))
  end.

Definition _build_exchange_map (cwd : string) (selected_tickers : list string)
  : M (exit_or (gmap string string)) :=
  bind_exit (_build_exchange_sets cwd) (fun exchange_sets =>
  m <- lift (exchange_map_of selected_tickers exchange_sets ∅) ;;
  ret (Done m)).

(** ** Specification vocabulary *)

(** [spec I strict c]: [c] preserves the invariant [I] whatever its
    outcome and, when [strict], does not hang from a state in [I]. *)
Definition spec (I : World -> Prop) (strict : bool) {A} (c : M A) : Prop :=
  forall w, I w -> I (snd (c w)) /\ (strict = true -> fst (c w) <> Hang).

(** Events of the request layer of [FMPMarketData]. *)
Definition request_event (e : event) : bool :=
  match e with
  | EvGet _ _ | EvSleep _ => true
  | EvLog _ msg =>
      String.prefix "[FMP API]" msg || String.prefix "[Internet]" msg
      || String.prefix "[RateLimiter]" msg
  | _ => false
  end.

(** Every instance holds at most [MAX_REQUESTS_PER_MIN] timestamps. *)
Definition lim_ok (w : World) : Prop :=
  Forall (fun c => Z.of_nat (length (request_timestamps c))
                   <= RateLimiter.MAX_REQUESTS_PER_MIN) (clients w).

(** Loops are granted enough iterations. *)
Definition enough (fuel : nat) : Prop :=
  RateLimiter.MAX_REQUESTS_PER_MIN < Z.of_nat fuel.

(** Invariants that the request layer cannot break: it moves the clock,
    counts requests, emits its own events and replaces the timestamps of
    an instance by a list within the limit or no longer than before. *)
Record request_stable (I : World -> Prop) : Prop := mkStable {
  stable_clock : forall w x, I w -> I (set_clock x w);
  stable_http : forall w x, I w -> I (set_http_calls x w);
  stable_emit : forall w e, request_event e = true -> I w -> I (emit e w);
  stable_store : forall w self ts,
    I w ->
    Z.of_nat (length ts) <= RateLimiter.MAX_REQUESTS_PER_MIN \/
    (length ts <= length (timestamps_of self w))%nat ->
    I (set_clients
         (alter (fun c => mkClient (fmp_api_key c) ts) self (clients w)) w)
}.

(** The log line that opens every batch of [backfill_data]. *)
Definition is_fetching_log (e : event) : bool :=
  match e with
  | EvLog INFO msg => String.prefix "[Backfill] Fetching " msg
  | _ => false
  end.


(** Invariants that one attempt on a batch cannot break: beyond the
    request layer it emits events other than the batch-opening line and
    changes the cache at the output path only. *)
Record backfill_stable (out : option string) (I : World -> Prop) : Prop :=
  mkBackfillStable {
  b_clock : forall w x, I w -> I (set_clock x w);
  b_http : forall w x, I w -> I (set_http_calls x w);
  b_emit : forall w e, is_fetching_log e = false -> I w -> I (emit e w);
  b_store : forall w self ts,
    I w ->
    Z.of_nat (length ts) <= RateLimiter.MAX_REQUESTS_PER_MIN \/
    (length ts <= length (timestamps_of self w))%nat ->
    I (set_clients
         (alter (fun c => mkClient (fmp_api_key c) ts) self (clients w)) w);
  b_cache : forall w x,
    I w -> (forall q, out <> Some q -> x !! q = cache_files w !! q) ->
    I (set_cache_files x w)
}.


(** The cell conversions used in worked examples: a timestamp is kept as
    the text the provider sends, whose first ten characters are the
    date. *)
Definition parse_text (v : json) : option json :=
  match v with
  | JStr _ => Some v
  | _ => None
  end.

Definition date_prefix (v : json) : json :=
  match v with
  | JStr s => JStr (substring 0 10 s)
  | _ => v
  end.

(** An environment for worked examples. *)
Definition scenario (net : nat -> http_outcome) (faults : nat -> bool)
    (feed : pyres (list json)) (capacity : Z) : Env :=
  {| network := net; io_fault := faults; tmp_token := fun _ => "k3x9";
     api_key_setting := Some "demo"; crypto_feed := feed;
     float_of_string := fun _ => None; to_datetime := parse_text;
     dt_date := date_prefix; pool_capacity := capacity |}.

Definition no_faults : nat -> bool := fun _ => false.

(** A number of iterations that is [enough]. *)
Definition plenty : nat := 3001.


(** A payload whose records lack the bar fields, and a regular bar. *)
Definition malformed_payload : json := JList [JDict [("note", JStr "n/a")]].

Definition bar_at (stamp : string) : json :=
  JDict [("date", JStr stamp); ("open", JNum 10); ("high", JNum 12);
         ("low", JNum 9); ("close", JNum 11); ("volume", JNum 500)].

(** A provider that answers the first two requests with records lacking
    the bar fields and every later one with a bar. *)
Definition two_bad_answers (n : nat) : http_outcome :=
  if (n <? 2)%nat then Response 200 (Some malformed_payload)
  else Response 200 (Some (JList [bar_at "2024-01-05 09:30:00"])).

(** The process right after one [FMPMarketData()]. *)
Definition one_client (e : Env) : World :=
  snd (FMPMarketData_init (boot e ∅ ∅)).

(** The network is down for the request, and the connectivity probe then
    stalls until its own timeout. *)
Definition offline_then_stalled (n : nat) : http_outcome :=
  match n with
  | O => Fails ConnectionError
  | _ => Fails ReadTimeout
  end.

(** The n-th file-system call of the process fails. *)
Definition fault_at (k : nat) : nat -> bool := fun n => Nat.eqb n k.

Definition always (r : http_outcome) : nat -> http_outcome := fun _ => r.

Definition io_events (evs : list event) : list (io_op * bool) :=
  omap (fun e => match e with EvIO op ok => Some (op, ok) | _ => None end) evs.

Definition is_get (e : event) : bool :=
  match e with
  | EvGet _ _ => true
  | _ => false
  end.

Definition prints (evs : list event) : list string :=
  omap (fun e => match e with EvPrint msg => Some msg | _ => None end) evs.

(** Every failure of the network is a connection error (refused,
    unreachable, or a connect timeout). *)
Definition calm (e : Env) : Prop :=
  forall n x, network e n = Fails x -> isinstance x Cls_ConnectionError = true.

(** The provider never answers 200. *)
Definition never_ok (e : Env) : Prop :=
  forall n status_code body,
    network e n = Response status_code body -> status_code <> 200.

(** A provider that answers every request with one bar, or with an empty
    list. *)
Definition one_bar : nat -> http_outcome :=
  always (Response 200 (Some (JList [bar_at "2024-01-05 09:30:00"]))).

Definition no_bars : nat -> http_outcome :=
  always (Response 200 (Some (JList []))).

(** Rows left in the sink by an earlier run. *)
Definition stale_rows : list csv_line :=
  [Header column_order;
   Line [JStr "AAPL"; JStr "2023-12-29"; JStr "2023-12-29 15:55:00";
         JNum 1; JNum 1; JNum 1; JNum 1; JNum 1]].

(** Invariants that a whole run of [backfill_data] cannot break: any
    event, a new instance of the client, rows put into the table. *)
Record run_stable (out : option string) (I : World -> Prop) : Prop :=
  mkRunStable {
  r_batch : backfill_stable out I;
  r_emit : forall w e, I w -> I (emit e w);
  r_init : forall w k,
    I w -> I (set_clients (clients w ++ [mkClient k []]) w);
  r_table : forall w table,
    I w ->
    I (set_db (mkDatabase table (leased (db w)) (pools_open (db w))
                          (pools_closed (db w))) w)
}.

(** The cache is as in [m0] everywhere but at [path]. *)
Definition frame_inv (path : string) (m0 : gmap string (list csv_line))
    (w : World) : Prop :=
  forall q, q <> path -> cache_files w !! q = m0 !! q.

(** The resolved output path of a call, if it has one. *)
Definition resolved_path (tickers : list string) (start_date end_date : date)
    (interval : Z) (exchange : option string) (output_filename : option string)
  : option string :=
  match output_filename with
  | Some _ => Some (generate_output_filename tickers start_date end_date
                      interval exchange output_filename)
  | None => None
  end.

(** What holds between the steps of a concurrent run: the limiter bound,
    the environment, [n] connections out of the pool, the pools opened
    and closed so far, and the events the run started from. *)
Definition conc_inv (e : Env) (before : list event) (n opened closed : Z)
    (w : World) : Prop :=
  lim_ok w /\ env w = e /\ leased (db w) = n /\
  pools_open (db w) = opened /\ pools_closed (db w) = closed /\
  exists since, events w = before ++ since.


Definition request_inv (e : Env) (w : World) : Prop :=
  env w = e /\ lim_ok w.

(** The lines a concurrent run prints first and last. *)
Definition opening_prints (tickers : list string) (start_date end_date : date)
    (interval threads : Z) : list event :=
  [EvPrint ("[ConcurrentBackfill] Starting concurrency for "
            +:+ py_str (Z.of_nat (length tickers)) +:+ " tickers.");
   EvPrint ("  Date range: " +:+ strftime "-" start_date +:+ " to "
            +:+ strftime "-" end_date +:+ ", interval="
            +:+ py_str interval +:+ " min");
   EvPrint ("  Using up to " +:+ py_str threads +:+ " threads.")].

Definition closing_print : event :=
  EvPrint "[ConcurrentBackfill] All threads completed. Closing connection pool.".

(** ** Vocabulary of the further properties *)

(** The durations slept, in order. *)
Definition sleeps (evs : list event) : list Q :=
  omap (fun e => match e with EvSleep s => Some s | _ => None end) evs.

(** Requests addressed to one URL. *)
Definition is_get_to (url : string) (e : event) : bool :=
  match e with
  | EvGet u _ => String.eqb u url
  | _ => false
  end.

Definition gets_to (url : string) (evs : list event) : nat :=
  length (List.filter (is_get_to url) evs).

(** The instants read by the checks of a schedule, in order. *)
Definition check_times (schedule : list RateLimiter.action) : list Q :=
  omap (fun a => match a with
                 | RateLimiter.Check _ current_time => Some current_time
                 | _ => None
                 end) schedule.


(** [w'] differs from [w] at most by the clock, the timestamps of the
    instances and events that are not requests. *)
Definition only_waited (w w' : World) : Prop :=
  env w' = env w /\ http_calls w' = http_calls w /\ io_calls w' = io_calls w /\
  side_files w' = side_files w /\ cache_files w' = cache_files w /\
  db w' = db w /\
  List.filter is_get (events w') = List.filter is_get (events w).

(** The process after [time.sleep(seconds)]. *)
Definition slept (seconds : Q) (w : World) : World :=
  emit (EvSleep seconds) (set_clock (clock w + seconds)%Q w).

(** An outcome of a request after which [_make_request] goes on to its
    next attempt without probing the connection: a status other than
    200, a body that is not JSON, a timeout, or another request error
    that is not a connection error. *)
Definition retried (o : http_outcome) : bool :=
  match o with
  | Response status_code body =>
      negb (status_code =? 200) || negb (bool_decide (is_Some body))
  | Fails e =>
      isinstance e Cls_Timeout
      || (isinstance e Cls_RequestException
          && negb (isinstance e Cls_ConnectionError))
  end.

(** Requests other than the connectivity probes. *)
Definition is_probe (e : event) : bool := is_get_to "https://www.google.com" e.

Definition requests_made (evs : list event) : nat :=
  length (List.filter (fun e => is_get e && negb (is_probe e)) evs).

(** A provider that answers the first two requests with a timeout and an
    error status, and the third with a quote. *)
Definition third_time_lucky (n : nat) : http_outcome :=
  match n with
  | 0%nat => Fails ReadTimeout
  | 1%nat => Response 503 None
  | _ => Response 200 (Some (JList [JDict [("symbol", JStr "AAPL");
                                           ("price", JNum 187)]]))
  end.

(** [c] makes at most [n] requests that are not connectivity probes,
    whatever its outcome. *)
Definition costs {A} (c : M A) (n : nat) : Prop :=
  forall w, (requests_made (events (snd (c w))) <= requests_made (events w) + n)%nat.

(** The network is down throughout. *)
Definition offline : nat -> http_outcome := always (Fails ConnectionError).

(** The provider answers every request with 429 Too Many Requests. *)
Definition throttled : nat -> http_outcome := always (Response 429 None).

(** A multi-ticker answer of the daily endpoint. *)
Definition two_stock_payload : list json :=
  [JDict [("symbol", JStr "AAPL");
          ("historical", JList [JDict [("date", JStr "2024-01-02"); ("close", JNum 185)];
                                JDict [("date", JStr "2024-01-03"); ("close", JNum 184)]])];
   JDict [("symbol", JStr "MSFT");
          ("historical", JList [JDict [("date", JStr "2024-01-02"); ("close", JNum 370)]])]].

(** The value of [ticker.get("symbol")] when it is a string. *)
Definition text_symbol (ticker : json) : option string :=
  match ticker with
  | JDict fields =>
      match dict_get "symbol" fields with
      | Some (JStr s) => Some s
      | _ => None
      end
  | _ => None
  end.


(** Formatted crypto records with a repeated symbol. *)
Definition crypto_records : list json :=
  [JDict [("symbol", JStr "BTCUSD"); ("price", JNum 60000)];
   JDict [("symbol", JStr "ETHUSD"); ("price", JNum 3000)];
   JDict [("symbol", JStr "BTCUSD"); ("price", JNum 60001)]].

(** Invariants that the fetching part of a run cannot break: what one
    batch may do, any event, a new instance of the client. *)
Record fetch_stable (out : option string) (I : World -> Prop) : Prop :=
  mkFetchStable {
  f_batch : backfill_stable out I;
  f_emit : forall w e, I w -> I (emit e w);
  f_init : forall w k,
    I w -> I (set_clients (clients w ++ [mkClient k []]) w)
}.

(** A frame as [prepare_data] returns it: the eight columns in order and
    at least one row. *)
Definition prepared (df : DataFrame) : Prop :=
  columns df = column_order /\ rows df <> [].

(** ** Crypto records and ticker files

    A record as [format_for_fmp] builds it: the four fields in order,
    under "symbol" a string that is not blank, under "change" a value
    that is truthy or the integer 0. *)
Definition fmp_record (t : json) : Prop :=
  exists s price change volume,
    t = JDict [("symbol", JStr s); ("price", price); ("change", change);
               ("volume", volume)] /\
    strip_nonempty s = true /\
    (change = JNum 0 \/ truthy change = true).

(** A record whose symbol is the fallback [f"{base}USD"]. *)
Definition fallback_record (t : json) : Prop :=
  exists base,
    text_symbol t = Some (base +:+ "USD") /\ base <> "" /\
    Forall (fun c => is_upper_alnum c = true) (list_ascii_of_string base).

(** A row that [build_reference_index] files: an object whose "symbol"
    is a string that is not blank. *)
Definition indexed_row (row : json) : Prop :=
  exists fields text,
    row = JDict fields /\ dict_get "symbol" fields = Some (JStr text) /\
    strip_nonempty text = true.

Definition index_ok (index : reference_index) : Prop :=
  (forall k row, fst index !! k = Some row -> indexed_row row) /\
  (forall k rows, snd index !! k = Some rows -> Forall indexed_row rows).

(** Coins as CoinGecko lists them, and a reference list in FMP style. *)
Definition coins_sample : list json :=
  [JDict [("symbol", JStr "btc"); ("current_price", JNum 60000);
          ("price_change_24h", JNum (-12)); ("total_volume", JNum 1000)];
   JDict [("symbol", JStr " eth "); ("current_price", JNum 3000)];
   JDict [("symbol", JStr "  ")];
   JDict [("symbol", JStr "$$")];
   JDict [("symbol", JStr "usdt"); ("price_change_24h", JNum 0)]].

Definition reference_sample : list json :=
  [JDict [("symbol", JStr "ethusd"); ("name", JStr "Ethereum USD")];
   JDict [("symbol", JStr " btc-usd ")]].

(** Two pages of the markets endpoint, then an error status. *)
Definition two_pages (n : nat) : http_outcome :=
  match n with
  | 0%nat => Response 200 (Some (JList [JDict [("symbol", JStr "btc")];
                                          JDict [("symbol", JStr "eth")]]))
  | 1%nat => Response 200 (Some (JList [JDict [("symbol", JStr "sol")]]))
  | _ => Response 429 None
  end.


Definition exchange_names : list string :=
  ["crypto"; "commodity"; "sp500"; "nasdaq"].

(** The dict of [_build_exchange_sets] has its four keys. *)
Definition four_sets (exchange_sets : gmap string (gset string)) : Prop :=
  Forall (fun key => is_Some (exchange_sets !! key)) exchange_names.


(** Ticker files as a checkout has them after the universe fetches. *)
Definition ticker_files : gmap Path file :=
  {[ ("orchestrator/backfill", "tickers.json")
       := mkFile (JsonArray ["AAPL"; "BTCUSD"]) None;
     (EXTRA_TICKERS_DIR, "crypto_tickers.json")
       := mkFile (JsonArray ["BTCUSD"; " ethusd "]) None;
     (EXTRA_TICKERS_DIR, "sp500_tickers.json")
       := mkFile (JsonArray ["AAPL"; "MSFT"]) None;
     (EXTRA_TICKERS_DIR, "commodity_tickers.json")
       := mkFile (JsonArray ["GCUSD"]) None;
     (EXTRA_TICKERS_DIR, "nasdaq_tickers.json")
       := mkFile (JsonArray ["AAPL"; "TSLA"]) None ]}.

(* ===================================================================== *)
(** * Properties *)
(* ===================================================================== *)

Lemma Qltb_lt (x y : Q) : Qltb x y = true <-> (x < y)%Q.
Proof.
  unfold Qltb. rewrite negb_true_iff. split.
  - intros H. apply Qnot_le_lt. intros Hle.
    apply Qle_bool_iff in Hle. congruence.
  - intros H. destruct (Qle_bool y x) eqn:E; [|reflexivity].
    apply Qle_bool_iff in E. exfalso. revert E. apply Qlt_not_le. exact H.
Qed.

Lemma Qltb_ge (x y : Q) : Qltb x y = false <-> (y <= x)%Q.
Proof.
  unfold Qltb. rewrite negb_false_iff. apply Qle_bool_iff.
Qed.

(** ** The rate limiter *)

Section RateLimiterFacts.
Import RateLimiter.

Lemma purge_all_in_window now ts t :
  In t (purge now ts) -> in_window now t = true.
Proof. unfold purge. rewrite filter_In. tauto. Qed.

Lemma purge_idem now ts : purge now (purge now ts) = purge now ts.
Proof.
  unfold purge. induction ts as [|t ts IH]; simpl; [reflexivity|].
  destruct (in_window now t) eqn:E; simpl; rewrite ?E, IH; reflexivity.
Qed.

Lemma in_window_self now : in_window now now = true.
Proof.
  unfold in_window, LOCK_WINDOW_SECONDS. apply Qltb_lt. lra.
Qed.

Lemma purge_app now ts us : purge now (ts ++ us) = purge now ts ++ purge now us.
Proof. unfold purge. apply List.filter_app. Qed.

Lemma purge_length_le now ts : (length (purge now ts) <= length ts)%nat.
Proof.
  unfold purge. induction ts as [|t ts IH]; simpl; [lia|].
  destruct (in_window now t); simpl; lia.
Qed.

(** A reserved slot leaves at most [MAX_REQUESTS_PER_MIN] timestamps, all
    of them in the window of the instant read under the lock, the new one
    included. *)
Lemma critical_section_reserved now ts ts' :
  critical_section now ts = Reserved ts' ->
  ts' = purge now ts ++ [now] /\
  count_in_window now ts < MAX_REQUESTS_PER_MIN /\
  count_in_window now ts' = count_in_window now ts + 1 /\
  count_in_window now ts' <= MAX_REQUESTS_PER_MIN.
Proof.
  unfold critical_section, count_in_window. intros H.
  destruct (Z.of_nat (length (purge now ts)) <? MAX_REQUESTS_PER_MIN) eqn:E.
  - injection H as <-. apply Z.ltb_lt in E.
    rewrite purge_app, purge_idem. simpl. rewrite in_window_self.
    rewrite length_app. simpl. repeat split; lia.
  - destruct (purge now ts); discriminate.
Qed.

Lemma critical_section_full now ts :
  MAX_REQUESTS_PER_MIN <= count_in_window now ts ->
  exists oldest rest,
    purge now ts = oldest :: rest /\
    critical_section now ts =
      MustWait (purge now ts) (LOCK_WINDOW_SECONDS - (now - oldest)).
Proof.
  unfold critical_section, count_in_window. intros H.
  destruct (Z.of_nat (length (purge now ts)) <? MAX_REQUESTS_PER_MIN) eqn:E.
  - apply Z.ltb_lt in E. lia.
  - destruct (purge now ts) as [|oldest rest] eqn:Ep.
    + unfold MAX_REQUESTS_PER_MIN in H. simpl in H. lia.
    + exists oldest, rest. split; reflexivity.
Qed.

(** The wait computed for a full window is strictly positive: the oldest
    kept timestamp is still inside the window. *)
Lemma critical_section_wait_positive now ts ts' w :
  critical_section now ts = MustWait ts' w -> (0 < w)%Q.
Proof.
  unfold critical_section. intros H.
  destruct (Z.of_nat (length (purge now ts)) <? MAX_REQUESTS_PER_MIN);
    [discriminate|].
  destruct (purge now ts) as [|oldest rest] eqn:Ep; [discriminate|].
  injection H as _ <-.
  assert (Hin : In oldest (purge now ts)) by (rewrite Ep; left; reflexivity).
  apply purge_all_in_window in Hin. unfold in_window in Hin.
  apply Qltb_lt in Hin. unfold LOCK_WINDOW_SECONDS in *. lra.
Qed.

Lemma exec_lock_inv s a s' :
  lock_inv s -> exec s a = Some s' -> lock_inv s'.
Proof.
  unfold lock_inv. intros Inv H.
  destruct a as [t|t|t now|t]; simpl in H.
  - assert (Hn : threads s !! t <> Some InLock)
      by (destruct (threads s !! t) as [[]|]; congruence).
    assert (s' = set_pc t WantLock s)
      by (destruct (threads s !! t) as [[]|]; congruence).
    subst s'. intros u. simpl. rewrite Inv.
    destruct (decide (t = u)) as [->|Hne].
    + rewrite lookup_insert_eq. split; [contradiction | discriminate].
    + rewrite lookup_insert_ne by exact Hne. reflexivity.
  - destruct (threads s !! t) as [[]|] eqn:Et; try discriminate.
    destruct (lock_holder s) eqn:El; [discriminate|].
    injection H as <-. intros u. simpl.
    destruct (decide (t = u)) as [->|Hne].
    + rewrite lookup_insert_eq. tauto.
    + rewrite lookup_insert_ne by exact Hne. specialize (Inv u).
      split; [intros [= ->]; contradiction | intros Hu; apply Inv in Hu; discriminate].
  - destruct (threads s !! t) as [[]|] eqn:Et; try discriminate.
    assert (Hh : lock_holder s = Some t) by (apply Inv; exact Et).
    assert (Hs : lock_holder s' = None /\
                 exists p, p <> InLock /\ threads s' = <[t := p]> (threads s)).
    { destruct (critical_section now (request_timestamps s));
        injection H as <-; simpl; (split; [reflexivity|]);
        eexists; (split; [|reflexivity]); discriminate. }
    destruct Hs as [Hl [p [Hp Ht]]]. intros u. rewrite Hl, Ht.
    destruct (decide (t = u)) as [->|Hne].
    + rewrite lookup_insert_eq. split; congruence.
    + rewrite lookup_insert_ne by exact Hne. rewrite <- Inv, Hh.
      split; congruence.
  - destruct (threads s !! t) as [[]|] eqn:Et; try discriminate.
    injection H as <-. intros u. simpl. rewrite Inv.
    destruct (decide (t = u)) as [->|Hne].
    + rewrite lookup_insert_eq, Et. split; discriminate.
    + rewrite lookup_insert_ne by exact Hne. reflexivity.
Qed.

Lemma run_lock_inv schedule : forall s s',
  lock_inv s -> run s schedule = Some s' -> lock_inv s'.
Proof.
  induction schedule as [|a rest IH]; simpl; intros s s' Inv H.
  - injection H as <-. exact Inv.
  - destruct (exec s a) as [s1|] eqn:E; [|discriminate].
    eapply IH; [|exact H]. eapply exec_lock_inv; eauto.
Qed.

Lemma initial_lock_inv ts : lock_inv (initial ts).
Proof.
  intros t. simpl. rewrite lookup_empty. split; discriminate.
Qed.

(** C1. For every schedule of interleaved [_check_rate_limit] calls on one
    shared instance, the check of a thread runs under the lock it holds;
    the call returns at that check only when the requests recorded within
    the trailing 60 s window of the instant read number fewer than
    [MAX_REQUESTS_PER_MIN], and the list then holds the caller's own
    timestamp and at most 3000 timestamps of that window.  A check that
    finds the window full appends nothing, releases the lock, sleeps the
    positive time [60 - (now - oldest)] and can only go back to take the
    lock and run the whole purge-and-check again. *)
Theorem check_rate_limit_window_bound
    (ts0 : list Q) (schedule : list action) (s1 s2 : limiter)
    (t : nat) (now : Q) :
  run (initial ts0) schedule = Some s1 ->
  exec s1 (Check t now) = Some s2 ->
  lock_holder s1 = Some t /\ lock_holder s2 = None /\
  (forall at_time, threads s2 !! t = Some (Returned at_time) ->
     at_time = now /\
     count_in_window now (request_timestamps s1) < MAX_REQUESTS_PER_MIN /\
     In now (request_timestamps s2) /\
     count_in_window now (request_timestamps s2) <= MAX_REQUESTS_PER_MIN /\
     count_in_window now (request_timestamps s2)
       = Z.of_nat (length (request_timestamps s2))) /\
  (MAX_REQUESTS_PER_MIN <= count_in_window now (request_timestamps s1) ->
     exists oldest rest,
       purge now (request_timestamps s1) = oldest :: rest /\
       threads s2 !! t
         = Some (Sleeping (LOCK_WINDOW_SECONDS - (now - oldest))) /\
       (0 < LOCK_WINDOW_SECONDS - (now - oldest))%Q /\
       request_timestamps s2 = purge now (request_timestamps s1) /\
       exec s2 (Wake t) = Some (set_pc t WantLock s2) /\
       exec s2 (Check t now) = None).
Proof.
  intros Hrun Hexec.
  assert (Inv : lock_inv s1)
    by (eapply run_lock_inv; [apply initial_lock_inv | exact Hrun]).
  simpl in Hexec.
  destruct (threads s1 !! t) as [[]|] eqn:Et; try discriminate.
  assert (Hh : lock_holder s1 = Some t) by (apply Inv; exact Et).
  split; [exact Hh|].
  destruct (critical_section now (request_timestamps s1)) as [ts'|ts' w|ts']
    eqn:Ec; injection Hexec as <-; simpl; (split; [reflexivity|]).
  - apply critical_section_reserved in Ec.
    destruct Ec as (-> & Hlt & Hcnt & Hle). split.
    + rewrite lookup_insert_eq. intros at_time [= <-].
      repeat split; try assumption.
      * apply in_or_app. right. left. reflexivity.
      * unfold count_in_window. rewrite purge_app, purge_idem. simpl.
        rewrite in_window_self. reflexivity.
    + intros Hfull. lia.
  - split.
    + rewrite lookup_insert_eq. discriminate.
    + intros Hfull. destruct (critical_section_full _ _ Hfull)
        as (oldest & rest & Hp & Hc).
      rewrite Hc in Ec. injection Ec as <- <-.
      exists oldest, rest. rewrite lookup_insert_eq.
      repeat split; try assumption.
      * eapply critical_section_wait_positive. exact Hc.
  - split.
    + rewrite lookup_insert_eq. discriminate.
    + intros Hfull. destruct (critical_section_full _ _ Hfull)
        as (oldest & rest & Hp & Hc). congruence.
Qed.

Lemma check_rate_limit_window_bound_witness :
  let s1 := {| request_timestamps := [(1 # 2)%Q]; lock_holder := Some 7%nat;
               threads := <[7%nat := InLock]> (<[7%nat := WantLock]> ∅) |} in
  let s2 := {| request_timestamps := [(1 # 2)%Q; 5%Q]; lock_holder := None;
               threads := <[7%nat := Returned 5%Q]> (threads s1) |} in
  run (initial [(1 # 2)%Q]) [Call 7%nat; Enter 7%nat] = Some s1 /\
  exec s1 (Check 7%nat 5%Q) = Some s2 /\
  lock_holder s1 = Some 7%nat /\ lock_holder s2 = None /\
  (forall at_time, threads s2 !! 7%nat = Some (Returned at_time) ->
     at_time = 5%Q /\
     count_in_window 5%Q (request_timestamps s1) < MAX_REQUESTS_PER_MIN /\
     In 5%Q (request_timestamps s2) /\
     count_in_window 5%Q (request_timestamps s2) <= MAX_REQUESTS_PER_MIN /\
     count_in_window 5%Q (request_timestamps s2)
       = Z.of_nat (length (request_timestamps s2))) /\
  (MAX_REQUESTS_PER_MIN <= count_in_window 5%Q (request_timestamps s1) ->
     exists oldest rest,
       purge 5%Q (request_timestamps s1) = oldest :: rest /\
       threads s2 !! 7%nat
         = Some (Sleeping (LOCK_WINDOW_SECONDS - (5%Q - oldest))) /\
       (0 < LOCK_WINDOW_SECONDS - (5%Q - oldest))%Q /\
       request_timestamps s2 = purge 5%Q (request_timestamps s1) /\
       exec s2 (Wake 7%nat) = Some (set_pc 7%nat WantLock s2) /\
       exec s2 (Check 7%nat 5%Q) = None).
Proof.
  intros s1 s2.
  assert (H1 : run (initial [(1 # 2)%Q]) [Call 7%nat; Enter 7%nat] = Some s1)
    by reflexivity.
  assert (H2 : exec s1 (Check 7%nat 5%Q) = Some s2) by reflexivity.
  split; [exact H1|]. split; [exact H2|].
  exact (check_rate_limit_window_bound _ _ _ _ _ _ H1 H2).
Defined.

End RateLimiterFacts.

(** ** The batch planner *)

Lemma seqZ_sorted (len : nat) : forall m : Z,
  StronglySorted Z.lt (seqZ m (Z.of_nat len)).
Proof.
  induction len as [|len IH]; intros m.
  - rewrite seqZ_nil by lia. constructor.
  - rewrite seqZ_cons by lia.
    replace (Z.pred (Z.of_nat (S len))) with (Z.of_nat len) by lia.
    constructor; [apply IH|].
    apply Forall_seqZ. intros; lia.
Qed.

Lemma filter_sorted (f : Z -> bool) (l : list Z) :
  StronglySorted Z.lt l -> StronglySorted Z.lt (List.filter f l).
Proof.
  induction 1 as [|x l Hs IH Hx]; simpl; [constructor|].
  destruct (f x); [|exact IH].
  constructor; [exact IH|].
  rewrite List.Forall_forall in *. intros y Hy.
  apply filter_In in Hy. apply Hx. tauto.
Qed.

Lemma bdate_range_sorted (start_date end_date : date) :
  StronglySorted Z.lt (bdate_range start_date end_date).
Proof.
  unfold bdate_range. apply filter_sorted.
  destruct (Z_le_gt_dec 0 (end_date - start_date + 1)) as [Hle|Hgt].
  - rewrite <- (Z2Nat.id _ Hle). apply seqZ_sorted.
  - rewrite seqZ_nil by lia. constructor.
Qed.

Lemma bdate_range_spec (start_date end_date d : date) :
  In d (bdate_range start_date end_date) <->
  start_date <= d <= end_date /\ weekday d < 5.
Proof.
  unfold bdate_range. rewrite filter_In, <- list_elem_of_In, elem_of_seqZ.
  rewrite Z.ltb_lt. split; intros [H1 H2]; (split; [lia | exact H2]).
Qed.

Lemma concat_slices {A} (l : list A) (step n : nat) :
  concat (map (fun i => py_slice l i (i + step))
              (map (fun k => (k * step)%nat) (seq 0 n)))
  = take (n * step) l.
Proof.
  induction n as [|n IH].
  - reflexivity.
  - rewrite seq_S, !map_app, concat_app, IH. simpl.
    rewrite app_nil_r. unfold py_slice.
    replace (n * step + step - n * step)%nat with step by lia.
    rewrite take_take_drop. f_equal. lia.
Qed.

Lemma range0_covers (stop : nat) :
  (stop <= (stop + BATCH_DAYS - 1) / BATCH_DAYS * BATCH_DAYS)%nat.
Proof.
  unfold BATCH_DAYS.
  pose proof (Nat.div_mod (stop + 3 - 1) 3 ltac:(lia)) as H.
  pose proof (Nat.mod_upper_bound (stop + 3 - 1) 3 ltac:(lia)). lia.
Qed.

Lemma group_dates_concat (all_dates : list date) :
  concat (group_dates all_dates) = all_dates.
Proof.
  unfold group_dates, py_range0. rewrite concat_slices.
  apply take_ge. apply range0_covers.
Qed.

Lemma group_dates_sizes (all_dates : list date) :
  Forall (fun chunk => (1 <= length chunk <= BATCH_DAYS)%nat)
         (group_dates all_dates).
Proof.
  unfold group_dates, py_range0. rewrite List.Forall_forall.
  intros chunk Hin. rewrite in_map_iff in Hin.
  destruct Hin as (i & <- & Hi). rewrite in_map_iff in Hi.
  destruct Hi as (k & <- & Hk). apply in_seq in Hk.
  unfold py_slice. rewrite length_take, length_drop.
  pose proof (Nat.div_mod (length all_dates + BATCH_DAYS - 1) BATCH_DAYS
                ltac:(unfold BATCH_DAYS; lia)) as H.
  pose proof (Nat.mod_upper_bound (length all_dates + BATCH_DAYS - 1) BATCH_DAYS
                ltac:(unfold BATCH_DAYS; lia)) as H'.
  unfold BATCH_DAYS in *. lia.
Qed.

(** The [i]-th chunk is the slice of [BATCH_DAYS] days starting at day
    [i * BATCH_DAYS]. *)
Lemma group_dates_lookup (all_dates : list date) (i : nat) (chunk : list date) :
  group_dates all_dates !! i = Some chunk ->
  chunk = take BATCH_DAYS (drop (i * BATCH_DAYS) all_dates).
Proof.
  unfold group_dates, py_range0. rewrite !list_lookup_fmap.
  intros H. destruct (seq 0 _ !! i) as [k|] eqn:Ek; [|discriminate].
  apply lookup_seq in Ek. destruct Ek as [-> _]. simpl in H.
  injection H as <-. unfold py_slice. f_equal. lia.
Qed.

(** C4. For every [start_date <= end_date] the chunks of the planner,
    concatenated, are exactly the ascending sequence of the business days
    (Monday to Friday) of [start_date .. end_date]; every chunk has
    between 1 and [BATCH_DAYS] = 3 days and is the next slice of that
    sequence, so chunks neither overlap nor leave gaps.  From 2024-01-02
    to 2024-01-08 the chunks are [Jan 2, Jan 3, Jan 4] and [Jan 5, Jan 8]. *)
Theorem batch_planner_chunks (start_date end_date : date) :
  start_date <= end_date ->
  let all_dates := bdate_range start_date end_date in
  let chunks := group_dates all_dates in
  concat chunks = all_dates /\
  (forall d, In d all_dates <->
             start_date <= d <= end_date /\ weekday d < 5) /\
  StronglySorted Z.lt all_dates /\
  Forall (fun chunk => (1 <= length chunk <= BATCH_DAYS)%nat) chunks /\
  (forall i chunk, chunks !! i = Some chunk ->
     chunk = take BATCH_DAYS (drop (i * BATCH_DAYS) all_dates)) /\
  BATCH_DAYS = 3%nat /\
  group_dates (bdate_range (_ymd2ord 2024 1 2) (_ymd2ord 2024 1 8))
  = [[_ymd2ord 2024 1 2; _ymd2ord 2024 1 3; _ymd2ord 2024 1 4];
     [_ymd2ord 2024 1 5; _ymd2ord 2024 1 8]].
Proof.
  intros Hle all_dates chunks.
  split; [apply group_dates_concat|].
  split; [intros d; apply bdate_range_spec|].
  split; [apply bdate_range_sorted|].
  split; [apply group_dates_sizes|].
  split; [apply group_dates_lookup|].
  split; reflexivity.
Qed.

Lemma batch_planner_chunks_witness :
  _ymd2ord 2024 1 2 <= _ymd2ord 2024 1 8 /\
  weekday (_ymd2ord 2024 1 2) = 1 /\
  concat (group_dates (bdate_range (_ymd2ord 2024 1 2) (_ymd2ord 2024 1 8)))
  = bdate_range (_ymd2ord 2024 1 2) (_ymd2ord 2024 1 8).
Proof.
  assert (H : _ymd2ord 2024 1 2 <= _ymd2ord 2024 1 8) by (vm_compute; discriminate).
  split; [exact H|]. split; [reflexivity|].
  exact (proj1 (batch_planner_chunks _ _ H)).
Defined.

(** ** Rules for [spec] *)

Section SpecRules.
Context {I : World -> Prop} {strict : bool}.

Lemma spec_ret {A} (a : A) : spec I strict (ret a).
Proof. intros w H. split; [exact H | discriminate]. Qed.

Lemma spec_raise {A} (e : exn) : spec I strict (@raise A e).
Proof. intros w H. split; [exact H | discriminate]. Qed.

Lemma spec_gets {A} (f : World -> A) : spec I strict (gets f).
Proof. intros w H. split; [exact H | discriminate]. Qed.

Lemma spec_lift {A} (r : pyres A) : spec I strict (lift r).
Proof. destruct r; [apply spec_raise | apply spec_ret]. Qed.

Lemma spec_modify (f : World -> World) :
  (forall w, I w -> I (f w)) -> spec I strict (modify f).
Proof. intros Hf w H. split; [apply Hf; exact H | discriminate]. Qed.

Lemma spec_bind {A B} (c : M A) (k : A -> M B) :
  spec I strict c -> (forall a, spec I strict (k a)) ->
  spec I strict (bind c k).
Proof.
  intros Hc Hk w H. unfold bind. specialize (Hc w H).
  destruct (c w) as [[a|e|] w']; simpl in *.
  - apply Hk. tauto.
  - split; [tauto | discriminate].
  - destruct Hc as [Hi Hn]. split; [exact Hi|].
    intros Hs _. apply (Hn Hs). reflexivity.
Qed.

Lemma spec_try_except {A} (c : M A) (handler : exn -> M A) :
  spec I strict c -> (forall e, spec I strict (handler e)) ->
  spec I strict (try_except c handler).
Proof.
  intros Hc Hh w H. unfold try_except. specialize (Hc w H).
  destruct (c w) as [[a|e|] w']; simpl in *.
  - split; [tauto | discriminate].
  - apply Hh. tauto.
  - exact Hc.
Qed.

Lemma spec_try_finally {A} (c : M A) (cleanup : M unit) :
  spec I strict c -> spec I strict cleanup ->
  spec I strict (try_finally c cleanup).
Proof.
  intros Hc Hf w H. unfold try_finally. specialize (Hc w H).
  destruct (c w) as [[a|e|] w']; simpl in *.
  - apply spec_bind; [exact Hf | intros; apply spec_ret | tauto].
  - apply spec_bind; [exact Hf | intros; apply spec_raise | tauto].
  - exact Hc.
Qed.

End SpecRules.

(** Decomposes a computation along its syntax. *)
Ltac spec_step :=
  lazymatch goal with
  | |- spec _ _ (bind _ _) => apply spec_bind; [|intros ?]
  | |- spec _ _ (ret _) => apply spec_ret
  | |- spec _ _ (raise _) => apply spec_raise
  | |- spec _ _ (gets _) => apply spec_gets
  | |- spec _ _ (lift _) => apply spec_lift
  | |- spec _ _ (try_except _ _) => apply spec_try_except; [|intros ?]
  | |- spec _ _ (try_finally _ _) => apply spec_try_finally
  | |- spec _ _ (if ?b then _ else _) => destruct b
  | |- spec _ _ (match ?x with _ => _ end) => destruct x
  | |- spec _ _ (let '(_, _) := ?x in _) => destruct x
  end.

(** ** The request layer keeps every stable invariant *)

Lemma timestamps_of_store self ts w :
  timestamps_of self w <> [] ->
  timestamps_of self
    (set_clients (alter (fun c => mkClient (fmp_api_key c) ts) self (clients w)) w)
  = ts.
Proof.
  unfold timestamps_of. simpl. intros H.
  rewrite list_lookup_alter_eq.
  destruct (clients w !! self) as [c|]; [reflexivity | contradiction].
Qed.

Lemma purge_cons_expired now oldest rest :
  RateLimiter.in_window now oldest = false ->
  (length (RateLimiter.purge now (oldest :: rest)) <= length rest)%nat.
Proof.
  intros H. unfold RateLimiter.purge. simpl. rewrite H.
  apply purge_length_le.
Qed.

Section RequestLayer.
Context {I : World -> Prop} (HI : request_stable I).

Lemma spec_log strict lvl msg :
  request_event (EvLog lvl msg) = true -> spec I strict (log lvl msg).
Proof.
  intros He. apply spec_modify. intros w H. apply (stable_emit I HI); assumption.
Qed.

Lemma spec_time_sleep strict seconds : spec I strict (time_sleep seconds).
Proof.
  apply spec_modify. intros w H.
  apply (stable_emit I HI); [reflexivity|]. apply (stable_clock I HI). exact H.
Qed.

Lemma spec_requests_get strict url params :
  spec I strict (requests_get url params).
Proof.
  intros w H. unfold requests_get.
  assert (Hw : I (emit (EvGet url params) (set_http_calls (S (http_calls w)) w))).
  { apply (stable_emit I HI); [reflexivity|]. apply (stable_http I HI). exact H. }
  destruct (network (env w) (http_calls w)); simpl; (split; [exact Hw | discriminate]).
Qed.

(** [_check_rate_limit] returns as soon as it is granted more iterations
    than there are timestamps left in the window. *)
Lemma check_rate_limit_returns (fuel : nat) : forall self w,
  I w ->
  I (snd (_check_rate_limit fuel self w)) /\
  ((length (RateLimiter.purge (clock w) (timestamps_of self w)) < fuel)%nat ->
   fst (_check_rate_limit fuel self w) = Return tt).
Proof.
  induction fuel as [|fuel IH]; intros self w Hw.
  - simpl. split; [exact Hw | lia].
  - simpl. unfold bind, time_time, gets. simpl.
    destruct (RateLimiter.critical_section (clock w) (timestamps_of self w))
      as [ts'|ts' wait_time|ts'] eqn:Ec.
    + apply critical_section_reserved in Ec. destruct Ec as (-> & Hlt & _).
      unfold store_timestamps, modify. simpl. split; [|reflexivity].
      apply (stable_store I HI); [exact Hw|]. left.
      unfold RateLimiter.count_in_window in Hlt.
      rewrite length_app. simpl. lia.
    + pose proof (critical_section_wait_positive _ _ _ _ Ec) as Hpos.
      unfold RateLimiter.critical_section in Ec.
      destruct (Z.of_nat (length (RateLimiter.purge (clock w) (timestamps_of self w)))
                <? RateLimiter.MAX_REQUESTS_PER_MIN); [discriminate|].
      destruct (RateLimiter.purge (clock w) (timestamps_of self w))
        as [|oldest rest] eqn:Ep; [discriminate|].
      injection Ec as <- <-.
      assert (Hne : timestamps_of self w <> []).
      { intros E. rewrite E in Ep. discriminate. }
      unfold store_timestamps, modify. simpl.
      apply Qltb_lt in Hpos. rewrite Hpos. simpl.
      unfold bind, log, time_sleep, modify. simpl.
      set (w1 := set_clients _ w).
      set (w2 := emit _ (set_clock _ (emit _ w1))).
      assert (Hw2 : I w2).
      { unfold w2. apply (stable_emit I HI); [reflexivity|].
        apply (stable_clock I HI). apply (stable_emit I HI); [reflexivity|].
        unfold w1. apply (stable_store I HI); [exact Hw|]. right.
        rewrite <- Ep. apply purge_length_le. }
      destruct (IH self w2 Hw2) as [IH1 IH2]. split; [exact IH1|].
      intros Hm. apply IH2.
      assert (Hts : timestamps_of self w2 = oldest :: rest).
      { unfold w2, w1. simpl. change (timestamps_of self
          (set_clients (alter (fun c => mkClient (fmp_api_key c) (oldest :: rest))
                              self (clients w)) w) = oldest :: rest).
        apply timestamps_of_store. exact Hne. }
      rewrite Hts.
      assert (Hexp : RateLimiter.in_window (clock w2) oldest = false).
      { unfold w2, w1. simpl. unfold RateLimiter.in_window. apply Qltb_ge.
        unfold RateLimiter.LOCK_WINDOW_SECONDS. lra. }
      pose proof (purge_cons_expired _ _ rest Hexp). simpl in Hm. lia.
    + unfold RateLimiter.critical_section in Ec.
      destruct (Z.of_nat (length (RateLimiter.purge (clock w) (timestamps_of self w)))
                <? RateLimiter.MAX_REQUESTS_PER_MIN) eqn:El; [discriminate|].
      destruct (RateLimiter.purge (clock w) (timestamps_of self w)) eqn:Ep;
        [|discriminate].
      apply Z.ltb_ge in El. unfold RateLimiter.MAX_REQUESTS_PER_MIN in El.
      simpl in El. lia.
Qed.

End RequestLayer.

(** One iteration of the connectivity loop. *)
Lemma wait_for_internet_loop_unfold fuel start_time max_wait_seconds w :
  _wait_for_internet_loop (S fuel) start_time max_wait_seconds w =
  let w1 := emit (EvGet "https://www.google.com" [])
                 (set_http_calls (S (http_calls w)) w) in
  match network (env w) (http_calls w) with
  | Response _ _ =>
      (Return true, emit (EvLog INFO "[Internet] Connection restored") w1)
  | Fails e =>
      if isinstance e Cls_ConnectionError then
        if Qle_bool max_wait_seconds (clock w - start_time) then
          (Return false,
           emit (EvLog WARNING "[Internet] Still offline. Proceeding with retry limits.") w1)
        else
          _wait_for_internet_loop fuel start_time max_wait_seconds
            (emit (EvSleep INTERNET_RETRY_INTERVAL_SECONDS)
               (set_clock (clock w + INTERNET_RETRY_INTERVAL_SECONDS)%Q
                  (emit (EvLog WARNING "[Internet] No connection. Retrying...") w1)))
      else (Raise e, w1)
  end.
Proof.
  simpl. unfold bind, try_except, requests_get.
  destruct (network (env w) (http_calls w)) as [status body|e]; [reflexivity|].
  destruct e; try reflexivity; unfold time_time, gets; simpl;
    destruct (Qle_bool max_wait_seconds (clock w - start_time)); reflexivity.
Qed.

Section RequestLayerLoops.
Context {I : World -> Prop} (HI : request_stable I).

(** [_wait_for_internet] gives up after [max_wait_seconds]: with the
    probes ten seconds apart, [k + 1] iterations suffice when the time
    left is at most [10 * k] seconds. *)
Lemma wait_for_internet_loop_returns (fuel : nat) :
  forall start_time max_wait_seconds w (k : Z),
  I w ->
  I (snd (_wait_for_internet_loop fuel start_time max_wait_seconds w)) /\
  ((max_wait_seconds - (clock w - start_time) <= 10 * inject_Z k)%Q ->
   0 <= k < Z.of_nat fuel ->
   fst (_wait_for_internet_loop fuel start_time max_wait_seconds w) <> Hang).
Proof.
  induction fuel as [|fuel IH]; intros start_time max_wait_seconds w k Hw.
  - simpl. split; [exact Hw | lia].
  - rewrite wait_for_internet_loop_unfold. cbv zeta.
    set (w1 := emit _ (set_http_calls _ w)).
    assert (Hw1 : I w1).
    { unfold w1. apply (stable_emit I HI); [reflexivity|].
      apply (stable_http I HI). exact Hw. }
    destruct (network (env w) (http_calls w)) as [status body|e].
    + simpl. split; [|discriminate].
      apply (stable_emit I HI); [reflexivity | exact Hw1].
    + destruct (isinstance e Cls_ConnectionError).
      * destruct (Qle_bool max_wait_seconds (clock w - start_time)) eqn:Ee.
        -- simpl. split; [|discriminate].
           apply (stable_emit I HI); [reflexivity | exact Hw1].
        -- set (w2 := emit _ (set_clock _ (emit _ w1))).
           assert (Hw2 : I w2).
           { unfold w2. apply (stable_emit I HI); [reflexivity|].
             apply (stable_clock I HI).
             apply (stable_emit I HI); [reflexivity | exact Hw1]. }
           destruct (IH start_time max_wait_seconds w2 (k - 1) Hw2) as [IH1 IH2].
           split; [exact IH1|]. intros Hk Hf.
           assert (Hlt : (clock w - start_time < max_wait_seconds)%Q).
           { apply Qnot_le_lt. intros Hle. apply Qle_bool_iff in Hle. congruence. }
           assert (Hk0 : 0 < k).
           { apply Z.lt_nge. intros Hk0.
             assert (inject_Z k <= 0)%Q
               by (rewrite Zle_Qle in Hk0; exact Hk0).
             lra. }
           apply IH2; [|lia].
           unfold w2, w1. simpl. unfold INTERNET_RETRY_INTERVAL_SECONDS.
           assert (E : (inject_Z (k - 1) == inject_Z k - 1)%Q).
           { unfold Z.sub. rewrite inject_Z_plus, inject_Z_opp. reflexivity. }
           rewrite E. lra.
      * simpl. split; [exact Hw1 | discriminate].
Qed.

Lemma spec_wait_for_internet strict fuel max_wait_seconds :
  (strict = true -> (13 <= fuel)%nat /\ max_wait_seconds = None) ->
  spec I strict (_wait_for_internet fuel max_wait_seconds).
Proof.
  intros Hs w Hw. unfold _wait_for_internet, bind, time_time, gets. simpl.
  destruct (wait_for_internet_loop_returns fuel (clock w)
              (match max_wait_seconds with
               | Some x => x
               | None => INTERNET_MAX_WAIT_SECONDS
               end) w 12 Hw) as [H1 H2].
  split; [exact H1|]. intros E. destruct (Hs E) as [Hf ->].
  apply H2; [|lia]. unfold INTERNET_MAX_WAIT_SECONDS.
  change (inject_Z 12) with 12%Q. lra.
Qed.

Lemma spec_check_rate_limit strict fuel self :
  (strict = true -> enough fuel /\ forall w, I w -> lim_ok w) ->
  spec I strict (_check_rate_limit fuel self).
Proof.
  intros Hs w Hw.
  destruct (check_rate_limit_returns HI fuel self w Hw) as [H1 H2].
  split; [exact H1|]. intros E. destruct (Hs E) as [Hf Hl].
  rewrite H2; [discriminate|].
  pose proof (purge_length_le (clock w) (timestamps_of self w)) as Hp.
  assert (Z.of_nat (length (timestamps_of self w))
          <= RateLimiter.MAX_REQUESTS_PER_MIN).
  { specialize (Hl w Hw). unfold lim_ok in Hl. unfold timestamps_of.
    destruct (clients w !! self) as [c|] eqn:Ec.
    - rewrite List.Forall_forall in Hl. apply Hl.
      apply list_elem_of_In. eapply list_elem_of_lookup_2. exact Ec.
    - unfold RateLimiter.MAX_REQUESTS_PER_MIN. simpl. lia. }
  unfold enough in Hf. lia.
Qed.

End RequestLayerLoops.

Section RequestLayerCalls.
Context {I : World -> Prop} (HI : request_stable I).
Context (strict : bool) (fuel : nat).
Context (Hs : strict = true -> enough fuel /\ forall w, I w -> lim_ok w).

Lemma enough_wait : strict = true -> (13 <= fuel)%nat /\ @None Q = None.
Proof.
  intros E. destruct (Hs E) as [Hf _]. unfold enough in Hf.
  unfold RateLimiter.MAX_REQUESTS_PER_MIN in Hf. split; [lia | reflexivity].
Qed.

Ltac request_step :=
  first
    [ apply (spec_log HI); reflexivity
    | apply (spec_time_sleep HI)
    | apply (spec_requests_get HI)
    | apply (spec_check_rate_limit HI); exact Hs
    | apply (spec_wait_for_internet HI); exact enough_wait
    | spec_step ].

Lemma spec_make_request_attempt self url params attempt :
  spec I strict (_make_request_attempt fuel self url params attempt).
Proof. unfold _make_request_attempt. repeat request_step. Qed.

Lemma spec_make_request_from self url params attempts :
  spec I strict (_make_request_from fuel self url params attempts).
Proof.
  induction attempts as [|attempt rest IH]; simpl.
  - repeat request_step.
  - apply spec_bind; [apply spec_make_request_attempt|].
    intros [v|]; [apply spec_ret | exact IH].
Qed.

Lemma spec_make_request self url params :
  spec I strict (_make_request fuel self url params).
Proof. apply spec_make_request_from. Qed.

Lemma spec_get_historical_data self tickers from_date to_date :
  spec I strict (get_historical_data fuel self tickers from_date to_date).
Proof.
  unfold get_historical_data.
  repeat first [apply spec_make_request | request_step].
Qed.

Lemma spec_get_intraday_data self tickers from_date to_date interval :
  spec I strict (get_intraday_data fuel self tickers from_date to_date interval).
Proof.
  unfold get_intraday_data.
  repeat first [apply spec_make_request | request_step].
Qed.

End RequestLayerCalls.

(** ** One batch of [backfill_data] *)

Lemma request_event_not_fetching e :
  request_event e = true -> is_fetching_log e = false.
Proof.
  destruct e as [s|url params|lvl msg|msg|op ok];
    cbn [request_event is_fetching_log]; try reflexivity.
  destruct lvl; try reflexivity.
  intros H. destruct msg as [|a msg]; [reflexivity|].
  cbn [String.prefix].
  destruct (ascii_dec "[" a) as [<-|]; [|reflexivity].
  destruct msg as [|b msg]; [reflexivity|].
  cbn [String.prefix].
  destruct (ascii_dec "B" b) as [<-|]; [|reflexivity].
  exfalso. cbv in H. discriminate.
Qed.

Lemma backfill_stable_request out I :
  backfill_stable out I -> request_stable I.
Proof.
  intros H. constructor.
  - apply (b_clock out I H).
  - apply (b_http out I H).
  - intros w e He. apply (b_emit out I H). apply request_event_not_fetching.
    exact He.
  - apply (b_store out I H).
Qed.

Lemma spec_prepare_data I strict df_chunk ticker :
  spec I strict (prepare_data df_chunk ticker).
Proof. unfold prepare_data. repeat spec_step. Qed.


Section OneBatch.
Context {I : World -> Prop} {out : option string} (HI : backfill_stable out I).
Context (strict : bool) (fuel : nat).
Context (Hs : strict = true -> enough fuel /\ forall w, I w -> lim_ok w).

Lemma spec_to_csv_append df path header :
  out = Some path -> spec I strict (to_csv_append df path header).
Proof.
  intros ->. apply spec_modify. intros w H. apply (b_cache _ I HI); [exact H|].
  intros q Hq. apply lookup_insert_ne. congruence.
Qed.

Lemma spec_fetch_batch fmp ticker from_date_str to_date_str interval all_dfs :
  spec I strict (fetch_batch fuel fmp ticker from_date_str to_date_str
                   interval out all_dfs).
Proof.
  pose proof (backfill_stable_request _ _ HI) as HR.
  unfold fetch_batch.
  apply spec_bind; [apply (spec_get_intraday_data HR); exact Hs|]. intros d1.
  apply spec_bind.
  { destruct d1; try apply spec_ret.
    apply (spec_get_historical_data HR); exact Hs. }
  intros d2. destruct d2 as [| | | |[|item items]|]; try apply spec_ret.
  destruct (negb (df_empty (pd_DataFrame (item :: items)))).
  - apply spec_bind; [apply spec_prepare_data|]. intros df.
    apply spec_bind; [|intros; apply spec_ret].
    destruct out as [path|] eqn:Eo; [|apply spec_ret].
    apply spec_bind; [apply spec_gets|]. intros there.
    apply spec_modify. intros w H. apply (b_cache _ I HI); [exact H|].
    intros q Hq. apply lookup_insert_ne. congruence.
  - apply spec_bind; [|intros; apply spec_ret].
    apply spec_modify. intros w H. apply (b_emit _ I HI); [reflexivity | exact H].
Qed.

Lemma spec_batch_tries iterations :
  forall fmp ticker from_date_str to_date_str interval attempt success all_dfs,
  (strict = true -> 2 - attempt <= Z.of_nat iterations) ->
  spec I strict (batch_tries iterations fuel fmp ticker from_date_str
                   to_date_str interval out attempt success all_dfs).
Proof.
  induction iterations as [|n IH]; intros fmp ticker from_date_str to_date_str
    interval attempt success all_dfs Hn; simpl.
  - destruct ((attempt <? 2) && negb success) eqn:Ec; [|apply spec_ret].
    intros w H. split; [exact H|]. intros E. specialize (Hn E).
    apply andb_true_iff in Ec. destruct Ec as [Ec _]. apply Z.ltb_lt in Ec. lia.
  - destruct ((attempt <? 2) && negb success) eqn:Ec; [|apply spec_ret].
    apply spec_bind.
    + apply spec_try_except.
      * apply spec_bind; [apply spec_fetch_batch | intros; apply spec_ret].
      * intros ex. apply spec_bind; [|intros _].
        { apply spec_modify. intros w H.
          apply (b_emit _ I HI); [|exact H].
          unfold error_msg. reflexivity. }
        apply spec_bind; [|intros; apply spec_ret].
        apply spec_modify. intros w H.
        apply (b_emit _ I HI); [reflexivity|]. apply (b_clock _ I HI). exact H.
    + intros r. apply IH. intros E. specialize (Hn E). lia.
Qed.

End OneBatch.





(** ** The batches of a ticker *)

Lemma lim_ok_store w self ts :
  lim_ok w ->
  Z.of_nat (length ts) <= RateLimiter.MAX_REQUESTS_PER_MIN \/
  (length ts <= length (timestamps_of self w))%nat ->
  lim_ok (set_clients
            (alter (fun c => mkClient (fmp_api_key c) ts) self (clients w)) w).
Proof.
  unfold lim_ok. simpl. intros H Hts. apply Forall_alter; [exact H|].
  intros c Hc Hlen. simpl. destruct Hts as [Hts|Hts]; [exact Hts|].
  unfold timestamps_of in Hts. rewrite Hc in Hts. lia.
Qed.


Lemma outcome_cases {A} (r : outcome A) :
  r <> Hang -> (forall e, r <> Raise e) -> exists a, r = Return a.
Proof.
  destruct r as [a|e|]; intros H1 H2.
  - exists a. reflexivity.
  - exfalso. apply (H2 e). reflexivity.
  - contradiction.
Qed.







(** ** The request layer lets an exception of the connectivity probe out *)

(** C2, at its failing input.  The request meets a connection error and
    the probe of [_wait_for_internet] then times out: [_make_request]
    does not return the failure sentinel, the [ReadTimeout] of the probe
    leaves it during the first attempt.  No HTTP 200 was ever received. *)
Theorem make_request_probe_timeout_escapes (fuel : nat) (url : string)
    (params : list (string * string)) :
  let w := one_client (scenario offline_then_stalled no_faults (inr []) 8) in
  let r := _make_request (S fuel) 0 url params w in
  fst r = Raise ReadTimeout /\
  events (snd r)
  = events w ++
    [EvGet url params;
     EvLog WARNING "[FMP API] Lost internet connection. Waiting for reconnection...";
     EvGet "https://www.google.com" []].
Proof.
  intros w r. split; reflexivity.
Qed.


(** Where the claim does hold: as long as the network fails with
    connection errors only, six attempts without an HTTP 200 end in the
    failure sentinel. *)

Lemma request_inv_stable e : request_stable (request_inv e).
Proof.
  constructor; unfold request_inv.
  - intros w x H. exact H.
  - intros w x H. exact H.
  - intros w ev _ H. exact H.
  - intros w self ts [H1 H2] Hts. split; [exact H1|].
    apply lim_ok_store; assumption.
Qed.

Lemma wait_for_internet_loop_calm (fuel : nat) :
  forall start_time max_wait_seconds w (k : Z),
  calm (env w) ->
  (max_wait_seconds - (clock w - start_time) <= 10 * inject_Z k)%Q ->
  0 <= k < Z.of_nat fuel ->
  exists b, fst (_wait_for_internet_loop fuel start_time max_wait_seconds w)
            = Return b.
Proof.
  induction fuel as [|fuel IH]; intros start_time max_wait_seconds w k Hc Hk Hf.
  - lia.
  - rewrite wait_for_internet_loop_unfold. cbv zeta.
    destruct (network (env w) (http_calls w)) as [status body|e] eqn:En.
    + exists true. reflexivity.
    + rewrite (Hc _ _ En).
      destruct (Qle_bool max_wait_seconds (clock w - start_time)) eqn:Ee.
      * exists false. reflexivity.
      * assert (Hlt : (clock w - start_time < max_wait_seconds)%Q).
        { apply Qnot_le_lt. intros Hle. apply Qle_bool_iff in Hle. congruence. }
        assert (Hk0 : 0 < k).
        { apply Z.lt_nge. intros Hk0.
          assert (inject_Z k <= 0)%Q by (rewrite Zle_Qle in Hk0; exact Hk0).
          lra. }
        apply (IH _ _ _ (k - 1)); [exact Hc | | lia].
        simpl. unfold INTERNET_RETRY_INTERVAL_SECONDS.
        assert (E : (inject_Z (k - 1) == inject_Z k - 1)%Q).
        { unfold Z.sub. rewrite inject_Z_plus, inject_Z_opp. reflexivity. }
        rewrite E. lra.
Qed.

Lemma make_request_attempt_no_answer fuel self url params attempt w :
  enough fuel -> lim_ok w -> calm (env w) -> never_ok (env w) ->
  fst (_make_request_attempt fuel self url params attempt w) = Return None.
Proof.
  intros Hf Hl Hc Hn. unfold _make_request_attempt, try_except.
  unfold bind at 1.
  pose proof (spec_check_rate_limit (request_inv_stable (env w)) true fuel self
                (fun _ => conj Hf (fun w' H => proj2 H)) w (conj eq_refl Hl))
    as [[He1 Hl1] _].
  destruct (check_rate_limit_returns (request_inv_stable (env w)) fuel self w
              (conj eq_refl Hl)) as [_ Hret].
  assert (Hm : (length (RateLimiter.purge (clock w) (timestamps_of self w)) < fuel)%nat).
  { pose proof (purge_length_le (clock w) (timestamps_of self w)).
    assert (Z.of_nat (length (timestamps_of self w))
            <= RateLimiter.MAX_REQUESTS_PER_MIN).
    { unfold lim_ok in Hl. unfold timestamps_of.
      destruct (clients w !! self) as [c|] eqn:Ec.
      - rewrite List.Forall_forall in Hl. apply Hl.
        apply list_elem_of_In. eapply list_elem_of_lookup_2. exact Ec.
      - unfold RateLimiter.MAX_REQUESTS_PER_MIN. simpl. lia. }
    unfold enough in Hf. lia. }
  specialize (Hret Hm).
  destruct (_check_rate_limit fuel self w) as [r1 w1]. simpl in *. subst r1.
  unfold bind at 1, requests_get.
  destruct (network (env w1) (http_calls w1)) as [status body|e] eqn:En.
  - rewrite He1 in En. apply Hn in En.
    apply Z.eqb_neq in En. cbn [fst snd]. rewrite En.
    destruct (status =? 429); reflexivity.
  - rewrite He1 in En. apply Hc in En.
    destruct e; try discriminate En; [reflexivity|].
    cbn [isinstance fst snd].
    unfold bind at 1, log, modify. unfold bind at 1.
    unfold _wait_for_internet, bind at 1, time_time, gets.
    match goal with
    | |- context [_wait_for_internet_loop fuel ?s ?m ?w'] =>
        destruct (wait_for_internet_loop_calm fuel s m w' 12) as [b Hb];
        [ simpl; rewrite He1; exact Hc
        | simpl; unfold INTERNET_MAX_WAIT_SECONDS;
          change (inject_Z 12) with 12%Q; lra
        | unfold enough, RateLimiter.MAX_REQUESTS_PER_MIN in Hf; lia
        | destruct (_wait_for_internet_loop fuel s m w') as [r2 w2];
          simpl in Hb; subst r2 ]
    end.
    destruct b; reflexivity.
Qed.

Section Graceful.
Context (fuel : nat) (Hf : enough fuel).

Lemma make_request_from_no_answer self url params attempts : forall w,
  lim_ok w -> calm (env w) -> never_ok (env w) ->
  fst (_make_request_from fuel self url params attempts w) = Return JNull.
Proof.
  induction attempts as [|attempt rest IH]; intros w Hl Hc Hn.
  - reflexivity.
  - cbn [_make_request_from]. unfold bind at 1.
    pose proof (make_request_attempt_no_answer fuel self url params attempt w
                  Hf Hl Hc Hn) as Hr.
    pose proof (spec_make_request_attempt (request_inv_stable (env w)) true fuel
                  (fun _ => conj Hf (fun w' H => proj2 H))
                  self url params attempt w (conj eq_refl Hl)) as [[He1 Hl1] _].
    destruct (_make_request_attempt fuel self url params attempt w) as [r w1].
    simpl in *. subst r. apply IH; [exact Hl1 | rewrite He1; exact Hc
                                    | rewrite He1; exact Hn].
Qed.

(** When no failure other than a connection error occurs, [MAX_RETRIES]
    attempts without an HTTP 200 end in [None]. *)
Lemma make_request_fails_gracefully self url params w :
  lim_ok w -> calm (env w) -> never_ok (env w) ->
  fst (_make_request fuel self url params w) = Return JNull.
Proof. apply make_request_from_no_answer. Qed.

End Graceful.


(** ** Side files *)

(** C9, at its failing input.  The target holds an older list; [os.fsync]
    fails (the fifth file-system call).  [_write_json_atomic] returns
    False and the target is as before, but [temp_path] was not yet
    assigned when the failure occurred, so the handler removes nothing:
    the temporary file stays in the directory. *)
Theorem write_json_atomic_leaks_temp_file :
  let old := mkFile (JsonArray ["OLD"]) None in
  let temp : Path := (EXTRA_TICKERS_DIR, ".sp500_tickers.json.k3x9.tmp") in
  let w := boot (scenario (always (Response 200 None)) (fault_at 4) (inr []) 8)
                (<[SP500_TICKERS_PATH := old]> ∅) ∅ in
  let r := _write_json_atomic SP500_TICKERS_PATH ["AAPL"; "MSFT"]
             "S&P 500 tickers" w in
  fst r = Return false /\
  side_files (snd r) !! SP500_TICKERS_PATH = Some old /\
  side_files (snd r) !! temp = Some (mkFile (JsonArray ["AAPL"; "MSFT"]) None) /\
  io_events (events (snd r))
  = [(Mkdir EXTRA_TICKERS_DIR, true); (CreateTemp temp, true);
     (WriteBuffer temp, true); (Flush temp, true); (Fsync temp, false);
     (Close temp, true)].
Proof.
  repeat split; vm_compute; reflexivity.
Qed.

(** C6, at its failing input.  The crypto fetch writes its list through
    [save_crypto_details]: the target itself is opened for writing, which
    truncates it, and no temporary file, fsync or rename is involved.
    When closing the file fails, the fetch raises and the target is left
    empty: the older list is gone and the new one is not there.  The
    S&P 500 fetch, given the same symbols, goes through the temporary
    file. *)
Theorem crypto_side_file_written_in_place :
  let records := [JDict [("symbol", JStr "BTCUSD")];
                  JDict [("symbol", JStr "ETHUSD")]] in
  let old := mkFile (JsonArray ["OLD"]) None in
  let temp : Path := (EXTRA_TICKERS_DIR, ".sp500_tickers.json.k3x9.tmp") in
  let answer := always (Response 200 (Some (JList records))) in
  let w := boot (scenario answer no_faults (inr records) 8)
                (<[CRYPTO_TICKERS_PATH := old]> ∅) ∅ in
  let w_fault := boot (scenario answer (fault_at 3) (inr records) 8)
                      (<[CRYPTO_TICKERS_PATH := old]> ∅) ∅ in
  (fst (get_crypto_tickers w) = Return ["BTCUSD"; "ETHUSD"] /\
   io_events (events (snd (get_crypto_tickers w)))
   = [(Mkdir EXTRA_TICKERS_DIR, true);
      (OpenTruncate CRYPTO_TICKERS_PATH, true);
      (WriteBuffer CRYPTO_TICKERS_PATH, true);
      (Close CRYPTO_TICKERS_PATH, true)]) /\
  (fst (get_crypto_tickers w_fault) = Raise OSError /\
   on_disk <$> side_files (snd (get_crypto_tickers w_fault)) !! CRYPTO_TICKERS_PATH
   = Some Empty) /\
  (fst (get_sp500_tickers plenty 0 (one_client (env w)))
   = Return ["BTCUSD"; "ETHUSD"] /\
   io_events (events (snd (get_sp500_tickers plenty 0 (one_client (env w)))))
   = [(Mkdir EXTRA_TICKERS_DIR, true); (CreateTemp temp, true);
      (WriteBuffer temp, true); (Flush temp, true); (Fsync temp, true);
      (Close temp, true); (Replace temp SP500_TICKERS_PATH, true)]).
Proof.
  repeat split; vm_compute; reflexivity.
Qed.


(** *** What the atomic writer does guarantee *)

Lemma string_length_app (s1 s2 : string) :
  String.length (s1 +:+ s2) = (String.length s1 + String.length s2)%nat.
Proof.
  induction s1 as [|a s1 IH]; [reflexivity|].
  change (String a s1 +:+ s2) with (String a (s1 +:+ s2)).
  cbn [String.length]. rewrite IH. reflexivity.
Qed.

Lemma temp_name_differs (target_path : Path) (token : string) :
  (fst target_path, "." +:+ snd target_path +:+ "." +:+ token +:+ ".tmp")
  <> target_path.
Proof.
  destruct target_path as [dir name]. simpl. intros [= H].
  apply (f_equal String.length) in H.
  change ("." +:+ name +:+ "." +:+ token +:+ ".tmp")
    with (String "." (name +:+ "." +:+ token +:+ ".tmp")) in H.
  cbn [String.length] in H. rewrite string_length_app in H. lia.
Qed.

Lemma io_call_ok op effect w :
  io_fault (env w) (io_calls w) = false ->
  io_call op effect w
  = (Return tt, emit (EvIO op true)
                  (set_side_files (effect (side_files w))
                     (set_io_calls (S (io_calls w)) w))).
Proof. intros H. unfold io_call. rewrite H. reflexivity. Qed.

Lemma io_call_fail op effect w :
  io_fault (env w) (io_calls w) = true ->
  io_call op effect w
  = (Raise OSError, emit (EvIO op false) (set_io_calls (S (io_calls w)) w)).
Proof. intros H. unfold io_call. rewrite H. reflexivity. Qed.

Ltac io_red :=
  cbv beta iota zeta delta
    [_write_json_atomic bind try_except mkdir_parents NamedTemporaryFile
     json_dump file_flush os_fsync file_close os_replace
     _write_json_atomic_except gets ret raise log modify path_exists
     path_unlink isinstance].

Ltac io_case :=
  match goal with
  | |- context [io_call ?op ?eff ?w] =>
      let E := fresh "E" in
      destruct (io_fault (env w) (io_calls w)) eqn:E;
      [ rewrite (io_call_fail op eff w E) | rewrite (io_call_ok op eff w E) ];
      io_red
  end.

Ltac io_lookups Hne :=
  cbn [side_files emit set_side_files set_io_calls];
  rewrite ?lookup_alter_eq, ?lookup_insert_eq, ?lookup_delete_ne,
    ?lookup_alter_ne, ?lookup_insert_ne by exact Hne;
  cbn [fmap option_fmap option_map flush_file buffer on_disk].


Ltac io_present Hne :=
  match goal with
  | |- context [bool_decide (is_Some ?o)] =>
      progress (io_lookups Hne);
      rewrite bool_decide_eq_true_2 by (eexists; reflexivity);
      io_red
  | |- context [match side_files ?w !! ?p with _ => _ end] =>
      progress (io_lookups Hne); io_red
  end.





(** ** The sink of [backfill_data] *)

(** C10 as stated fails: over a range without business days the function
    returns before it reaches the clean-up of the output path, and a file
    left there by an earlier run stays, rows and all, although this run
    fetched nothing. *)
Lemma backfill_weekend_keeps_stale_file :
  let path := "data/backfill_cache/out.csv" in
  let w := boot (scenario one_bar no_faults (inr []) 8) ∅
                (<[path := stale_rows]> ∅) in
  let r := backfill_data plenty ["AAPL"] (_ymd2ord 2024 1 6) (_ymd2ord 2024 1 7)
             5 None (Some "out.csv") w in
  generate_output_filename ["AAPL"] (_ymd2ord 2024 1 6) (_ymd2ord 2024 1 7)
    5 None (Some "out.csv") = path /\
  weekday (_ymd2ord 2024 1 6) = 5 /\ weekday (_ymd2ord 2024 1 7) = 6 /\
  fst r = Return None /\
  List.filter is_get (events (snd r)) = [] /\
  cache_files (snd r) !! path = Some stale_rows.
Proof.
  repeat split; vm_compute; reflexivity.
Qed.

(** ** The concurrent run *)

(** C7 as stated fails: a run in which both tickers insert a row returns
    [None]; what it prints is the ticker count, one line per ticker and
    the closing line, and no totals. *)
Lemma concurrent_backfill_returns_no_stats :
  let w := boot (scenario one_bar no_faults (inr []) 8) ∅ ∅ in
  let r := concurrent_backfill plenty ["AAPL"; "MSFT"] (_ymd2ord 2024 1 5)
             (_ymd2ord 2024 1 5) 5 None None false "fail" MAX_WORKERS w in
  ~ (exists stats, fst r = Return (Some stats)) /\
  length (market_data (db (snd r))) = 2%nat /\
  prints (events (snd r))
  = ["[ConcurrentBackfill] Starting concurrency for 2 tickers.";
     "  Date range: 2024-01-05 to 2024-01-05, interval=5 min";
     "  Using up to 8 threads.";
     "Starting backfill"; "[AAPL] Inserted 1 rows into DB.";
     "Starting backfill"; "[MSFT] Inserted 1 rows into DB.";
     "[ConcurrentBackfill] All threads completed. Closing connection pool."].
Proof.
  split; [|split; vm_compute; reflexivity].
  intros [stats H]. vm_compute in H. discriminate.
Qed.

(** C8 as stated fails: with as many workers as the pool has connections
    (and with more) the run is not refused; it fetches and inserts. *)
Lemma concurrent_backfill_accepts_any_worker_count :
  let w := boot (scenario one_bar no_faults (inr []) 8) ∅ ∅ in
  let r8 := concurrent_backfill plenty ["AAPL"; "MSFT"] (_ymd2ord 2024 1 5)
              (_ymd2ord 2024 1 5) 5 None None false "fail" 8 w in
  let r64 := concurrent_backfill plenty ["AAPL"; "MSFT"] (_ymd2ord 2024 1 5)
               (_ymd2ord 2024 1 5) 5 None None false "fail" 64 w in
  pool_capacity (env w) = 8 /\
  fst r8 = Return None /\ fst r64 = Return None /\
  length (List.filter is_get (events (snd r8))) = 2%nat /\
  length (List.filter is_get (events (snd r64))) = 2%nat /\
  length (market_data (db (snd r8))) = 2%nat /\
  length (market_data (db (snd r64))) = 2%nat.
Proof.
  repeat split; vm_compute; reflexivity.
Qed.

(** C3, at its failing input.  Two tickers over 2253 business days, a
    provider that answers at once with no bars: every batch costs an
    intraday and a daily request.  Each worker builds its own
    [FMPMarketData], hence its own [request_timestamps]: at the end two
    limiter states exist, each of which admitted 1502 requests, and the
    3004 requests of the run were all admitted at the same instant. *)
Theorem concurrent_backfill_private_limiters :
  let w := boot (scenario no_bars no_faults (inr []) 8) ∅ ∅ in
  let r := concurrent_backfill plenty ["AAPL"; "MSFT"] (_ymd2ord 2015 1 1)
             (_ymd2ord 2023 8 21) 5 None None false "fail" MAX_WORKERS w in
  fst r = Return None /\
  clients (snd r)
  = [mkClient "demo" (repeat 0%Q 1502); mkClient "demo" (repeat 0%Q 1502)] /\
  clock (snd r) = 0%Q /\
  Z.of_nat (length (List.filter is_get (events (snd r)))) = 3004 /\
  RateLimiter.MAX_REQUESTS_PER_MIN = 3000.
Proof.
  intros w r.
  assert (H : (fst r, clients (snd r), clock (snd r),
               Z.of_nat (length (List.filter is_get (events (snd r)))))
              = (Return None,
                 [mkClient "demo" (repeat 0%Q 1502);
                  mkClient "demo" (repeat 0%Q 1502)], 0%Q, 3004))
    by (vm_compute; reflexivity).
  revert H.
  generalize (fst r), (clients (snd r)), (clock (snd r)),
    (Z.of_nat (length (List.filter is_get (events (snd r))))).
  intros a b c d H. injection H as -> -> -> ->.
  split; [reflexivity|]. split; [reflexivity|]. split; [reflexivity|].
  split; reflexivity.
Qed.


(** ** Whole runs of [backfill_data] *)

Lemma spec_bind_val {I : World -> Prop} {strict : bool} {A B}
    (c : M A) (k : A -> M B) (P : A -> Prop) :
  spec I strict c ->
  (forall w a w', c w = (Return a, w') -> P a) ->
  (forall a, P a -> spec I strict (k a)) ->
  spec I strict (bind c k).
Proof.
  intros Hc HP Hk w H. unfold bind. specialize (Hc w H).
  specialize (HP w).
  destruct (c w) as [[a|e|] w']; simpl in *.
  - apply Hk; [eapply HP; reflexivity | tauto].
  - split; [tauto | discriminate].
  - destruct Hc as [Hi Hn]. split; [exact Hi|].
    intros Hs _. apply (Hn Hs). reflexivity.
Qed.

Section WholeRun.
Context {I : World -> Prop} {out : option string} (HI : run_stable out I).
Context (strict : bool) (fuel : nat).
Context (Hs : strict = true -> enough fuel /\ forall w, I w -> lim_ok w).

Lemma spec_emit (e : event) : spec I strict (modify (emit e)).
Proof. apply spec_modify. intros w H. apply (r_emit _ I HI). exact H. Qed.

Lemma spec_process_batch fmp ticker interval date_group all_dfs :
  spec I strict (process_batch fuel fmp ticker interval out date_group all_dfs).
Proof.
  unfold process_batch. destruct date_group as [|first rest]; [apply spec_raise|].
  destruct (last (first :: rest)); [|apply spec_raise].
  apply spec_bind; [apply spec_emit|]. intros _.
  apply (spec_batch_tries (r_batch _ I HI) strict fuel Hs).
  intros E. destruct (Hs E) as [Hf _].
  unfold enough, RateLimiter.MAX_REQUESTS_PER_MIN in Hf. lia.
Qed.

Lemma spec_batches_loop fmp ticker interval grouped_dates : forall all_dfs,
  spec I strict (batches_loop fuel fmp ticker interval out grouped_dates all_dfs).
Proof.
  induction grouped_dates as [|g rest IH]; intros all_dfs; simpl.
  - apply spec_ret.
  - apply spec_bind; [apply spec_process_batch | intros dfs; apply IH].
Qed.

Lemma spec_tickers_loop fmp tickers interval grouped_dates : forall all_dfs,
  spec I strict (tickers_loop fuel fmp tickers interval out grouped_dates all_dfs).
Proof.
  induction tickers as [|t rest IH]; intros all_dfs; simpl.
  - apply spec_ret.
  - apply spec_bind; [apply spec_emit|]. intros _.
    apply spec_bind; [apply spec_batches_loop | intros dfs; apply IH].
Qed.

Lemma spec_backfill_collect fmp tickers interval output_filename grouped_dates :
  spec I strict (backfill_collect fuel fmp tickers interval output_filename out
                   grouped_dates).
Proof.
  unfold backfill_collect.
  apply spec_bind; [apply spec_tickers_loop|]. intros all_dfs.
  apply spec_bind; [generalize out; intros [p|]; apply spec_emit|]. intros _.
  destruct output_filename; [apply spec_ret|].
  destruct all_dfs; (apply spec_bind; [apply spec_emit | intros; apply spec_ret]).
Qed.

Lemma spec_FMPMarketData_init : spec I strict FMPMarketData_init.
Proof.
  unfold FMPMarketData_init.
  apply spec_bind; [apply spec_gets|]. intros [k|]; [|apply spec_raise].
  destruct (String.eqb k ""); [apply spec_raise|].
  apply spec_bind; [apply spec_gets|]. intros self.
  apply spec_bind; [|intros; apply spec_ret].
  apply spec_modify. intros w H. apply (r_init _ I HI). exact H.
Qed.

Lemma spec_backfill_data tickers start_date end_date interval exchange
    output_filename :
  out = resolved_path tickers start_date end_date interval exchange
          output_filename ->
  spec I strict (backfill_data fuel tickers start_date end_date interval
                   exchange output_filename).
Proof.
  intros Hout. unfold backfill_data.
  apply spec_bind; [apply spec_emit|]. intros _.
  apply spec_bind; [apply spec_FMPMarketData_init|]. intros fmp.
  destruct (bdate_range start_date end_date) as [|d ds].
  { apply spec_bind; [apply spec_emit | intros; apply spec_ret]. }
  apply (spec_bind_val _ _ (fun a => a = out)).
  - destruct output_filename as [name|]; [|apply spec_ret].
    apply spec_bind; [apply spec_gets|]. intros there.
    apply spec_bind; [|intros; apply spec_ret].
    destruct there; [|apply spec_ret].
    apply spec_modify. intros w H. apply (b_cache _ I (r_batch _ I HI)); [exact H|].
    intros q Hq. apply lookup_delete_ne. rewrite Hout in Hq. simpl in Hq.
    congruence.
  - intros w a w'. rewrite Hout. unfold resolved_path.
    destruct output_filename as [name|]; [|intros [= <- _]; reflexivity].
    unfold bind, cache_exists, cache_remove, gets, modify, ret. simpl.
    destruct (bool_decide _); intros [= <- _]; reflexivity.
  - intros a ->. apply spec_backfill_collect.
Qed.

End WholeRun.

Lemma frame_inv_stable path m0 : run_stable (Some path) (frame_inv path m0).
Proof.
  constructor; [constructor|..]; unfold frame_inv; try (intros; auto; fail).
  intros w x H Hx q Hq. simpl. rewrite Hx by congruence. apply H. exact Hq.
Qed.

(** Up to the loops, a call that builds its client and finds a business
    day does this: it prints its opening line, adds the client, and
    removes whatever is at the output path. *)
Lemma backfill_data_reaches_loops fuel tickers start_date end_date interval
    exchange name w k :
  api_key_setting (env w) = Some k -> k <> "" ->
  bdate_range start_date end_date <> [] ->
  let path := generate_output_filename tickers start_date end_date interval
                exchange (Some name) in
  backfill_data fuel tickers start_date end_date interval exchange (Some name) w
  = backfill_collect fuel (length (clients w)) tickers interval (Some name)
      (Some path) (group_dates (bdate_range start_date end_date))
      (set_cache_files (delete path (cache_files w))
         (set_clients (clients w ++ [mkClient k []])
            (emit (EvPrint "Starting backfill") w))).
Proof.
  intros Hk Hne Hd path.
  assert (Ek : String.eqb k "" = false) by (apply String.eqb_neq; exact Hne).
  unfold backfill_data.
  destruct (bdate_range start_date end_date) as [|d ds] eqn:Eb; [contradiction|].
  unfold bind at 1, print, modify. cbn [fst snd].
  unfold bind at 1, FMPMarketData_init, gets, bind at 1. cbn [fst snd env emit].
  rewrite Hk. rewrite Ek.
  unfold bind at 1 2, modify, ret, gets. cbn [fst snd clients emit].
  unfold bind at 1 2 3, cache_exists, cache_remove, gets, modify, ret.
  cbn [fst snd cache_files set_clients emit]. fold path.
  destruct (bool_decide (is_Some (cache_files w !! path))) eqn:Ex.
  - reflexivity.
  - apply bool_decide_eq_false in Ex.
    assert (En : cache_files w !! path = None).
    { destruct (cache_files w !! path) eqn:E; [|reflexivity].
      exfalso. apply Ex. eexists. reflexivity. }
    cbn [fst snd]. f_equal. unfold set_cache_files, set_clients, emit. simpl.
    rewrite (delete_id _ _ En). reflexivity.
Qed.


(** C10, amended.  For every call with an output file name that builds
    its client and finds at least one business day in the range: before
    any request is made or row appended, the file at the resolved output
    path is gone; hence the whole run, and with it what the sink holds
    afterwards, is the run started without that file; and no other file
    of the cache is modified. *)
Theorem backfill_sink_holds_this_run_only
    (fuel : nat) (tickers : list string) (start_date end_date : date)
    (interval : Z) (exchange : option string) (name : string) (w : World)
    (k : string) :
  api_key_setting (env w) = Some k -> k <> "" ->
  bdate_range start_date end_date <> [] ->
  let path := generate_output_filename tickers start_date end_date interval
                exchange (Some name) in
  let run := backfill_data fuel tickers start_date end_date interval exchange
               (Some name) in
  let at_loops :=
    set_cache_files (delete path (cache_files w))
      (set_clients (clients w ++ [mkClient k []])
         (emit (EvPrint "Starting backfill") w)) in
  run w = backfill_collect fuel (length (clients w)) tickers interval
            (Some name) (Some path)
            (group_dates (bdate_range start_date end_date)) at_loops /\
  cache_files at_loops !! path = None /\
  List.filter is_get (events at_loops) = List.filter is_get (events w) /\
  run w = run (set_cache_files (delete path (cache_files w)) w) /\
  forall q, q <> path -> cache_files (snd (run w)) !! q = cache_files w !! q.
Proof.
  intros Hk Hne Hd path run at_loops.
  pose proof (backfill_data_reaches_loops fuel tickers start_date end_date
                interval exchange name w k Hk Hne Hd) as H1.
  split; [exact H1|].
  split; [apply lookup_delete_eq|].
  split.
  { unfold at_loops. simpl. rewrite List.filter_app. simpl.
    apply app_nil_r. }
  split.
  - unfold run. rewrite H1.
    rewrite (backfill_data_reaches_loops fuel tickers start_date end_date
               interval exchange name
               (set_cache_files (delete path (cache_files w)) w) k Hk Hne Hd).
    cbv zeta. fold path. f_equal. unfold set_cache_files, set_clients, emit.
    simpl. rewrite delete_delete_eq. reflexivity.
  - pose proof (spec_backfill_data (frame_inv_stable path (cache_files w))
                  false fuel (fun E => ltac:(discriminate E))
                  tickers start_date end_date interval exchange (Some name)
                  eq_refl w) as [H _].
    + intros q _. reflexivity.
    + exact H.
Qed.

Lemma backfill_sink_holds_this_run_only_witness :
  let path := "data/backfill_cache/out.csv" in
  let w := boot (scenario one_bar no_faults (inr []) 8) ∅
                (<[path := stale_rows]> ∅) in
  let run := backfill_data plenty ["AAPL"] (_ymd2ord 2024 1 5)
               (_ymd2ord 2024 1 5) 5 None (Some "out.csv") in
  api_key_setting (env w) = Some "demo" /\ "demo" <> "" /\
  bdate_range (_ymd2ord 2024 1 5) (_ymd2ord 2024 1 5) <> [] /\
  cache_files w !! path = Some stale_rows /\
  run w = run (set_cache_files
                 (delete (generate_output_filename ["AAPL"] (_ymd2ord 2024 1 5)
                            (_ymd2ord 2024 1 5) 5 None (Some "out.csv"))
                         (cache_files w)) w).
Proof.
  intros path w run.
  assert (H1 : api_key_setting (env w) = Some "demo") by reflexivity.
  assert (H2 : "demo" <> "") by discriminate.
  assert (H3 : bdate_range (_ymd2ord 2024 1 5) (_ymd2ord 2024 1 5) <> [])
    by (vm_compute; discriminate).
  split; [exact H1|]. split; [exact H2|]. split; [exact H3|].
  split; [reflexivity|].
  exact (proj1 (proj2 (proj2 (proj2
           (backfill_sink_holds_this_run_only plenty ["AAPL"] (_ymd2ord 2024 1 5)
              (_ymd2ord 2024 1 5) 5 None "out.csv" w "demo" H1 H2 H3))))).
Defined.


(** ** Whole concurrent runs *)

Lemma lim_ok_init w k :
  lim_ok w -> lim_ok (set_clients (clients w ++ [mkClient k []]) w).
Proof.
  unfold lim_ok. simpl. intros H. apply Forall_app. split; [exact H|].
  repeat constructor. simpl. unfold RateLimiter.MAX_REQUESTS_PER_MIN. lia.
Qed.

Lemma conc_inv_stable e before n opened closed :
  run_stable None (conc_inv e before n opened closed).
Proof.
  constructor; [constructor|..]; unfold conc_inv.
  - intros w x H. exact H.
  - intros w x H. exact H.
  - intros w ev _ (H1 & H2 & H3 & H4 & H5 & since & H6).
    repeat (split; [assumption|]). exists (since ++ [ev]). simpl.
    rewrite H6, app_assoc. reflexivity.
  - intros w self ts (H1 & H2) Hts. split; [|exact H2].
    apply lim_ok_store; assumption.
  - intros w x H _. exact H.
  - intros w ev (H1 & H2 & H3 & H4 & H5 & since & H6).
    repeat (split; [assumption|]). exists (since ++ [ev]). simpl.
    rewrite H6, app_assoc. reflexivity.
  - intros w k (H1 & H2). split; [|exact H2]. apply lim_ok_init. exact H1.
  - intros w table H. exact H.
Qed.

Lemma spec_build_insert_data {I : World -> Prop} {out} (HI : run_stable out I)
    strict parse ticker effective_exchange rows :
  spec I strict (build_insert_data parse ticker effective_exchange rows).
Proof.
  induction rows as [|row rest IH]; simpl.
  - apply spec_ret.
  - apply spec_bind.
    + destruct (insert_tuple parse effective_exchange row); [apply spec_ret|].
      apply spec_bind; [apply (spec_emit HI) | intros; apply spec_ret].
    + intros head. apply spec_bind; [exact IH | intros; apply spec_ret].
Qed.

Lemma spec_execute_values {I : World -> Prop} {out} (HI : run_stable out I)
    strict on_conflict insert_data :
  spec I strict (execute_values on_conflict insert_data).
Proof.
  unfold execute_values.
  apply spec_bind; [apply spec_gets|]. intros table.
  apply spec_bind; [apply spec_lift|]. intros table'.
  apply spec_modify. intros w H. apply (r_table _ I HI). exact H.
Qed.

(** A handler that prints and goes on turns every exception into a
    normal return. *)
Lemma try_except_print_returns {A} (c : M A) (msg : string) (a : A) w e :
  fst (try_except c (fun ex => _ <- print msg ;; ret a) w) <> Raise e.
Proof.
  unfold try_except. destruct (c w) as [[x|ex|] w1]; simpl; discriminate.
Qed.

Section Worker.
Context (fuel : nat) (Hf : enough fuel).
Context (e : Env) (Hcap : 0 < pool_capacity e).
Context (before : list event) (opened closed : Z).

Lemma backfill_single_ticker_returns ticker start_date end_date interval
    exchange dry_run on_conflict exchange_map w :
  conc_inv e before 0 opened closed w ->
  exists w',
    backfill_single_ticker fuel ticker start_date end_date interval exchange
      dry_run on_conflict exchange_map w = (Return tt, w') /\
    conc_inv e before 0 opened closed w'.
Proof.
  intros Hw. unfold backfill_single_ticker.
  set (fallback := match exchange with
                   | Some e0 => if String.eqb e0 "" then "nasdaq" else e0
                   | None => "nasdaq"
                   end).
  set (effective_exchange := default fallback (default ∅ exchange_map !! str_upper ticker)).
  pose proof (conc_inv_stable e before 0 opened closed) as HI.
  assert (Hs : true = true -> enough fuel /\
               forall w0, conc_inv e before 0 opened closed w0 -> lim_ok w0)
    by (intros _; split; [exact Hf | intros w0 H; apply H]).
  unfold bind at 1.
  match goal with |- context [try_except ?c ?h w] =>
    assert (Hfetch : spec (conc_inv e before 0 opened closed) true (try_except c h));
    [ apply spec_try_except;
      [ apply spec_bind;
        [ apply (spec_backfill_data HI true fuel Hs); reflexivity
        | intros [df|];
          [ destruct (df_empty df);
            [ apply spec_bind; [apply (spec_emit HI) | intros; apply spec_ret]
            | apply spec_ret ]
          | apply spec_bind; [apply (spec_emit HI) | intros; apply spec_ret] ] ]
      | intros ex; apply spec_bind; [apply (spec_emit HI) | intros; apply spec_ret] ]
    | pose proof (try_except_print_returns c
                    ("[" +:+ ticker +:+ "] Error during backfill or insert")
                    None w) as Hnr;
      destruct (Hfetch w Hw) as [Hw1 Hnh];
      destruct (try_except c h w) as [r1 w1] eqn:E1 ]
  end.
  cbn [fst snd] in *.
  destruct (outcome_cases r1 (Hnh eq_refl) Hnr) as [r ->].
  destruct r as [df|]; [|exists w1; split; [reflexivity | exact Hw1]].
  (* the lease *)
  destruct Hw1 as (L1 & L2 & L3 & L4 & L5 & since & L6).
  unfold bind at 1, try_except at 1, bind at 1, get_connection.
  rewrite L3, L2. rewrite (proj2 (Z.ltb_lt _ _) Hcap). cbn [fst snd ret].
  set (w2 := set_db _ w1).
  assert (Hw2 : conc_inv e before 1 opened closed w2).
  { unfold w2, conc_inv. simpl.
    repeat (split; [assumption || reflexivity|]). exists since. exact L6. }
  pose proof (conc_inv_stable e before 1 opened closed) as HI1.
  unfold try_finally.
  match goal with |- context [try_except ?c ?h w2] =>
    assert (Hbody : spec (conc_inv e before 1 opened closed) true (try_except c h));
    [ apply spec_try_except;
      [ apply spec_bind; [apply spec_gets|]; intros parse;
        apply spec_bind; [apply (spec_build_insert_data HI1)|];
        intros insert_data;
        destruct insert_data, dry_run;
        try apply (spec_emit HI1);
        apply spec_bind; [apply (spec_execute_values HI1) | intros; apply (spec_emit HI1)]
      | intros ex; apply (spec_emit HI1) ]
    | destruct (Hbody w2 Hw2) as [Hw3 Hnh3];
      assert (Hnr3 : forall ex, fst (try_except c h w2) <> Raise ex);
      [ intros ex; unfold try_except;
        destruct (c w2) as [[x|ex'|] w3']; simpl; discriminate
      | destruct (try_except c h w2) as [r3 w3] eqn:E3 ] ]
  end.
  cbn [fst snd] in *.
  destruct (outcome_cases r3 (Hnh3 eq_refl) Hnr3) as [[] ->].
  unfold bind, release_connection, modify, ret. cbn [fst snd].
  eexists. split; [reflexivity|].
  destruct Hw3 as (M1 & M2 & M3 & M4 & M5 & since3 & M6).
  unfold conc_inv. simpl. rewrite M3.
  repeat (split; [assumption || reflexivity|]). exists since3. exact M6.
Qed.

Lemma run_workers_returns tickers start_date end_date interval exchange dry_run
    on_conflict exchange_map : forall w,
  conc_inv e before 0 opened closed w ->
  exists w',
    run_workers fuel tickers start_date end_date interval exchange dry_run
      on_conflict exchange_map w = (Return tt, w') /\
    conc_inv e before 0 opened closed w'.
Proof.
  induction tickers as [|ticker rest IH]; intros w Hw; simpl.
  - exists w. split; [reflexivity | exact Hw].
  - destruct (backfill_single_ticker_returns ticker start_date end_date
                interval exchange dry_run on_conflict exchange_map w Hw)
      as (w1 & E1 & Hw1).
    unfold bind at 1, try_except. rewrite E1. apply IH. exact Hw1.
Qed.

End Worker.


(** A run with a positive worker count completes: it returns [None],
    having printed its opening lines first and its closing line last, and
    having opened one pool and closed it. *)
Lemma concurrent_backfill_completes fuel tickers start_date end_date interval
    exchange exchange_map dry_run on_conflict threads w :
  enough fuel -> lim_ok w -> leased (db w) = 0 ->
  0 < pool_capacity (env w) -> 0 < threads ->
  exists w' since,
    concurrent_backfill fuel tickers start_date end_date interval exchange
      exchange_map dry_run on_conflict threads w = (Return None, w') /\
    events w' = events w
                ++ opening_prints tickers start_date end_date interval threads
                ++ since ++ [closing_print] /\
    pools_open (db w') = pools_open (db w) + 1 /\
    pools_closed (db w') = pools_closed (db w) + 1 /\
    leased (db w') = 0 /\ lim_ok w'.
Proof.
  intros Hf Hl Hz Hcap Ht. unfold concurrent_backfill.
  unfold bind at 1, print at 1, modify. cbn [fst snd].
  unfold bind at 1, print at 1, modify. cbn [fst snd].
  unfold bind at 1, print at 1, modify. cbn [fst snd].
  unfold bind at 1, MQSDBConnector_init, modify. cbn [fst snd].
  set (w3 := set_db _ _).
  assert (Hw3 : conc_inv (env w)
                  (events w ++ opening_prints tickers start_date end_date
                                 interval threads)
                  0 (pools_open (db w) + 1) (pools_closed (db w)) w3).
  { unfold conc_inv, w3. simpl. rewrite Hz.
    repeat (split; [assumption || reflexivity|]). exists [].
    unfold opening_prints. rewrite app_nil_r, <- !app_assoc. reflexivity. }
  rewrite (proj2 (Z.leb_gt _ _) Ht).
  destruct (run_workers_returns fuel Hf (env w) Hcap _ _ _ tickers start_date
              end_date interval exchange dry_run on_conflict exchange_map w3 Hw3)
    as (w4 & E4 & H4).
  unfold bind at 1, try_finally. rewrite E4.
  unfold bind, print, close_all_connections, modify, ret. cbn [fst snd].
  destruct H4 as (M1 & M2 & M3 & M4 & M5 & since & M6).
  eexists _, since. split; [reflexivity|]. simpl.
  rewrite M4, M5, M6, <- !app_assoc. repeat split; try reflexivity. exact M1.
Qed.

(** C7, amended.  A concurrent run with a positive worker count returns
    [None] to its caller: no totals of inserted or skipped rows and no
    elapsed time are computed.  What it reports, it prints: the ticker
    count in its first line, the lines of the workers, and a closing
    line; it does so, and closes the pool it opened, whatever happens to
    the individual tickers. *)
Theorem concurrent_backfill_reports_by_printing
    (fuel : nat) (tickers : list string) (start_date end_date : date)
    (interval : Z) (exchange : option string)
    (exchange_map : option (gmap string string)) (dry_run : bool)
    (on_conflict : string) (threads : Z) (w : World) :
  enough fuel -> lim_ok w -> leased (db w) = 0 ->
  0 < pool_capacity (env w) -> 0 < threads ->
  let r := concurrent_backfill fuel tickers start_date end_date interval
             exchange exchange_map dry_run on_conflict threads w in
  fst r = Return None /\
  (exists since,
     events (snd r)
     = events w
       ++ [EvPrint ("[ConcurrentBackfill] Starting concurrency for "
                    +:+ py_str (Z.of_nat (length tickers)) +:+ " tickers.")]
       ++ since ++ [closing_print]) /\
  pools_closed (db (snd r)) = pools_closed (db w) + 1.
Proof.
  intros Hf Hl Hz Hcap Ht r.
  destruct (concurrent_backfill_completes fuel tickers start_date end_date
              interval exchange exchange_map dry_run on_conflict threads w
              Hf Hl Hz Hcap Ht) as (w' & since & E & Hev & _ & Hc & _).
  unfold r. rewrite E. simpl. split; [reflexivity|]. split; [|exact Hc].
  unfold opening_prints in Hev.
  eexists (_ :: _ :: since). rewrite Hev. simpl. reflexivity.
Qed.

Lemma concurrent_backfill_reports_by_printing_witness :
  let w := boot (scenario two_bad_answers no_faults (inr []) 8) ∅ ∅ in
  let r := concurrent_backfill plenty ["AAPL"; "MSFT"] (_ymd2ord 2024 1 2)
             (_ymd2ord 2024 1 8) 5 None None false "ignore" MAX_WORKERS w in
  enough plenty /\ lim_ok w /\ leased (db w) = 0 /\
  0 < pool_capacity (env w) /\ 0 < MAX_WORKERS /\
  fst r = Return None /\
  pools_closed (db (snd r)) = pools_closed (db w) + 1.
Proof.
  intros w r.
  assert (H1 : enough plenty) by (vm_compute; reflexivity).
  assert (H2 : lim_ok w) by constructor.
  assert (H3 : leased (db w) = 0) by reflexivity.
  assert (H4 : 0 < pool_capacity (env w)) by reflexivity.
  assert (H5 : 0 < MAX_WORKERS) by reflexivity.
  pose proof (concurrent_backfill_reports_by_printing plenty ["AAPL"; "MSFT"]
                (_ymd2ord 2024 1 2) (_ymd2ord 2024 1 8) 5 None None false
                "ignore" MAX_WORKERS w H1 H2 H3 H4 H5) as (Ha & _ & Hc).
  repeat (split; [assumption|]). exact Hc.
Defined.

(** C8, amended.  The worker count is never compared with the capacity of
    the pool.  The one check there is comes from the thread pool: a count
    of zero or less raises ValueError, after the connection pool has been
    created, which is then closed without any request having been made.
    Every positive count is accepted: a run with as many workers as the
    pool has connections, or more, completes like any other. *)
Theorem worker_count_not_checked_against_pool
    (fuel : nat) (tickers : list string) (start_date end_date : date)
    (interval : Z) (exchange : option string)
    (exchange_map : option (gmap string string)) (dry_run : bool)
    (on_conflict : string) (threads : Z) (w : World) :
  let r := concurrent_backfill fuel tickers start_date end_date interval
             exchange exchange_map dry_run on_conflict threads w in
  (threads <= 0 ->
     fst r = Raise ValueError /\
     List.filter is_get (events (snd r)) = List.filter is_get (events w) /\
     pools_open (db (snd r)) = pools_open (db w) + 1 /\
     pools_closed (db (snd r)) = pools_closed (db w) + 1) /\
  (enough fuel -> lim_ok w -> leased (db w) = 0 ->
   0 < pool_capacity (env w) -> pool_capacity (env w) <= threads ->
     fst r = Return None /\
     pools_open (db (snd r)) = pools_open (db w) + 1 /\
     pools_closed (db (snd r)) = pools_closed (db w) + 1).
Proof.
  intros r. split.
  - intros Ht. unfold r, concurrent_backfill.
    unfold bind, print, MQSDBConnector_init, try_finally, close_all_connections,
      modify, ret, raise.
    rewrite (proj2 (Z.leb_le _ _) Ht). cbn [fst snd].
    split; [reflexivity|]. simpl.
    rewrite !List.filter_app. simpl. rewrite !app_nil_r.
    repeat split; reflexivity.
  - intros Hf Hl Hz Hcap Ht.
    destruct (concurrent_backfill_completes fuel tickers start_date end_date
                interval exchange exchange_map dry_run on_conflict threads w
                Hf Hl Hz Hcap ltac:(lia)) as (w' & since & E & _ & Ho & Hc & _).
    unfold r. rewrite E. simpl. repeat split; assumption.
Qed.

Lemma worker_count_not_checked_against_pool_witness :
  let w := boot (scenario one_bar no_faults (inr []) 8) ∅ ∅ in
  let r := concurrent_backfill plenty ["AAPL"; "MSFT"] (_ymd2ord 2024 1 5)
             (_ymd2ord 2024 1 5) 5 None None false "fail" 64 w in
  enough plenty /\ lim_ok w /\ leased (db w) = 0 /\
  0 < pool_capacity (env w) /\ pool_capacity (env w) <= 64 /\
  fst r = Return None.
Proof.
  intros w r.
  assert (H1 : enough plenty) by (vm_compute; reflexivity).
  assert (H2 : lim_ok w) by constructor.
  assert (H3 : leased (db w) = 0) by reflexivity.
  assert (H4 : 0 < pool_capacity (env w)) by reflexivity.
  assert (H5 : pool_capacity (env w) <= 64) by (vm_compute; discriminate).
  pose proof (proj2 (worker_count_not_checked_against_pool plenty
                ["AAPL"; "MSFT"] (_ymd2ord 2024 1 5) (_ymd2ord 2024 1 5) 5
                None None false "fail" 64 w) H1 H2 H3 H4 H5) as (Ha & _).
  repeat (split; [assumption|]). exact Ha.
Defined.

(* ===================================================================== *)
(** * Further properties of the code *)
(* ===================================================================== *)

(** ** The rate limiter, one caller *)

Lemma sleeps_app (l1 l2 : list event) : sleeps (l1 ++ l2) = sleeps l1 ++ sleeps l2.
Proof. unfold sleeps. apply omap_app. Qed.

Lemma lim_ok_timestamps self w :
  lim_ok w ->
  Z.of_nat (length (timestamps_of self w)) <= RateLimiter.MAX_REQUESTS_PER_MIN.
Proof.
  intros Hl. unfold lim_ok in Hl. unfold timestamps_of.
  destruct (clients w !! self) as [c|] eqn:Ec.
  - rewrite List.Forall_forall in Hl. apply Hl.
    apply list_elem_of_In. eapply list_elem_of_lookup_2. exact Ec.
  - unfold RateLimiter.MAX_REQUESTS_PER_MIN. simpl. lia.
Qed.



(** ** The rate limiter, many callers *)

Section RateLimiterOrder.
Import RateLimiter.

Lemma purge_sublist now ts : sublist (purge now ts) ts.
Proof.
  unfold purge. induction ts as [|t ts IH]; simpl.
  - constructor.
  - destruct (in_window now t); [apply sublist_skip | apply sublist_cons]; exact IH.
Qed.

Lemma StronglySorted_sublist {A} (R : A -> A -> Prop) (l1 l2 : list A) :
  sublist l1 l2 -> StronglySorted R l2 -> StronglySorted R l1.
Proof.
  induction 1 as [|x l1 l2 Hs IH|x l1 l2 Hs IH]; intros H.
  - constructor.
  - apply StronglySorted_inv in H. destruct H as [H1 H2].
    constructor; [apply IH; exact H1|].
    rewrite List.Forall_forall in *. intros y Hy. apply H2.
    apply list_elem_of_In. eapply elem_of_sublist; [|exact Hs].
    apply list_elem_of_In. exact Hy.
  - apply StronglySorted_inv in H. apply IH. tauto.
Qed.

Lemma critical_section_never_no_oldest now ts ts' :
  critical_section now ts <> NoOldest ts'.
Proof.
  unfold critical_section.
  destruct (Z.of_nat (length (purge now ts)) <? MAX_REQUESTS_PER_MIN) eqn:El;
    [discriminate|].
  destruct (purge now ts) eqn:Ep; [|discriminate].
  apply Z.ltb_ge in El. unfold MAX_REQUESTS_PER_MIN in El. simpl in El. lia.
Qed.

Lemma critical_section_timestamps now ts :
  match critical_section now ts with
  | Reserved ts' => ts' = purge now ts ++ [now]
  | MustWait ts' _ => ts' = purge now ts
  | NoOldest ts' => ts' = purge now ts
  end.
Proof.
  unfold critical_section.
  destruct (Z.of_nat (length (purge now ts)) <? MAX_REQUESTS_PER_MIN);
    [reflexivity|].
  destruct (purge now ts); reflexivity.
Qed.

Lemma exec_keeps_order s a s' rest :
  exec s a = Some s' ->
  StronglySorted Qle (request_timestamps s ++ check_times (a :: rest)) ->
  StronglySorted Qle (request_timestamps s' ++ check_times rest).
Proof.
  intros He Hs. destruct a as [t|t|t now|t]; simpl in He.
  - destruct (threads s !! t) as [[| | | |]|]; try discriminate;
      injection He as <-; exact Hs.
  - destruct (threads s !! t) as [[| | | |]|]; try discriminate.
    destruct (lock_holder s); [discriminate|]. injection He as <-. exact Hs.
  - destruct (threads s !! t) as [[| | | |]|]; try discriminate.
    pose proof (critical_section_timestamps now (request_timestamps s)) as Hts.
    cbn [check_times omap] in Hs.
    change (omap _ rest) with (check_times rest) in Hs.
    destruct (critical_section now (request_timestamps s)) as [ts'|ts' w|ts'];
      injection He as <-; cbn [request_timestamps]; subst ts'.
    + rewrite <- app_assoc. simpl. revert Hs.
      apply StronglySorted_sublist. apply sublist_app; [apply purge_sublist|].
      reflexivity.
    + revert Hs. apply StronglySorted_sublist.
      apply sublist_app; [apply purge_sublist|]. apply sublist_cons. reflexivity.
    + revert Hs. apply StronglySorted_sublist.
      apply sublist_app; [apply purge_sublist|]. apply sublist_cons. reflexivity.
  - destruct (threads s !! t) as [[| | | |]|]; try discriminate;
      injection He as <-; exact Hs.
Qed.

Lemma exec_never_fails s a s' :
  exec s a = Some s' ->
  (forall t, threads s !! t <> Some Failed) ->
  forall t, threads s' !! t <> Some Failed.
Proof.
  intros He Hs u. destruct a as [t|t|t now|t]; simpl in He.
  - destruct (threads s !! t) as [[| | | |]|]; try discriminate;
      injection He as <-; simpl;
      (destruct (decide (t = u)) as [->|Hne];
       [rewrite lookup_insert_eq; discriminate
       |rewrite lookup_insert_ne by exact Hne; apply Hs]).
  - destruct (threads s !! t) as [[| | | |]|]; try discriminate.
    destruct (lock_holder s); [discriminate|]. injection He as <-. simpl.
    destruct (decide (t = u)) as [->|Hne];
      [rewrite lookup_insert_eq; discriminate
      |rewrite lookup_insert_ne by exact Hne; apply Hs].
  - destruct (threads s !! t) as [[| | | |]|]; try discriminate.
    pose proof (critical_section_never_no_oldest now (request_timestamps s)) as Hn.
    destruct (critical_section now (request_timestamps s)) as [ts'|ts' w|ts'];
      [| |exfalso; exact (Hn ts' eq_refl)];
      injection He as <-; simpl;
      (destruct (decide (t = u)) as [->|Hne];
       [rewrite lookup_insert_eq; discriminate
       |rewrite lookup_insert_ne by exact Hne; apply Hs]).
  - destruct (threads s !! t) as [[| | | |]|]; try discriminate;
      injection He as <-; simpl;
      (destruct (decide (t = u)) as [->|Hne];
       [rewrite lookup_insert_eq; discriminate
       |rewrite lookup_insert_ne by exact Hne; apply Hs]).
Qed.

(** X2.  With a clock that does not go backwards, the timestamps of an
    instance shared by any number of threads stay in ascending order
    under every interleaving, so [request_timestamps[0]], from which the
    wait is computed, is the oldest request of the window; and no
    thread ever leaves [_check_rate_limit] with an exception. *)
Theorem request_timestamps_stay_sorted
    (ts0 : list Q) (schedule : list action) (s : limiter) :
  StronglySorted Qle (ts0 ++ check_times schedule) ->
  run (initial ts0) schedule = Some s ->
  StronglySorted Qle (request_timestamps s) /\
  (forall oldest rest,
     request_timestamps s = oldest :: rest ->
     Forall (fun t => (oldest <= t)%Q) rest) /\
  (forall t, threads s !! t <> Some Failed).
Proof.
  intros Hs Hr.
  assert (G : forall sched s0,
    StronglySorted Qle (request_timestamps s0 ++ check_times sched) ->
    (forall t, threads s0 !! t <> Some Failed) ->
    run s0 sched = Some s ->
    StronglySorted Qle (request_timestamps s) /\
    (forall t, threads s !! t <> Some Failed)).
  { induction sched as [|a rest IH]; intros s0 H1 H2 H3; simpl in H3.
    - injection H3 as <-. simpl in H1. rewrite app_nil_r in H1. tauto.
    - destruct (exec s0 a) as [s1|] eqn:Ea; [|discriminate].
      apply (IH s1); [| |exact H3].
      + eapply exec_keeps_order; eassumption.
      + eapply exec_never_fails; eassumption. }
  destruct (G schedule (initial ts0)) as [G1 G2]; [exact Hs | | exact Hr |].
  - intros t. simpl. rewrite lookup_empty. discriminate.
  - split; [exact G1|]. split; [|exact G2].
    intros oldest rest E. rewrite E in G1.
    apply StronglySorted_inv in G1. tauto.
Qed.

Lemma request_timestamps_stay_sorted_witness :
  let schedule := [Call 1%nat; Call 2%nat; Enter 2%nat; Check 2%nat 5%Q;
                   Enter 1%nat; Check 1%nat 7%Q] in
  StronglySorted Qle ([1%Q; 2%Q] ++ check_times schedule) /\
  exists s,
    run (initial [1%Q; 2%Q]) schedule = Some s /\
    request_timestamps s = [1%Q; 2%Q; 5%Q; 7%Q] /\
    StronglySorted Qle (request_timestamps s).
Proof.
  intros schedule.
  assert (H1 : StronglySorted Qle ([1%Q; 2%Q] ++ check_times schedule)).
  { simpl. repeat constructor; discriminate. }
  split; [exact H1|].
  destruct (run (initial [1%Q; 2%Q]) schedule) as [s|] eqn:E;
    [|vm_compute in E; discriminate].
  exists s. split; [reflexivity|].
  split; [|exact (proj1 (request_timestamps_stay_sorted _ schedule s H1 E))].
  vm_compute in E. injection E as <-. reflexivity.
Defined.

End RateLimiterOrder.

(** ** The request layer, attempt by attempt *)

Lemma only_waited_refl w : only_waited w w.
Proof. unfold only_waited. tauto. Qed.

Lemma only_waited_trans w1 w2 w3 :
  only_waited w1 w2 -> only_waited w2 w3 -> only_waited w1 w3.
Proof.
  unfold only_waited. intros (A1 & A2 & A3 & A4 & A5 & A6 & A7)
    (B1 & B2 & B3 & B4 & B5 & B6 & B7).
  repeat split; congruence.
Qed.

Lemma only_waited_clock w w' x :
  only_waited w w' -> only_waited w (set_clock x w').
Proof. unfold only_waited. tauto. Qed.

Lemma only_waited_clients w w' ts :
  only_waited w w' -> only_waited w (set_clients ts w').
Proof. unfold only_waited. tauto. Qed.

Lemma only_waited_emit w w' e :
  is_get e = false -> only_waited w w' -> only_waited w (emit e w').
Proof.
  unfold only_waited. intros He (A1 & A2 & A3 & A4 & A5 & A6 & A7).
  repeat split; try assumption; simpl.
  rewrite List.filter_app. simpl. rewrite He, app_nil_r. exact A7.
Qed.

(** The rate limiter makes no request and touches no file. *)
Lemma check_rate_limit_only_waits (fuel : nat) : forall self w,
  only_waited w (snd (_check_rate_limit fuel self w)).
Proof.
  induction fuel as [|fuel IH]; intros self w.
  - apply only_waited_refl.
  - cbn [_check_rate_limit]. unfold bind at 1 2. unfold time_time, gets.
    cbn [fst snd].
    destruct (RateLimiter.critical_section (clock w) (timestamps_of self w))
      as [ts'|ts' wait_time|ts'].
    + unfold store_timestamps, modify. cbn [snd].
      apply only_waited_clients, only_waited_refl.
    + unfold store_timestamps, modify, bind. cbn [fst snd].
      set (w1 := set_clients _ w).
      assert (H1 : only_waited w w1)
        by apply only_waited_clients, only_waited_refl.
      destruct (Qltb 0 wait_time); unfold log, time_sleep, modify; cbn [fst snd].
      * eapply only_waited_trans; [|apply IH].
        apply only_waited_emit; [reflexivity|]. apply only_waited_clock.
        apply only_waited_emit; [reflexivity|]. exact H1.
      * eapply only_waited_trans; [|apply IH].
        apply only_waited_emit; [reflexivity|]. apply only_waited_clock.
        exact H1.
    + unfold store_timestamps, modify, bind, raise. cbn [fst snd].
      apply only_waited_clients, only_waited_refl.
Qed.

(** With enough iterations the rate limiter returns, keeping the bound on
    every instance. *)
Lemma check_rate_limit_granted fuel self w :
  enough fuel -> lim_ok w ->
  exists w1,
    _check_rate_limit fuel self w = (Return tt, w1) /\
    lim_ok w1 /\ only_waited w w1.
Proof.
  intros Hf Hl.
  pose proof (check_rate_limit_returns (request_inv_stable (env w)) fuel self w
                (conj eq_refl Hl)) as [[_ H1] H2].
  pose proof (check_rate_limit_only_waits fuel self w) as H3.
  destruct (_check_rate_limit fuel self w) as [r w1] eqn:E. simpl in *.
  exists w1. rewrite H2; [tauto|].
  pose proof (purge_length_le (clock w) (timestamps_of self w)).
  pose proof (lim_ok_timestamps self w Hl). unfold enough in Hf. lia.
Qed.

(** One attempt, once the rate limiter has granted the slot. *)
Lemma make_request_attempt_after_check fuel self url params attempt w w1 :
  _check_rate_limit fuel self w = (Return tt, w1) ->
  _make_request_attempt fuel self url params attempt w =
  let w2 := emit (EvGet url params) (set_http_calls (S (http_calls w1)) w1) in
  match network (env w1) (http_calls w1) with
  | Response status_code body =>
      if status_code =? 200 then
        match body with
        | Some v => (Return (Some v), w2)
        | None =>
            (Return None,
             slept (inject_Z (5 * attempt))
                   (emit (EvLog WARNING "[FMP API] Request failed") w2))
        end
      else if status_code =? 429 then
        (Return None,
         slept (inject_Z (10 * attempt))
           (emit (EvLog WARNING "[FMP API] Too many requests. Waiting before retrying...")
              (emit (EvLog WARNING "[FMP API] Received a non-200 status") w2)))
      else
        (Return None, emit (EvLog WARNING "[FMP API] Received a non-200 status") w2)
  | Fails e =>
      if isinstance e Cls_Timeout then
        (Return None,
         slept (inject_Z (5 * attempt))
               (emit (EvLog WARNING "[FMP API] Timeout. Retrying...") w2))
      else if isinstance e Cls_ConnectionError then
        (reconnected <- _wait_for_internet fuel None ;;
         _ <- (if negb reconnected
               then log WARNING "[FMP API] Reconnection timeout reached for this attempt."
               else ret tt) ;;
         ret None)
          (emit (EvLog WARNING "[FMP API] Lost internet connection. Waiting for reconnection...") w2)
      else if isinstance e Cls_RequestException then
        (Return None,
         slept (inject_Z (5 * attempt))
               (emit (EvLog WARNING "[FMP API] Request failed") w2))
      else (Raise e, w2)
  end.
Proof.
  intros Hc. unfold _make_request_attempt, try_except. unfold bind at 1.
  rewrite Hc. unfold bind at 1. unfold requests_get. cbv zeta.
  destruct (network (env w1) (http_calls w1)) as [status_code body|e].
  - destruct (status_code =? 200) eqn:E200.
    + destruct body as [v|]; reflexivity.
    + destruct (status_code =? 429); reflexivity.
  - destruct e; reflexivity.
Qed.

Lemma make_request_attempt_retried fuel self url params attempt w :
  enough fuel -> lim_ok w ->
  retried (network (env w) (http_calls w)) = true ->
  exists w',
    _make_request_attempt fuel self url params attempt w = (Return None, w') /\
    lim_ok w' /\ env w' = env w /\ http_calls w' = S (http_calls w).
Proof.
  intros Hf Hl Hr.
  destruct (check_rate_limit_granted fuel self w Hf Hl) as (w1 & Hc & Hl1 & Hw).
  destruct Hw as (He & Hh & _).
  rewrite (make_request_attempt_after_check _ _ _ _ _ _ _ Hc). cbv zeta.
  rewrite He, Hh.
  destruct (network (env w) (http_calls w)) as [status_code body|e];
    cbn [retried] in Hr.
  - destruct (status_code =? 200).
    + destruct body as [v|]; [discriminate|].
      eexists. split; [reflexivity|]. repeat split; assumption.
    + destruct (status_code =? 429);
        (eexists; split; [reflexivity|]; repeat split; assumption).
  - destruct (isinstance e Cls_Timeout).
    + eexists. split; [reflexivity|]. repeat split; assumption.
    + destruct (isinstance e Cls_ConnectionError).
      * cbn [orb negb] in Hr. rewrite andb_false_r in Hr. discriminate.
      * cbn [orb negb] in Hr. rewrite andb_true_r in Hr. rewrite Hr.
        eexists. split; [reflexivity|]. repeat split; assumption.
Qed.

Lemma make_request_attempt_answered fuel self url params attempt w v :
  enough fuel -> lim_ok w ->
  network (env w) (http_calls w) = Response 200 (Some v) ->
  exists w',
    _make_request_attempt fuel self url params attempt w = (Return (Some v), w') /\
    lim_ok w' /\ env w' = env w /\ http_calls w' = S (http_calls w).
Proof.
  intros Hf Hl Hr.
  destruct (check_rate_limit_granted fuel self w Hf Hl) as (w1 & Hc & Hl1 & Hw).
  destruct Hw as (He & Hh & _).
  rewrite (make_request_attempt_after_check _ _ _ _ _ _ _ Hc). cbv zeta.
  rewrite He, Hh, Hr. simpl.
  eexists. split; [reflexivity|]. repeat split; assumption.
Qed.

Lemma make_request_from_first_ok fuel self url params v :
  enough fuel ->
  forall (k : nat) attempts w,
  (k < length attempts)%nat -> lim_ok w ->
  (forall i, (i < k)%nat ->
     retried (network (env w) (http_calls w + i)) = true) ->
  network (env w) (http_calls w + k) = Response 200 (Some v) ->
  exists w',
    _make_request_from fuel self url params attempts w = (Return v, w') /\
    http_calls w' = (http_calls w + k + 1)%nat.
Proof.
  intros Hf. induction k as [|k IH]; intros attempts w Hk Hl Hretry Hok;
    destruct attempts as [|attempt rest]; simpl in Hk; try lia.
  - rewrite Nat.add_0_r in Hok.
    destruct (make_request_attempt_answered fuel self url params attempt w v
                Hf Hl Hok) as (w' & E & _ & _ & Hh).
    exists w'. cbn [_make_request_from]. unfold bind. rewrite E.
    split; [reflexivity | lia].
  - assert (H0 : retried (network (env w) (http_calls w)) = true).
    { rewrite <- (Nat.add_0_r (http_calls w)). apply Hretry. lia. }
    destruct (make_request_attempt_retried fuel self url params attempt w
                Hf Hl H0) as (w1 & E & Hl1 & He & Hh).
    destruct (IH rest w1) as (w' & E' & Hh'); [lia | exact Hl1 | | |].
    + intros i Hi. rewrite He, Hh.
      replace (S (http_calls w) + i)%nat with (http_calls w + S i)%nat by lia.
      apply Hretry. lia.
    + rewrite He, Hh.
      replace (S (http_calls w) + k)%nat with (http_calls w + S k)%nat by lia.
      exact Hok.
    + exists w'. cbn [_make_request_from]. unfold bind at 1. rewrite E.
      split; [exact E' | lia].
Qed.

(** X3.  [_make_request] returns the body of the first answer with status
    200, when that answer comes within the [MAX_RETRIES] attempts and every
    earlier attempt ended with another status, an unreadable body, a
    timeout or another request error that is not a connection error; it
    then has made exactly one request per attempt. *)
Theorem make_request_returns_first_ok
    (fuel self : nat) (url : string) (params : list (string * string))
    (w : World) (k : nat) (v : json) :
  enough fuel -> lim_ok w -> (Z.of_nat k < MAX_RETRIES) ->
  (forall i, (i < k)%nat ->
     retried (network (env w) (http_calls w + i)) = true) ->
  network (env w) (http_calls w + k) = Response 200 (Some v) ->
  let r := _make_request fuel self url params w in
  fst r = Return v /\ http_calls (snd r) = (http_calls w + k + 1)%nat.
Proof.
  intros Hf Hl Hk Hretry Hok r.
  destruct (make_request_from_first_ok fuel self url params v Hf k
              attempts_range w) as (w' & E & Hh);
    [ unfold MAX_RETRIES in Hk; vm_compute length; lia
    | exact Hl | exact Hretry | exact Hok | ].
  unfold r, _make_request. rewrite E. split; [reflexivity | exact Hh].
Qed.

Lemma make_request_returns_first_ok_witness :
  let w := one_client (scenario third_time_lucky no_faults (inr []) 8) in
  let quote := JList [JDict [("symbol", JStr "AAPL"); ("price", JNum 187)]] in
  enough plenty /\ lim_ok w /\ Z.of_nat 2 < MAX_RETRIES /\
  (forall i, (i < 2)%nat ->
     retried (network (env w) (http_calls w + i)) = true) /\
  network (env w) (http_calls w + 2) = Response 200 (Some quote) /\
  fst (_make_request plenty 0 "https://example.test/quote" [] w) = Return quote /\
  http_calls (snd (_make_request plenty 0 "https://example.test/quote" [] w))
  = 3%nat.
Proof.
  intros w quote.
  assert (H1 : enough plenty) by (vm_compute; reflexivity).
  assert (H2 : lim_ok w).
  { unfold lim_ok. vm_compute clients. repeat constructor. discriminate. }
  assert (H3 : Z.of_nat 2 < MAX_RETRIES) by reflexivity.
  assert (H4 : forall i, (i < 2)%nat ->
            retried (network (env w) (http_calls w + i)) = true).
  { intros [|[|i]] Hi; [reflexivity | reflexivity | lia]. }
  assert (H5 : network (env w) (http_calls w + 2) = Response 200 (Some quote))
    by reflexivity.
  split; [exact H1|]. split; [exact H2|]. split; [exact H3|].
  split; [exact H4|]. split; [exact H5|].
  exact (make_request_returns_first_ok plenty 0 "https://example.test/quote" []
           w 2 quote H1 H2 H3 H4 H5).
Defined.

(** ** The request budget *)

Lemma requests_made_app (l1 l2 : list event) :
  requests_made (l1 ++ l2) = (requests_made l1 + requests_made l2)%nat.
Proof. unfold requests_made. rewrite List.filter_app, length_app. reflexivity. Qed.

Lemma requests_made_filter (l : list event) :
  requests_made l = requests_made (List.filter is_get l).
Proof.
  unfold requests_made. induction l as [|e l IH]; [reflexivity|].
  simpl. destruct (is_get e) eqn:E; simpl; [rewrite E; simpl|];
    [destruct (is_probe e); simpl; congruence | exact IH].
Qed.

Lemma only_waited_requests_made w w' :
  only_waited w w' -> requests_made (events w') = requests_made (events w).
Proof.
  intros (_ & _ & _ & _ & _ & _ & H).
  rewrite (requests_made_filter (events w')), H. symmetry.
  apply requests_made_filter.
Qed.

Lemma requests_made_emit e w :
  requests_made (events (emit e w))
  = (requests_made (events w)
     + (if is_get e && negb (is_probe e) then 1 else 0))%nat.
Proof.
  cbn [events emit]. rewrite requests_made_app. unfold requests_made at 2.
  cbn [List.filter]. destruct (is_get e && negb (is_probe e)); reflexivity.
Qed.

Section Budget.

Lemma costs_ret {A} (a : A) : costs (ret a) 0.
Proof. intros w. simpl. lia. Qed.

Lemma costs_raise {A} (e : exn) : costs (@raise A e) 0.
Proof. intros w. simpl. lia. Qed.

Lemma costs_gets {A} (f : World -> A) : costs (gets f) 0.
Proof. intros w. simpl. lia. Qed.

Lemma costs_weaken {A} (c : M A) (n m : nat) :
  (n <= m)%nat -> costs c n -> costs c m.
Proof. intros Hnm H w. specialize (H w). lia. Qed.

Lemma costs_bind {A B} (c : M A) (k : A -> M B) (n m : nat) :
  costs c n -> (forall a, costs (k a) m) -> costs (bind c k) (n + m).
Proof.
  intros Hc Hk w. unfold bind. specialize (Hc w).
  destruct (c w) as [[a|e|] w1]; simpl in *; [|lia|lia].
  specialize (Hk a w1). lia.
Qed.

Lemma costs_try_except {A} (c : M A) (handler : exn -> M A) (n m : nat) :
  costs c n -> (forall e, costs (handler e) m) ->
  costs (try_except c handler) (n + m).
Proof.
  intros Hc Hh w. unfold try_except. specialize (Hc w).
  destruct (c w) as [[a|e|] w1]; simpl in *; [lia| |lia].
  specialize (Hh e w1). lia.
Qed.

Lemma costs_quiet {A} (c : M A) :
  (forall w, only_waited w (snd (c w))) -> costs c 0.
Proof.
  intros H w. rewrite (only_waited_requests_made _ _ (H w)). lia.
Qed.

Lemma costs_log lvl msg : costs (log lvl msg) 0.
Proof.
  apply costs_quiet. intros w. apply only_waited_emit; [reflexivity|].
  apply only_waited_refl.
Qed.

Lemma costs_time_sleep seconds : costs (time_sleep seconds) 0.
Proof.
  apply costs_quiet. intros w. apply only_waited_emit; [reflexivity|].
  apply only_waited_clock, only_waited_refl.
Qed.

Lemma costs_check_rate_limit fuel self : costs (_check_rate_limit fuel self) 0.
Proof. apply costs_quiet. apply check_rate_limit_only_waits. Qed.

Lemma costs_requests_get url params : costs (requests_get url params) 1.
Proof.
  intros w. unfold requests_get.
  destruct (network (env w) (http_calls w)); cbn [fst snd];
    rewrite requests_made_emit;
    destruct (is_get (EvGet url params) && negb (is_probe (EvGet url params)));
    cbn [events set_http_calls]; lia.
Qed.

(** The connectivity probes are not charged to the budget. *)
Lemma costs_wait_for_internet_loop fuel :
  forall start_time max_wait_seconds,
  costs (_wait_for_internet_loop fuel start_time max_wait_seconds) 0.
Proof.
  induction fuel as [|fuel IH]; intros start_time max_wait_seconds w.
  - simpl. lia.
  - rewrite wait_for_internet_loop_unfold. cbv zeta.
    assert (Hp : forall w0 : World,
      requests_made (events (emit (EvGet "https://www.google.com" []) w0))
      = requests_made (events w0)).
    { intros w0. rewrite requests_made_emit. simpl. lia. }
    assert (Hl : forall lvl msg (w0 : World),
      requests_made (events (emit (EvLog lvl msg) w0))
      = requests_made (events w0)).
    { intros lvl msg w0. rewrite requests_made_emit. simpl. lia. }
    assert (Hs : forall seconds (w0 : World),
      requests_made (events (emit (EvSleep seconds) w0))
      = requests_made (events w0)).
    { intros seconds w0. rewrite requests_made_emit. simpl. lia. }
    destruct (network (env w) (http_calls w)) as [status body|e].
    + cbn [fst snd]. rewrite Hl, Hp. cbn [events set_http_calls]. lia.
    + destruct (isinstance e Cls_ConnectionError).
      * destruct (Qle_bool max_wait_seconds (clock w - start_time)).
        -- cbn [fst snd]. rewrite Hl, Hp. cbn [events set_http_calls]. lia.
        -- etransitivity; [apply IH|]. rewrite Hs. cbn [events set_clock].
           rewrite Hl, Hp. cbn [events set_http_calls]. lia.
      * cbn [fst snd]. rewrite Hp. cbn [events set_http_calls]. lia.
Qed.

Lemma costs_wait_for_internet fuel max_wait_seconds :
  costs (_wait_for_internet fuel max_wait_seconds) 0.
Proof.
  unfold _wait_for_internet.
  apply (costs_bind _ _ 0 0); [apply costs_gets|]. intros start_time.
  apply costs_wait_for_internet_loop.
Qed.

Ltac costs_step :=
  lazymatch goal with
  | |- costs (bind _ _) _ => apply (costs_bind _ _ 0 0); [|intros ?]
  | |- costs (ret _) _ => apply costs_ret
  | |- costs (raise _) _ => apply costs_raise
  | |- costs (log _ _) _ => apply costs_log
  | |- costs (time_sleep _) _ => apply costs_time_sleep
  | |- costs (_wait_for_internet _ _) _ => apply costs_wait_for_internet
  | |- costs (if ?b then _ else _) _ => destruct b
  | |- costs (match ?x with _ => _ end) _ => destruct x
  | |- costs (let '(_, _) := ?x in _) _ => destruct x
  end.

Lemma costs_make_request_attempt fuel self url params attempt :
  costs (_make_request_attempt fuel self url params attempt) 1.
Proof.
  unfold _make_request_attempt.
  apply (costs_try_except _ _ 1 0).
  - apply (costs_bind _ _ 0 1); [apply costs_check_rate_limit|]. intros _.
    apply (costs_bind _ _ 1 0); [apply costs_requests_get|]. intros response.
    repeat costs_step.
  - intros e. repeat costs_step.
Qed.

Lemma costs_make_request_from fuel self url params attempts :
  costs (_make_request_from fuel self url params attempts) (length attempts).
Proof.
  induction attempts as [|attempt rest IH]; cbn [_make_request_from length].
  - repeat costs_step.
  - apply (costs_bind _ _ 1 (length rest)); [apply costs_make_request_attempt|].
    intros [v|]; [|exact IH].
    eapply costs_weaken; [|apply costs_ret]. lia.
Qed.

End Budget.

(** X4.  Whatever the network does and however the call ends,
    [_make_request] sends at most [MAX_RETRIES] (6) requests of its own;
    the probes of [_wait_for_internet] are not counted. *)
Theorem make_request_stays_within_retries
    (fuel self : nat) (url : string) (params : list (string * string))
    (w : World) :
  (Z.of_nat (requests_made (events (snd (_make_request fuel self url params w))))
   <= Z.of_nat (requests_made (events w)) + MAX_RETRIES).
Proof.
  pose proof (costs_make_request_from fuel self url params attempts_range w) as H.
  unfold _make_request. change (length attempts_range) with 6%nat in H.
  unfold MAX_RETRIES. lia.
Qed.

(** ** Pauses between attempts *)

Lemma check_rate_limit_room fuel self w :
  Z.of_nat (length (timestamps_of self w)) < RateLimiter.MAX_REQUESTS_PER_MIN ->
  _check_rate_limit (S fuel) self w
  = (Return tt,
     set_clients
       (alter (fun c => mkClient (fmp_api_key c)
                          (RateLimiter.purge (clock w) (timestamps_of self w)
                           ++ [clock w]))
              self (clients w)) w).
Proof.
  intros Hroom. cbn [_check_rate_limit]. unfold bind, time_time, gets.
  cbn [fst snd]. unfold RateLimiter.critical_section.
  pose proof (purge_length_le (clock w) (timestamps_of self w)) as Hp.
  destruct (Z.of_nat (length (RateLimiter.purge (clock w) (timestamps_of self w)))
            <? RateLimiter.MAX_REQUESTS_PER_MIN) eqn:E.
  - reflexivity.
  - apply Z.ltb_ge in E. lia.
Qed.

Lemma timestamps_of_store_length self ts w :
  (length (timestamps_of self
     (set_clients (alter (fun c => mkClient (fmp_api_key c) ts) self (clients w)) w))
   <= length ts)%nat.
Proof.
  unfold timestamps_of. cbn [clients set_clients].
  rewrite list_lookup_alter_eq.
  destruct (clients w !! self) as [c|]; simpl; lia.
Qed.

Lemma make_request_attempt_throttled fuel self url params attempt w :
  Z.of_nat (length (timestamps_of self w)) < RateLimiter.MAX_REQUESTS_PER_MIN ->
  (exists body, network (env w) (http_calls w) = Response 429 body) ->
  exists w',
    _make_request_attempt (S fuel) self url params attempt w = (Return None, w') /\
    env w' = env w /\ http_calls w' = S (http_calls w) /\
    sleeps (events w') = sleeps (events w) ++ [inject_Z (10 * attempt)] /\
    clock w' = (clock w + inject_Z (10 * attempt))%Q /\
    (length (timestamps_of self w') <= S (length (timestamps_of self w)))%nat.
Proof.
  intros Hroom [body Hn].
  rewrite (make_request_attempt_after_check _ _ _ _ _ _ _
             (check_rate_limit_room fuel self w Hroom)).
  cbv zeta. cbn [env set_clients http_calls]. rewrite Hn.
  change (429 =? 200) with false. change (429 =? 429) with true. cbv iota.
  eexists. split; [reflexivity|].
  split; [reflexivity|]. split; [reflexivity|]. split; [|split].
  - unfold slept. cbn [events emit set_clock set_http_calls set_clients].
    rewrite !sleeps_app. cbn [sleeps omap]. rewrite !app_nil_r. reflexivity.
  - reflexivity.
  - unfold slept.
    change (timestamps_of self (emit ?e ?w0)) with (timestamps_of self w0).
    etransitivity; [apply timestamps_of_store_length|].
    rewrite length_app. cbn [length].
    pose proof (purge_length_le (clock w) (timestamps_of self w)). lia.
Qed.

Lemma make_request_from_throttled fuel self url params :
  forall attempts w,
  Z.of_nat (length (timestamps_of self w)) + Z.of_nat (length attempts)
    <= RateLimiter.MAX_REQUESTS_PER_MIN ->
  (forall i, (i < length attempts)%nat ->
     exists body, network (env w) (http_calls w + i) = Response 429 body) ->
  exists w',
    _make_request_from (S fuel) self url params attempts w = (Return JNull, w') /\
    http_calls w' = (http_calls w + length attempts)%nat /\
    sleeps (events w')
    = sleeps (events w) ++ map (fun attempt => inject_Z (10 * attempt)) attempts /\
    clock w'
    = fold_left (fun t attempt => (t + inject_Z (10 * attempt))%Q) attempts (clock w).
Proof.
  induction attempts as [|attempt rest IH]; intros w Hroom Hn.
  - eexists. split; [reflexivity|]. cbn [length map fold_left].
    split; [cbn; lia|]. split; [|reflexivity].
    cbn [events emit]. rewrite sleeps_app. cbn [sleeps omap].
    rewrite !app_nil_r. reflexivity.
  - cbn [length] in *.
    destruct (make_request_attempt_throttled fuel self url params attempt w)
      as (w1 & E & He & Hh & Hs & Hc & Hlen).
    { lia. }
    { rewrite <- (Nat.add_0_r (http_calls w)). apply Hn. lia. }
    destruct (IH w1) as (w' & E' & Hh' & Hs' & Hc').
    { lia. }
    { intros i Hi. rewrite He, Hh.
      replace (S (http_calls w) + i)%nat with (http_calls w + S i)%nat by lia.
      apply Hn. lia. }
    exists w'. cbn [_make_request_from]. unfold bind at 1. rewrite E.
    split; [exact E'|]. split; [lia|]. split.
    + rewrite Hs', Hs. cbn [map]. rewrite <- app_assoc. reflexivity.
    + rewrite Hc', Hc. reflexivity.
Qed.

(** X5.  Against a provider that answers every attempt with 429,
    [_make_request] pauses 10 seconds times the number of the attempt
    after each of its six requests (10, 20, ..., 60 seconds: the pauses
    grow linearly, 210 seconds in all) and then returns None.  The rate
    limiter adds no pause of its own while the window has room for the
    six requests. *)
Theorem make_request_throttled_pauses
    (fuel self : nat) (url : string) (params : list (string * string))
    (w : World) :
  Z.of_nat (length (timestamps_of self w)) + MAX_RETRIES
    <= RateLimiter.MAX_REQUESTS_PER_MIN ->
  (forall i, (Z.of_nat i < MAX_RETRIES) ->
     exists body, network (env w) (http_calls w + i) = Response 429 body) ->
  let r := _make_request (S fuel) self url params w in
  fst r = Return JNull /\
  http_calls (snd r) = (http_calls w + 6)%nat /\
  sleeps (events (snd r))
  = sleeps (events w) ++ [10%Q; 20%Q; 30%Q; 40%Q; 50%Q; 60%Q] /\
  (clock (snd r) == clock w + 210)%Q.
Proof.
  intros Hroom Hn r.
  destruct (make_request_from_throttled fuel self url params attempts_range w)
    as (w' & E & Hh & Hs & Hc).
  { change (length attempts_range) with 6%nat. unfold MAX_RETRIES in Hroom. lia. }
  { intros i Hi. apply Hn. change (length attempts_range) with 6%nat in Hi.
    unfold MAX_RETRIES. lia. }
  unfold r, _make_request. rewrite E. cbn [fst snd].
  split; [reflexivity|]. split; [exact Hh|]. split; [exact Hs|].
  rewrite Hc.
  change (fold_left (fun t attempt => (t + inject_Z (10 * attempt))%Q)
            attempts_range (clock w))
    with (clock w + 10 + 20 + 30 + 40 + 50 + 60)%Q.
  ring.
Qed.

Lemma make_request_throttled_pauses_witness :
  let w := one_client (scenario throttled no_faults (inr []) 8) in
  let r := _make_request 1 0 "https://example.test/quote" [] w in
  Z.of_nat (length (timestamps_of 0 w)) + MAX_RETRIES
    <= RateLimiter.MAX_REQUESTS_PER_MIN /\
  (forall i, (Z.of_nat i < MAX_RETRIES) ->
     exists body, network (env w) (http_calls w + i) = Response 429 body) /\
  fst r = Return JNull /\
  sleeps (events (snd r)) = [10%Q; 20%Q; 30%Q; 40%Q; 50%Q; 60%Q].
Proof.
  intros w r.
  assert (H1 : Z.of_nat (length (timestamps_of 0 w)) + MAX_RETRIES
               <= RateLimiter.MAX_REQUESTS_PER_MIN) by (vm_compute; discriminate).
  assert (H2 : forall i, (Z.of_nat i < MAX_RETRIES) ->
            exists body, network (env w) (http_calls w + i) = Response 429 body).
  { intros i _. exists None. reflexivity. }
  split; [exact H1|]. split; [exact H2|].
  pose proof (make_request_throttled_pauses 0 0 "https://example.test/quote" []
                w H1 H2) as (E1 & _ & E2 & _).
  split; [exact E1 | exact E2].
Defined.

(** ** Waiting for the connection *)








(** ** Bars *)

Lemma bind_return {A B} (c : M A) (k : A -> M B) (w : World) (b : B) (w' : World) :
  bind c k w = (Return b, w') ->
  exists a w1, c w = (Return a, w1) /\ k a w1 = (Return b, w').
Proof.
  unfold bind. destruct (c w) as [[a|e|] w1]; intros H; try discriminate.
  exists a, w1. split; [reflexivity | exact H].
Qed.

(** X7.  [get_intraday_data] hands its caller either None or a non-empty
    list: an empty list, an error object or any other answer of the
    provider becomes None, which is what makes [backfill_data] fall back
    to the daily endpoint. *)
Theorem get_intraday_data_none_or_bars
    (fuel self : nat) (tickers : tickers_arg) (from_date to_date : string)
    (interval : Z) (w : World) (r : json) (w' : World) :
  get_intraday_data fuel self tickers from_date to_date interval w
    = (Return r, w') ->
  r = JNull \/ exists bar bars, r = JList (bar :: bars).
Proof.
  unfold get_intraday_data. intros H.
  apply bind_return in H. destruct H as (key & w1 & _ & H).
  apply bind_return in H. destruct H as (data & w2 & _ & H).
  destruct (negb (truthy data)).
  - injection H as <- _. left. reflexivity.
  - destruct data as [| | | |[|bar bars]|];
      try (apply bind_return in H; destruct H as (u & w3 & _ & H);
           injection H as <- _; left; reflexivity).
    injection H as <- _. right. exists bar, bars. reflexivity.
Qed.

Lemma get_intraday_data_none_or_bars_witness :
  let w := one_client (scenario one_bar no_faults (inr []) 8) in
  exists r w',
    get_intraday_data plenty 0 (OneTicker "AAPL") "2024-01-05" "2024-01-05" 5 w
      = (Return r, w') /\
    (r = JNull \/ exists bar bars, r = JList (bar :: bars)).
Proof.
  intros w.
  destruct (get_intraday_data plenty 0 (OneTicker "AAPL") "2024-01-05"
              "2024-01-05" 5 w) as [[r|e|] w'] eqn:E;
    [|vm_compute in E; discriminate|vm_compute in E; discriminate].
  exists r, w'. split; [reflexivity|].
  exact (get_intraday_data_none_or_bars plenty 0 (OneTicker "AAPL") "2024-01-05"
           "2024-01-05" 5 w r w' E).
Defined.

Lemma dict_get_set key v fields : dict_get key (dict_set key v fields) = Some v.
Proof.
  induction fields as [|[k v0] rest IH]; simpl.
  - rewrite String.eqb_refl. reflexivity.
  - destruct (String.eqb k key) eqn:E; simpl; rewrite E; [reflexivity | exact IH].
Qed.

Lemma dict_get_set_other key key' v fields :
  key' <> key -> dict_get key' (dict_set key v fields) = dict_get key' fields.
Proof.
  intros Hne. induction fields as [|[k v0] rest IH]; simpl.
  - destruct (String.eqb key key') eqn:E; [|reflexivity].
    apply String.eqb_eq in E. congruence.
  - destruct (String.eqb k key) eqn:E; simpl.
    + apply String.eqb_eq in E. subst k.
      destruct (String.eqb key key') eqn:E'; [|reflexivity].
      apply String.eqb_eq in E'. congruence.
    + destruct (String.eqb k key'); [reflexivity | exact IH].
Qed.

Lemma stamp_records_tags t_symbol records : forall stamped,
  stamp_records t_symbol records = inr stamped ->
  Forall2 (fun record tagged =>
             py_setitem record "ticker" t_symbol = inr tagged /\
             py_getitem tagged "ticker" = inr t_symbol /\
             forall key, key <> "ticker" ->
               py_getitem tagged key = py_getitem record key)
          records stamped.
Proof.
  induction records as [|record rest IH]; intros stamped H; simpl in H.
  - injection H as <-. constructor.
  - destruct (py_setitem record "ticker" t_symbol) as [e|record'] eqn:Es;
      simpl in H; [discriminate|].
    destruct (stamp_records t_symbol rest) as [e|rest'] eqn:Er;
      simpl in H; [discriminate|].
    injection H as <-. constructor; [|apply IH; reflexivity].
    split; [exact Es|].
    destruct record as [| | | | |fields]; try discriminate.
    injection Es as <-. simpl. rewrite dict_get_set. split; [reflexivity|].
    intros key Hk. rewrite dict_get_set_other by exact Hk. reflexivity.
Qed.

(** X8.  The flattening of a multi-ticker answer in [get_historical_data]
    keeps every record of every stock, in order, and tags each with its
    stock's symbol under the key "ticker", leaving the other fields of
    the record as they were. *)
Theorem flatten_stock_list_tags_records (stocks out : list json) :
  flatten_stock_list stocks = inr out ->
  exists groups,
    out = concat groups /\
    Forall2 (fun stock group =>
      exists t_symbol historical records,
        py_getitem stock "symbol" = inr t_symbol /\
        py_getitem stock "historical" = inr historical /\
        py_iter historical = inr records /\
        Forall2 (fun record tagged =>
                   py_setitem record "ticker" t_symbol = inr tagged /\
                   py_getitem tagged "ticker" = inr t_symbol /\
                   forall key, key <> "ticker" ->
                     py_getitem tagged key = py_getitem record key)
                records group)
      stocks groups.
Proof.
  revert out. induction stocks as [|stock rest IH]; intros out H; simpl in H.
  - injection H as <-. exists []. split; [reflexivity | constructor].
  - destruct (py_getitem stock "symbol") as [e|t_symbol] eqn:E1;
      simpl in H; [discriminate|].
    destruct (py_getitem stock "historical") as [e|historical] eqn:E2;
      simpl in H; [discriminate|].
    destruct (py_iter historical) as [e|records] eqn:E3;
      simpl in H; [discriminate|].
    destruct (stamp_records t_symbol records) as [e|stamped] eqn:E4;
      simpl in H; [discriminate|].
    destruct (flatten_stock_list rest) as [e|rest'] eqn:E5;
      simpl in H; [discriminate|].
    injection H as <-.
    destruct (IH rest' eq_refl) as (groups & -> & HF).
    exists (stamped :: groups). split; [reflexivity|].
    constructor; [|exact HF].
    exists t_symbol, historical, records. repeat split; try assumption.
    apply stamp_records_tags. exact E4.
Qed.

Lemma flatten_stock_list_tags_records_witness :
  exists out,
    flatten_stock_list two_stock_payload = inr out /\
    length out = 3%nat /\
    map (fun r => py_getitem r "ticker") out
    = [inr (JStr "AAPL"); inr (JStr "AAPL"); inr (JStr "MSFT")] /\
    exists groups, out = concat groups /\ length groups = 2%nat.
Proof.
  destruct (flatten_stock_list two_stock_payload) as [e|out] eqn:E;
    [vm_compute in E; discriminate|].
  exists out. split; [reflexivity|].
  destruct (flatten_stock_list_tags_records two_stock_payload out E)
    as (groups & Hc & HF).
  split; [|split].
  - vm_compute in E. injection E as <-. reflexivity.
  - vm_compute in E. injection E as <-. reflexivity.
  - exists groups. split; [exact Hc|].
    apply Forall2_length in HF. rewrite <- HF. reflexivity.
Defined.

(** ** Side files: what every write guarantees *)

Ltac io_frame Hne Hp1 Hp2 :=
  cbn [side_files emit set_side_files set_io_calls];
  repeat first
    [ rewrite lookup_insert_ne
        by first [exact Hne | apply not_eq_sym; exact Hp1 | apply not_eq_sym; exact Hp2]
    | rewrite lookup_alter_ne
        by first [exact Hne | apply not_eq_sym; exact Hp1 | apply not_eq_sym; exact Hp2]
    | rewrite lookup_delete_ne
        by first [exact Hne | apply not_eq_sym; exact Hp1 | apply not_eq_sym; exact Hp2] ];
  reflexivity.

Ltac io_all Hne :=
  eexists _, _; split; [reflexivity|]; split;
  [ io_lookups Hne; reflexivity
  | split;
    [ let Hb := fresh "Hb" in
      intros Hb;
      first [ discriminate Hb
            | cbn [side_files emit set_side_files set_io_calls];
              rewrite ?lookup_insert_ne by (apply not_eq_sym; exact Hne);
              rewrite ?lookup_delete_eq; reflexivity ]
    | let p := fresh "p" in let Hp1 := fresh "Hp1" in let Hp2 := fresh "Hp2" in
      intros p Hp1 Hp2; io_frame Hne Hp1 Hp2 ] ].

Lemma write_json_atomic_effect
    (target_path : Path) (tickers : list string) (label : string) (w : World) :
  let temp : Path :=
    (fst target_path,
     "." +:+ snd target_path +:+ "." +:+ tmp_token (env w) (S (io_calls w))
       +:+ ".tmp") in
  exists b w',
    _write_json_atomic target_path tickers label w = (Return b, w') /\
    side_files w' !! target_path
    = (if b then Some (mkFile (JsonArray tickers) None)
       else side_files w !! target_path) /\
    (b = true -> side_files w' !! temp = None) /\
    (forall p, p <> target_path -> p <> temp ->
       side_files w' !! p = side_files w !! p).
Proof.
  pose proof (temp_name_differs target_path (tmp_token (env w) (S (io_calls w))))
    as Hne.
  cbv zeta. io_red.
  io_case; [io_all Hne|].
  cbn [env io_calls emit set_side_files set_io_calls side_files] in *.
  set (temp := (fst target_path, _)) in *.
  io_case; [io_all Hne|].
  io_case; [io_case; io_all Hne|].
  io_case; [io_case; io_all Hne|].
  io_case; [io_case; io_all Hne|].
  io_case.
  { io_present Hne. io_case; io_all Hne. }
  io_present Hne.
  io_case.
  { io_present Hne. io_case; io_all Hne. }
  io_all Hne.
Qed.

(** X9.  [_write_json_atomic] is all or nothing, whichever file-system
    calls fail: it never raises; when it returns True the target holds
    the complete new list and the temporary file is gone; when it returns
    False the target is exactly as it was before the call; and no file
    other than the target and the temporary file is touched. *)
Theorem write_json_atomic_all_or_nothing
    (target_path : Path) (tickers : list string) (label : string) (w : World) :
  let temp : Path :=
    (fst target_path,
     "." +:+ snd target_path +:+ "." +:+ tmp_token (env w) (S (io_calls w))
       +:+ ".tmp") in
  exists b w',
    _write_json_atomic target_path tickers label w = (Return b, w') /\
    side_files w' !! target_path
    = (if b then Some (mkFile (JsonArray tickers) None)
       else side_files w !! target_path) /\
    (b = true -> side_files w' !! temp = None) /\
    (forall p, p <> target_path -> p <> temp ->
       side_files w' !! p = side_files w !! p).
Proof. exact (write_json_atomic_effect target_path tickers label w). Qed.

(** ** Universe fetches *)






(** ** The crypto list *)

Lemma omap_cons {A B} (f : A -> option B) (x : A) (l : list A) :
  omap f (x :: l)
  = match f x with
    | Some y => y :: omap f l
    | None => omap f l
    end.
Proof. reflexivity. Qed.

Lemma dedupe_spec (symbols : list string) : forall (seen : gset string),
  NoDup (dedupe seen symbols) /\
  forall s, s ∈ dedupe seen symbols <-> s ∈ symbols /\ s ∉ seen.
Proof.
  induction symbols as [|symbol rest IH]; intros seen; simpl.
  - split; [constructor|]. intros s. rewrite elem_of_nil. tauto.
  - destruct (bool_decide (symbol ∈ seen)) eqn:E.
    + apply bool_decide_eq_true in E. destruct (IH seen) as [H1 H2].
      split; [exact H1|]. intros s. rewrite H2, elem_of_cons.
      split; [tauto|]. intros [[->|H] Hs]; tauto.
    + apply bool_decide_eq_false in E.
      destruct (IH ({[symbol]} ∪ seen)) as [H1 H2]. split.
      * constructor; [|exact H1]. rewrite H2.
        rewrite elem_of_union, elem_of_singleton. tauto.
      * intros s. rewrite !elem_of_cons, H2.
        rewrite elem_of_union, elem_of_singleton.
        destruct (decide (s = symbol)) as [->|Hne]; tauto.
Qed.

Lemma dedupe_filter (p : string -> bool) (symbols : list string) :
  forall seen seen' : gset string,
  (forall s, p s = true -> (s ∈ seen <-> s ∈ seen')) ->
  dedupe seen (List.filter p symbols) = List.filter p (dedupe seen' symbols).
Proof.
  induction symbols as [|symbol rest IH]; intros seen seen' Hs; simpl;
    [reflexivity|].
  destruct (p symbol) eqn:Ep.
  - simpl. specialize (Hs symbol Ep) as Hsym.
    destruct (bool_decide (symbol ∈ seen)) eqn:E1.
    + apply bool_decide_eq_true in E1.
      rewrite bool_decide_eq_true_2 by tauto. apply IH. exact Hs.
    + apply bool_decide_eq_false in E1.
      rewrite bool_decide_eq_false_2 by tauto. simpl. rewrite Ep. f_equal.
      apply IH. intros s Hp. specialize (Hs s Hp).
      rewrite !elem_of_union. tauto.
  - destruct (bool_decide (symbol ∈ seen')).
    + apply IH. exact Hs.
    + simpl. rewrite Ep. apply IH. intros s Hp. specialize (Hs s Hp).
      assert (s <> symbol) by congruence.
      rewrite elem_of_union, elem_of_singleton. tauto.
Qed.

Lemma dedupe_sublist (symbols : list string) : forall seen : gset string,
  sublist (dedupe seen symbols) symbols.
Proof.
  induction symbols as [|s l IH]; intros seen; simpl.
  - constructor.
  - destruct (bool_decide (s ∈ seen)); [apply sublist_cons | apply sublist_skip];
      apply IH.
Qed.

Lemma symbol_of_text (ticker : json) :
  symbol_of ticker
  = match text_symbol ticker with
    | Some s => if strip_nonempty s then Some s else None
    | None => None
    end.
Proof.
  unfold symbol_of, text_symbol. destruct ticker; try reflexivity.
  destruct (dict_get "symbol" fields) as [[| | | | |]|]; reflexivity.
Qed.

Lemma omap_symbol_of_filter (tickers : list json) :
  omap symbol_of tickers = List.filter strip_nonempty (omap text_symbol tickers).
Proof.
  induction tickers as [|ticker rest IH]; [reflexivity|].
  rewrite !omap_cons, symbol_of_text.
  destruct (text_symbol ticker) as [s|]; [|exact IH].
  cbn [List.filter]. destruct (strip_nonempty s); [f_equal|]; exact IH.
Qed.

Lemma crypto_symbols_dedupe (fmp_tickers : list json) :
  forall (seen : gset string) symbols,
  crypto_symbols seen fmp_tickers = inr symbols ->
  symbols = dedupe seen (omap text_symbol fmp_tickers).
Proof.
  induction fmp_tickers as [|ticker rest IH]; intros seen symbols H; simpl in H.
  - injection H as <-. reflexivity.
  - unfold crypto_symbol in H. rewrite omap_cons. unfold text_symbol at 1.
    destruct ticker as [| | | | |fields]; try discriminate.
    destruct (dict_get "symbol" fields) as [[| | |s| |]|]; simpl in H;
      try (apply IH; exact H).
    cbn [dedupe].
    destruct (bool_decide (s ∈ seen)); [apply IH; exact H|].
    destruct (crypto_symbols ({[s]} ∪ seen) rest) as [e|rest'] eqn:E;
      simpl in H; [discriminate|].
    injection H as <-. f_equal. apply IH. exact E.
Qed.

(** The four file-system calls of [save_crypto_details], none failing. *)
Lemma save_crypto_details_writes crypto_tickers log_summary w :
  (forall n, io_fault (env w) n = false) ->
  exists w',
    save_crypto_details crypto_tickers log_summary w = (Return tt, w') /\
    side_files w' !! CRYPTO_TICKERS_PATH
    = Some (mkFile (JsonArray (dedupe ∅ (omap symbol_of crypto_tickers))) None) /\
    forall p, p <> CRYPTO_TICKERS_PATH -> side_files w' !! p = side_files w !! p.
Proof.
  intros Hok. unfold save_crypto_details, with_file, try_finally, open_w,
    mkdir_parents, json_dump, file_close.
  unfold bind at 1. rewrite io_call_ok by apply Hok.
  unfold bind at 1. unfold bind at 1. unfold bind at 1.
  rewrite io_call_ok by apply Hok. unfold ret at 1.
  rewrite io_call_ok by apply Hok.
  unfold bind at 1. rewrite io_call_ok by apply Hok. unfold ret at 1.
  destruct log_summary; unfold log, modify, ret;
    (eexists; split; [reflexivity|]; split;
     [ cbn [side_files emit set_side_files set_io_calls];
       rewrite lookup_alter_eq, lookup_alter_eq, lookup_insert_eq; reflexivity
     | intros p Hp; cbn [side_files emit set_side_files set_io_calls];
       rewrite !lookup_alter_ne, lookup_insert_ne by (apply not_eq_sym; exact Hp);
       reflexivity ]).
Qed.



(** X12.  What [get_crypto_tickers] returns and what it persists agree:
    when no file-system call fails and it returns a non-empty list, the
    list has no duplicates and crypto_tickers.json holds exactly the
    returned symbols that are not blank, in the same order. *)
Theorem get_crypto_tickers_persists_returned
    (w : World) (fmp_tickers : list json) (symbols : list string) (w' : World) :
  crypto_feed (env w) = inr fmp_tickers ->
  (forall n, io_fault (env w) n = false) ->
  get_crypto_tickers w = (Return symbols, w') ->
  symbols <> [] ->
  NoDup symbols /\
  side_files w' !! CRYPTO_TICKERS_PATH
  = Some (mkFile (JsonArray (List.filter strip_nonempty symbols)) None).
Proof.
  intros Hfeed Hok H Hne. unfold get_crypto_tickers in H.
  unfold bind at 1, gets in H. cbn [fst snd] in H. rewrite Hfeed in H.
  unfold bind at 1 in H.
  destruct (crypto_symbols ∅ fmp_tickers) as [e|out] eqn:Es;
    cbn [lift raise ret] in H; [discriminate|].
  pose proof (crypto_symbols_dedupe fmp_tickers ∅ out Es) as Hout.
  destruct out as [|s rest].
  { unfold bind, log, modify in H. cbn in H. injection H as <- _.
    contradiction. }
  unfold bind at 1 in H.
  destruct (save_crypto_details_writes fmp_tickers false w Hok)
    as (w1 & E & Hf & _).
  rewrite E in H. unfold ret in H. injection H as <- <-.
  split.
  - rewrite Hout. apply dedupe_spec.
  - rewrite Hf, Hout. do 3 f_equal. rewrite omap_symbol_of_filter.
    apply dedupe_filter. tauto.
Qed.

Lemma get_crypto_tickers_persists_returned_witness :
  let w := boot (scenario no_bars no_faults (inr crypto_records) 8) ∅ ∅ in
  crypto_feed (env w) = inr crypto_records /\
  (forall n, io_fault (env w) n = false) /\
  fst (get_crypto_tickers w) = Return ["BTCUSD"; "ETHUSD"] /\
  side_files (snd (get_crypto_tickers w)) !! CRYPTO_TICKERS_PATH
  = Some (mkFile (JsonArray ["BTCUSD"; "ETHUSD"]) None).
Proof.
  intros w.
  assert (H1 : crypto_feed (env w) = inr crypto_records) by reflexivity.
  assert (H2 : forall n, io_fault (env w) n = false) by reflexivity.
  assert (Hr : fst (get_crypto_tickers w) = Return ["BTCUSD"; "ETHUSD"])
    by (vm_compute; reflexivity).
  assert (H3 : get_crypto_tickers w
               = (Return ["BTCUSD"; "ETHUSD"], snd (get_crypto_tickers w))).
  { rewrite <- Hr. apply surjective_pairing. }
  assert (H4 : ["BTCUSD"; "ETHUSD"] <> @nil string) by discriminate.
  split; [exact H1|]. split; [exact H2|]. split; [exact Hr|].
  exact (proj2 (get_crypto_tickers_persists_returned w crypto_records
                  ["BTCUSD"; "ETHUSD"] (snd (get_crypto_tickers w))
                  H1 H2 H3 H4)).
Defined.

(** ** Frames *)

Lemma sequence_res_length {A} (l : list (pyres A)) : forall out,
  sequence_res l = inr out -> length out = length l.
Proof.
  induction l as [|r rest IH]; intros out H; simpl in H.
  - injection H as <-. reflexivity.
  - destruct r as [e|a]; simpl in H; [discriminate|].
    destruct (sequence_res rest) as [e|rest'] eqn:E; simpl in H; [discriminate|].
    injection H as <-. simpl. f_equal. apply IH. reflexivity.
Qed.

Lemma df_column_length c df cells :
  df_column c df = inr cells -> length cells = length (rows df).
Proof.
  unfold df_column. destruct (label_index c (columns df)); [|discriminate].
  intros [= <-]. apply length_map.
Qed.

Lemma df_assign_rows_length c values df :
  length values = length (rows df) ->
  length (rows (df_assign c values df)) = length (rows df).
Proof.
  intros H. unfold df_assign.
  destruct (label_index c (columns df)); simpl; rewrite length_zip_with; lia.
Qed.

Lemma df_select_shape labels df d :
  df_select labels df = inr d ->
  columns d = labels /\ length (rows d) = length (rows df).
Proof.
  unfold df_select.
  destruct (sequence_res (map (fun c => df_column c df) labels)) as [e|cols];
    simpl; [discriminate|].
  intros [= <-]. simpl. split; [reflexivity|]. apply length_imap.
Qed.

Lemma prepare_data_frame
    (df_chunk : DataFrame) (ticker : string) (w : World)
    (df : DataFrame) (w' : World) :
  prepare_data df_chunk ticker w = (Return df, w') ->
  columns df = column_order /\
  length (rows df) = length (rows df_chunk) /\
  has_label "date" (columns df_chunk) = true /\
  w' = w.
Proof.
  unfold prepare_data. intros H.
  unfold bind at 1, gets in H. cbn [fst snd] in H.
  unfold bind at 1, gets in H. cbn [fst snd] in H.
  unfold bind at 1 in H.
  destruct (has_label "date" (columns df_chunk)) eqn:Ed.
  - destruct (1 <? count_label "datetime"
                     (columns (df_rename "date" "datetime" df_chunk)))%nat;
      [discriminate|].
    unfold bind at 1 in H.
    destruct (df_column "datetime" (df_rename "date" "datetime" df_chunk))
      as [e|cells] eqn:Ec; cbn [lift raise ret] in H; [discriminate|].
    unfold bind at 1 in H.
    destruct (to_datetime_column (to_datetime (env w)) cells) as [e|parsed] eqn:Ep;
      cbn [lift raise ret] in H; [discriminate|].
    cbn [ret] in H. unfold bind at 1 in H.
    match type of H with context [df_column "datetime" ?d] =>
      destruct (df_column "datetime" d) as [e|cells2] eqn:Ec2 end;
      cbn [lift raise ret negb] in H; [discriminate|].
    match type of H with context [df_select column_order ?d] =>
      destruct (df_select column_order d) as [e|d3] eqn:Es end;
      cbn [lift raise ret] in H; [discriminate|].
    injection H as <- <-.
    apply df_select_shape in Es. destruct Es as [Hc Hr].
    split; [exact Hc|]. split; [|split; reflexivity].
    rewrite Hr.
    apply df_column_length in Ec. apply df_column_length in Ec2.
    apply sequence_res_length in Ep. rewrite length_map in Ep.
    assert (L1 : length (rows (df_assign "datetime" parsed
                                 (df_rename "date" "datetime" df_chunk)))
                 = length (rows df_chunk)).
    { rewrite df_assign_rows_length; [reflexivity|]. simpl. simpl in Ec. lia. }
    rewrite df_assign_rows_length.
    + rewrite df_assign_rows_length; [exact L1|]. apply length_map.
    + rewrite length_map. exact Ec2.
  - cbn [ret] in H. unfold bind at 1 in H.
    match type of H with context [df_column "datetime" ?d] =>
      destruct (df_column "datetime" d) as [e|cells2] end;
      cbn [lift raise ret negb] in H; discriminate.
Qed.

(** X13.  [prepare_data] either raises or returns a frame with exactly
    the columns ticker, date, datetime, open, high, low, close, volume,
    in this order, and as many rows as the chunk it was given; it returns
    only for a chunk that has a "date" column, and changes nothing else. *)
Theorem prepare_data_shape
    (df_chunk : DataFrame) (ticker : string) (w : World)
    (df : DataFrame) (w' : World) :
  prepare_data df_chunk ticker w = (Return df, w') ->
  columns df
  = ["ticker"; "date"; "datetime"; "open"; "high"; "low"; "close"; "volume"] /\
  length (rows df) = length (rows df_chunk) /\
  has_label "date" (columns df_chunk) = true /\
  w' = w.
Proof. apply prepare_data_frame. Qed.

Lemma prepare_data_shape_witness :
  let w := one_client (scenario one_bar no_faults (inr []) 8) in
  let chunk := pd_DataFrame [bar_at "2024-01-05 09:30:00";
                             bar_at "2024-01-05 09:35:00"] in
  exists df,
    prepare_data chunk "AAPL" w = (Return df, w) /\
    columns df = column_order /\ length (rows df) = 2%nat.
Proof.
  intros w chunk.
  destruct (prepare_data chunk "AAPL" w) as [[df|e|] w'] eqn:E;
    [|vm_compute in E; discriminate|vm_compute in E; discriminate].
  destruct (prepare_data_shape chunk "AAPL" w df w' E) as (H1 & H2 & _ & ->).
  exists df. split; [reflexivity|]. split; [exact H1 | exact H2].
Defined.

(** ** What a run of [backfill_data] leaves alone *)

Section FetchRun.
Context {I : World -> Prop} {out : option string} (HI : fetch_stable out I).
Context (fuel : nat).

Let Hs : false = true -> enough fuel /\ forall w, I w -> lim_ok w.
Proof. discriminate. Qed.

Lemma fetch_emit (e : event) : spec I false (modify (emit e)).
Proof. apply spec_modify. intros w H. apply (f_emit _ I HI). exact H. Qed.

Lemma fetch_process_batch fmp ticker interval date_group all_dfs :
  spec I false (process_batch fuel fmp ticker interval out date_group all_dfs).
Proof.
  unfold process_batch. destruct date_group as [|first rest]; [apply spec_raise|].
  destruct (last (first :: rest)); [|apply spec_raise].
  apply spec_bind; [apply fetch_emit|]. intros _.
  apply (spec_batch_tries (f_batch _ I HI) false fuel Hs). discriminate.
Qed.

Lemma fetch_batches_loop fmp ticker interval grouped_dates : forall all_dfs,
  spec I false (batches_loop fuel fmp ticker interval out grouped_dates all_dfs).
Proof.
  induction grouped_dates as [|g rest IH]; intros all_dfs; simpl.
  - apply spec_ret.
  - apply spec_bind; [apply fetch_process_batch | intros dfs; apply IH].
Qed.

Lemma fetch_tickers_loop fmp tickers interval grouped_dates : forall all_dfs,
  spec I false (tickers_loop fuel fmp tickers interval out grouped_dates all_dfs).
Proof.
  induction tickers as [|t rest IH]; intros all_dfs; simpl.
  - apply spec_ret.
  - apply spec_bind; [apply fetch_emit|]. intros _.
    apply spec_bind; [apply fetch_batches_loop | intros dfs; apply IH].
Qed.

Lemma fetch_backfill_collect fmp tickers interval output_filename grouped_dates :
  spec I false (backfill_collect fuel fmp tickers interval output_filename out
                  grouped_dates).
Proof.
  unfold backfill_collect.
  apply spec_bind; [apply fetch_tickers_loop|]. intros all_dfs.
  apply spec_bind; [generalize out; intros [p|]; apply fetch_emit|]. intros _.
  destruct output_filename; [apply spec_ret|].
  destruct all_dfs; (apply spec_bind; [apply fetch_emit | intros; apply spec_ret]).
Qed.

Lemma fetch_FMPMarketData_init : spec I false FMPMarketData_init.
Proof.
  unfold FMPMarketData_init.
  apply spec_bind; [apply spec_gets|]. intros [k|]; [|apply spec_raise].
  destruct (String.eqb k ""); [apply spec_raise|].
  apply spec_bind; [apply spec_gets|]. intros self.
  apply spec_bind; [|intros; apply spec_ret].
  apply spec_modify. intros w H. apply (f_init _ I HI). exact H.
Qed.

Lemma fetch_backfill_data tickers start_date end_date interval exchange
    output_filename :
  out = resolved_path tickers start_date end_date interval exchange
          output_filename ->
  spec I false (backfill_data fuel tickers start_date end_date interval
                  exchange output_filename).
Proof.
  intros Hout. unfold backfill_data.
  apply spec_bind; [apply fetch_emit|]. intros _.
  apply spec_bind; [apply fetch_FMPMarketData_init|]. intros fmp.
  destruct (bdate_range start_date end_date) as [|d ds].
  { apply spec_bind; [apply fetch_emit | intros; apply spec_ret]. }
  apply (spec_bind_val _ _ (fun a => a = out)).
  - destruct output_filename as [name|]; [|apply spec_ret].
    apply spec_bind; [apply spec_gets|]. intros there.
    apply spec_bind; [|intros; apply spec_ret].
    destruct there; [|apply spec_ret].
    apply spec_modify. intros w H. apply (b_cache _ I (f_batch _ I HI)); [exact H|].
    intros q Hq. apply lookup_delete_ne. rewrite Hout in Hq. simpl in Hq.
    congruence.
  - intros w a w'. rewrite Hout. unfold resolved_path.
    destruct output_filename as [name|]; [|intros [= <- _]; reflexivity].
    unfold bind, cache_exists, cache_remove, gets, modify, ret. simpl.
    destruct (bool_decide _); intros [= <- _]; reflexivity.
  - intros a ->. apply fetch_backfill_collect.
Qed.

End FetchRun.

(** The database and the ticker files are out of reach of the fetch. *)
Lemma untouched_stable (out : option string) (d : Database) (side : gmap Path file) :
  fetch_stable out (fun w => db w = d /\ side_files w = side).
Proof.
  constructor; [constructor|..]; intros; assumption.
Qed.

Lemma cache_untouched_stable (m : gmap string (list csv_line)) :
  fetch_stable None (fun w => cache_files w = m).
Proof.
  constructor; [constructor|..]; try (intros; assumption).
  intros w x H Hx. simpl. rewrite <- H. apply map_eq. intros q.
  apply Hx. discriminate.
Qed.

(** *** The frames gathered by the loops *)

Lemma try_except_return {A} (c : M A) (handler : exn -> M A) w a w' :
  try_except c handler w = (Return a, w') ->
  c w = (Return a, w') \/
  exists e w1, c w = (Raise e, w1) /\ handler e w1 = (Return a, w').
Proof.
  unfold try_except. destruct (c w) as [[x|e|] w1]; intros H.
  - left. exact H.
  - right. exists e, w1. split; [reflexivity | exact H].
  - discriminate.
Qed.

Lemma pd_DataFrame_rows data_chunk :
  length (rows (pd_DataFrame data_chunk)) = length data_chunk.
Proof. unfold pd_DataFrame. simpl. rewrite !length_map. reflexivity. Qed.

Lemma fetch_batch_prepared fuel fmp ticker from_date_str to_date_str interval
    output_path all_dfs w dfs w' :
  fetch_batch fuel fmp ticker from_date_str to_date_str interval output_path
    all_dfs w = (Return dfs, w') ->
  Forall prepared all_dfs -> Forall prepared dfs.
Proof.
  unfold fetch_batch. intros H Hall.
  apply bind_return in H. destruct H as (chunk0 & w1 & _ & H).
  apply bind_return in H. destruct H as (data_chunk & w2 & _ & H).
  destruct data_chunk as [| | | |[|item items]|];
    try (injection H as <- _; exact Hall).
  destruct (negb (df_empty (pd_DataFrame (item :: items)))).
  - apply bind_return in H. destruct H as (df & w3 & Hp & H).
    apply bind_return in H. destruct H as (u & w4 & _ & H).
    injection H as <- _.
    apply prepare_data_frame in Hp. destruct Hp as (Hc & Hr & _).
    apply Forall_app. split; [exact Hall|]. constructor; [|constructor].
    split; [exact Hc|]. intros E. rewrite E in Hr.
    rewrite pd_DataFrame_rows in Hr. discriminate.
  - apply bind_return in H. destruct H as (u & w3 & _ & H).
    injection H as <- _. exact Hall.
Qed.

Lemma batch_tries_prepared iterations :
  forall fuel fmp ticker from_date_str to_date_str interval output_path
         attempt success all_dfs w dfs w',
  batch_tries iterations fuel fmp ticker from_date_str to_date_str interval
    output_path attempt success all_dfs w = (Return dfs, w') ->
  Forall prepared all_dfs -> Forall prepared dfs.
Proof.
  induction iterations as [|iterations IH];
    intros fuel fmp ticker from_date_str to_date_str interval output_path
           attempt success all_dfs w dfs w' H Hall;
    cbn [batch_tries] in H;
    (destruct ((attempt <? 2) && negb success);
     [|injection H as <- _; exact Hall]); [discriminate|].
  apply bind_return in H. destruct H as ([ok dfs1] & w1 & Ht & H).
  cbn [fst snd] in H. apply IH in H; [exact H|].
  apply try_except_return in Ht. destruct Ht as [Ht|(e & w2 & _ & Ht)].
  - apply bind_return in Ht. destruct Ht as (dfs2 & w2 & Hb & Ht).
    injection Ht as _ <- _.
    eapply fetch_batch_prepared; eassumption.
  - apply bind_return in Ht. destruct Ht as (u & w3 & _ & Ht).
    apply bind_return in Ht. destruct Ht as (u' & w4 & _ & Ht).
    injection Ht as _ <- _. exact Hall.
Qed.

Lemma batches_loop_prepared fuel fmp ticker interval output_path grouped_dates :
  forall all_dfs w dfs w',
  batches_loop fuel fmp ticker interval output_path grouped_dates all_dfs w
    = (Return dfs, w') ->
  Forall prepared all_dfs -> Forall prepared dfs.
Proof.
  induction grouped_dates as [|g rest IH]; intros all_dfs w dfs w' H Hall;
    cbn [batches_loop] in H.
  - injection H as <- _. exact Hall.
  - apply bind_return in H. destruct H as (dfs1 & w1 & Hp & H).
    apply IH in H; [exact H|].
    unfold process_batch in Hp.
    destruct g as [|first more]; [discriminate|].
    destruct (last (first :: more)); [|discriminate].
    apply bind_return in Hp. destruct Hp as (u & w2 & _ & Hp).
    eapply batch_tries_prepared; eassumption.
Qed.

Lemma tickers_loop_prepared fuel fmp tickers interval output_path grouped_dates :
  forall all_dfs w dfs w',
  tickers_loop fuel fmp tickers interval output_path grouped_dates all_dfs w
    = (Return dfs, w') ->
  Forall prepared all_dfs -> Forall prepared dfs.
Proof.
  induction tickers as [|t rest IH]; intros all_dfs w dfs w' H Hall;
    cbn [tickers_loop] in H.
  - injection H as <- _. exact Hall.
  - apply bind_return in H. destruct H as (u & w1 & _ & H).
    apply bind_return in H. destruct H as (dfs1 & w2 & Hb & H).
    apply IH in H; [exact H|].
    eapply batches_loop_prepared; eassumption.
Qed.

Lemma pd_concat_prepared (df : DataFrame) (dfs : list DataFrame) :
  Forall prepared (df :: dfs) -> prepared (pd_concat (df :: dfs)).
Proof.
  intros H. apply Forall_cons in H. destruct H as [[Hc Hr] _].
  unfold prepared, pd_concat. simpl. split; [exact Hc|].
  destruct (rows df); [contradiction | discriminate].
Qed.

Lemma backfill_collect_value fuel fmp tickers interval output_filename
    output_path grouped_dates w x w' :
  backfill_collect fuel fmp tickers interval output_filename output_path
    grouped_dates w = (Return x, w') ->
  match output_filename with
  | Some _ => x = None
  | None => exists df, x = Some df /\ (df = empty_frame \/ prepared df)
  end.
Proof.
  unfold backfill_collect. intros H.
  apply bind_return in H. destruct H as (all_dfs & w1 & Hl & H).
  apply bind_return in H. destruct H as (u & w2 & _ & H).
  destruct output_filename as [name|].
  - injection H as <- _. reflexivity.
  - apply tickers_loop_prepared in Hl; [|constructor].
    destruct all_dfs as [|df dfs];
      apply bind_return in H; destruct H as (u' & w3 & _ & H);
      injection H as <- _; eexists; (split; [reflexivity|]).
    + left. reflexivity.
    + right. apply pd_concat_prepared. exact Hl.
Qed.

(** X14.  [backfill_data] never touches the database or the ticker
    files.  Called with [output_filename=None] it writes no cache file
    either and, when it returns, returns a frame: the empty frame when
    nothing was fetched, otherwise a frame with the eight columns of
    [prepare_data] and at least one row.  Called with a file name it
    returns None. *)
Theorem backfill_data_modes
    (fuel : nat) (tickers : list string) (start_date end_date : date)
    (interval : Z) (exchange : option string) (output_filename : option string)
    (w : World) :
  let r := backfill_data fuel tickers start_date end_date interval exchange
             output_filename w in
  db (snd r) = db w /\ side_files (snd r) = side_files w /\
  (output_filename = None -> cache_files (snd r) = cache_files w) /\
  (forall x, fst r = Return x ->
     match output_filename with
     | Some _ => x = None
     | None =>
         exists df, x = Some df /\
           (df = empty_frame \/
            (columns df = column_order /\ rows df <> []))
     end).
Proof.
  intros r. split; [|split; [|split]].
  - apply (fetch_backfill_data
             (untouched_stable
                (resolved_path tickers start_date end_date interval exchange
                   output_filename) (db w) (side_files w))
             fuel tickers start_date end_date interval exchange output_filename
             eq_refl w). split; reflexivity.
  - apply (fetch_backfill_data
             (untouched_stable
                (resolved_path tickers start_date end_date interval exchange
                   output_filename) (db w) (side_files w))
             fuel tickers start_date end_date interval exchange output_filename
             eq_refl w). split; reflexivity.
  - intros ->.
    apply (fetch_backfill_data (cache_untouched_stable (cache_files w))
             fuel tickers start_date end_date interval exchange None
             eq_refl w). reflexivity.
  - intros x Hx. unfold r in Hx.
    destruct (backfill_data fuel tickers start_date end_date interval exchange
                output_filename w) as [o w'] eqn:E.
    cbn [fst] in Hx. subst o. unfold backfill_data in E.
    apply bind_return in E. destruct E as (u & w1 & _ & E).
    apply bind_return in E. destruct E as (fmp & w2 & _ & E).
    destruct (bdate_range start_date end_date) as [|d ds].
    + apply bind_return in E. destruct E as (u' & w3 & _ & E).
      injection E as <- _. destruct output_filename; [reflexivity|].
      eexists. split; [reflexivity|]. left. reflexivity.
    + apply bind_return in E. destruct E as (output_path & w3 & _ & E).
      apply backfill_collect_value in E. exact E.
Qed.

Lemma backfill_data_modes_witness :
  let w := boot (scenario one_bar no_faults (inr []) 8) ∅ ∅ in
  let r := backfill_data plenty ["AAPL"] (_ymd2ord 2024 1 5) (_ymd2ord 2024 1 5)
             5 None None w in
  exists x, fst r = Return x /\
    exists df, x = Some df /\
      (df = empty_frame \/ (columns df = column_order /\ rows df <> [])).
Proof.
  intros w r.
  destruct (fst r) as [x|e|] eqn:E;
    [|vm_compute in E; discriminate|vm_compute in E; discriminate].
  exists x. split; [reflexivity|].
  exact (proj2 (proj2 (proj2
           (backfill_data_modes plenty ["AAPL"] (_ymd2ord 2024 1 5)
              (_ymd2ord 2024 1 5) 5 None None w))) x E).
Defined.

(** ** One worker *)

Lemma table_stable (out : option string) (table : list db_row) :
  fetch_stable out (fun w => market_data (db w) = table).
Proof.
  constructor; [constructor|..]; intros; assumption.
Qed.

Lemma table_build_insert_data (table : list db_row) parse ticker
    effective_exchange rows :
  spec (fun w => market_data (db w) = table) false
       (build_insert_data parse ticker effective_exchange rows).
Proof.
  induction rows as [|row rest IH]; simpl.
  - apply spec_ret.
  - apply spec_bind.
    + destruct (insert_tuple parse effective_exchange row); [apply spec_ret|].
      apply spec_bind; [|intros; apply spec_ret].
      apply spec_modify. intros w H. exact H.
    + intros head. apply spec_bind; [exact IH | intros; apply spec_ret].
Qed.

Lemma dry_run_keeps_table fuel ticker start_date end_date interval exchange
    on_conflict exchange_map (table : list db_row) :
  spec (fun w => market_data (db w) = table) false
       (backfill_single_ticker fuel ticker start_date end_date interval exchange
          true on_conflict exchange_map).
Proof.
  unfold backfill_single_ticker.
  assert (Hp : forall msg, spec (fun w => market_data (db w) = table) false
                             (print msg)).
  { intros msg. apply spec_modify. intros w H. exact H. }
  assert (Hl : forall lvl msg, spec (fun w => market_data (db w) = table) false
                                 (log lvl msg)).
  { intros lvl msg. apply spec_modify. intros w H. exact H. }
  apply spec_bind.
  - apply spec_try_except.
    + apply spec_bind.
      * apply (fetch_backfill_data (table_stable None table)). reflexivity.
      * intros [df|].
        -- destruct (df_empty df); [|apply spec_ret].
           apply spec_bind; [apply Hp | intros; apply spec_ret].
        -- apply spec_bind; [apply Hp | intros; apply spec_ret].
    + intros ex. apply spec_bind; [apply Hp | intros; apply spec_ret].
  - intros [df|]; [|apply spec_ret].
    apply spec_bind.
    + apply spec_try_except.
      * apply spec_bind; [|intros; apply spec_ret].
        intros w H. unfold get_connection.
        destruct (leased (db w) <? pool_capacity (env w)); simpl;
          (split; [exact H | discriminate]).
      * intros ex. apply spec_bind; [apply Hp | intros; apply spec_ret].
    + intros [[|]|]; [|apply Hp|apply spec_ret].
      apply spec_try_finally.
      * apply spec_try_except; [|intros ex; apply Hp].
        apply spec_bind; [apply spec_gets|]. intros parse.
        apply spec_bind; [apply table_build_insert_data|]. intros insert_data.
        destruct insert_data; apply Hl.
      * apply spec_modify. intros w H. exact H.
Qed.

Lemma bind_never_raises {A B} (c : M A) (k : A -> M B) w :
  (forall e, fst (c w) <> Raise e) ->
  (forall a w1 e, fst (k a w1) <> Raise e) ->
  forall e, fst (bind c k w) <> Raise e.
Proof.
  intros Hc Hk e. unfold bind. specialize (Hc e).
  destruct (c w) as [[a|e'|] w1]; simpl in *.
  - apply Hk.
  - intros [= ->]. apply Hc. reflexivity.
  - discriminate.
Qed.

Lemma backfill_single_ticker_never_raises fuel ticker start_date end_date
    interval exchange dry_run on_conflict exchange_map w e :
  fst (backfill_single_ticker fuel ticker start_date end_date interval exchange
         dry_run on_conflict exchange_map w) <> Raise e.
Proof.
  unfold backfill_single_ticker. revert e. apply bind_never_raises.
  - intros e. apply try_except_print_returns.
  - intros [df|] w1 e; [|discriminate]. revert e. apply bind_never_raises.
    + intros e. apply try_except_print_returns.
    + intros [[|]|] w2 e; [|discriminate|discriminate].
      unfold try_finally.
      match goal with |- context [try_except ?c ?h w2] =>
        pose proof (fun ex => try_except_print_returns c
                      ("[" +:+ ticker +:+ "] Error during backfill or insert")
                      tt w2 ex) as Hn;
        change (forall ex, fst (try_except c h w2) <> Raise ex) in Hn;
        destruct (try_except c h w2) as [[u|ex|] w3]
      end.
      * discriminate.
      * exfalso. apply (Hn ex). reflexivity.
      * discriminate.
Qed.

(** X15.  A worker contains its failures and its resources:
    [backfill_single_ticker] never raises, whatever the fetch or the
    insert does; with [dry_run] it leaves the table [market_data]
    untouched; and, started with no connection out of a pool that has one
    to give, it returns with no connection out: the lease it took has
    been released on every path. *)
Theorem backfill_single_ticker_contained
    (fuel : nat) (ticker : string) (start_date end_date : date)
    (interval : Z) (exchange : option string) (dry_run : bool)
    (on_conflict : string) (exchange_map : option (gmap string string))
    (w : World) :
  let r := backfill_single_ticker fuel ticker start_date end_date interval
             exchange dry_run on_conflict exchange_map w in
  (forall e, fst r <> Raise e) /\
  (dry_run = true -> market_data (db (snd r)) = market_data (db w)) /\
  (enough fuel -> lim_ok w -> leased (db w) = 0 -> 0 < pool_capacity (env w) ->
   fst r = Return tt /\ leased (db (snd r)) = 0).
Proof.
  intros r. split; [|split].
  - intros e. apply backfill_single_ticker_never_raises.
  - intros ->.
    apply (dry_run_keeps_table fuel ticker start_date end_date interval exchange
             on_conflict exchange_map (market_data (db w)) w). reflexivity.
  - intros Hf Hl Hz Hcap.
    destruct (backfill_single_ticker_returns fuel Hf (env w) Hcap (events w)
                (pools_open (db w)) (pools_closed (db w)) ticker start_date
                end_date interval exchange dry_run on_conflict exchange_map w)
      as (w' & E & Hw').
    { unfold conc_inv. repeat (split; [assumption || reflexivity|]).
      exists []. rewrite app_nil_r. reflexivity. }
    unfold r. rewrite E. split; [reflexivity|]. apply Hw'.
Qed.

Lemma backfill_single_ticker_contained_witness :
  let w := boot (scenario one_bar no_faults (inr []) 8) ∅ ∅ in
  let r := backfill_single_ticker plenty "AAPL" (_ymd2ord 2024 1 5)
             (_ymd2ord 2024 1 5) 5 None true "fail" None w in
  true = true /\ enough plenty /\ lim_ok w /\ leased (db w) = 0 /\
  0 < pool_capacity (env w) /\
  market_data (db (snd r)) = market_data (db w) /\
  fst r = Return tt /\ leased (db (snd r)) = 0.
Proof.
  intros w r.
  assert (H1 : enough plenty) by (vm_compute; reflexivity).
  assert (H2 : lim_ok w) by constructor.
  assert (H3 : leased (db w) = 0) by reflexivity.
  assert (H4 : 0 < pool_capacity (env w)) by reflexivity.
  pose proof (backfill_single_ticker_contained plenty "AAPL" (_ymd2ord 2024 1 5)
                (_ymd2ord 2024 1 5) 5 None true "fail" None w) as (_ & T & L).
  split; [reflexivity|]. split; [exact H1|]. split; [exact H2|].
  split; [exact H3|]. split; [exact H4|].
  split; [exact (T eq_refl) | exact (L H1 H2 H3 H4)].
Defined.

(** ** Quotes *)

Lemma make_request_no_hang fuel self url params w :
  enough fuel -> lim_ok w ->
  fst (_make_request fuel self url params w) <> Hang.
Proof.
  intros Hf Hl.
  apply (spec_make_request (request_inv_stable (env w)) true fuel
           (fun _ => conj Hf (fun w0 (H : request_inv (env w) w0) => proj2 H))
           self url params w (conj eq_refl Hl)).
  reflexivity.
Qed.

Ltac price_done :=
  unfold bind, log, modify, gets, ret, raise; cbn [fst snd];
  repeat match goal with
         | |- context [match py_float ?f ?v with _ => _ end] =>
             destruct (py_float f v)
         end;
  eexists _, _; (split; [reflexivity | first [exact I | reflexivity]]).

(** X16.  [get_current_price] always returns a float and never raises:
    whatever the request layer does, an exception included, and whatever
    the shape of the answer, the caller gets a price or 0.0.  It is 0.0
    whenever the request layer does not return a non-empty list. *)
Theorem get_current_price_always_returns
    (fuel self : nat) (ticker : string) (w : World) :
  enough fuel -> lim_ok w ->
  exists price w',
    get_current_price fuel self ticker w = (Return price, w') /\
    match fst (_make_request fuel self
                 ("https://financialmodelingprep.com/stable/quote?symbol=" +:+ ticker)
                 [("apikey", api_key_of self w)] w) with
    | Return (JList (_ :: _)) => True
    | _ => price = 0%Q
    end.
Proof.
  intros Hf Hl. unfold get_current_price.
  unfold bind at 1, gets. cbn [fst snd].
  pose proof (make_request_no_hang fuel self
                ("https://financialmodelingprep.com/stable/quote?symbol=" +:+ ticker)
                [("apikey", api_key_of self w)] w Hf Hl) as Hn.
  unfold try_except. unfold bind at 1.
  destruct (_make_request fuel self _ _ w) as [[data|e|] w1];
    [| |exfalso; apply Hn; reflexivity].
  - cbn [fst].
    destruct data as [| | | |[|first rest]|]; try price_done.
    unfold bind at 1. unfold bind at 1.
    destruct (py_contains "price" first) as [e|[|]]; cbn [lift raise ret];
      try price_done.
    unfold bind at 1.
    destruct (py_getitem first "price") as [e|price]; cbn [lift raise ret];
      [price_done|].
    destruct price; price_done.
  - cbn [fst]. eexists _, _. split; reflexivity.
Qed.

Lemma get_current_price_always_returns_witness :
  let stalled := one_client (scenario offline_then_stalled no_faults (inr []) 8) in
  let lucky := one_client (scenario third_time_lucky no_faults (inr []) 8) in
  enough plenty /\ lim_ok stalled /\ lim_ok lucky /\
  fst (get_current_price plenty 0 "AAPL" stalled) = Return 0%Q /\
  fst (get_current_price plenty 0 "AAPL" lucky) = Return 187%Q.
Proof.
  intros stalled lucky.
  assert (H1 : enough plenty) by (vm_compute; reflexivity).
  assert (H2 : lim_ok stalled).
  { unfold lim_ok. vm_compute clients. repeat constructor. discriminate. }
  assert (H3 : lim_ok lucky).
  { unfold lim_ok. vm_compute clients. repeat constructor. discriminate. }
  split; [exact H1|]. split; [exact H2|]. split; [exact H3|].
  destruct (get_current_price_always_returns plenty 0 "AAPL" stalled H1 H2)
    as (price & w' & E & Hp).
  split.
  - rewrite E. cbn [fst]. f_equal.
    assert (Hr : fst (_make_request plenty 0
                        ("https://financialmodelingprep.com/stable/quote?symbol=" +:+ "AAPL")
                        [("apikey", api_key_of 0 stalled)] stalled)
                 = Raise ReadTimeout) by (vm_compute; reflexivity).
    rewrite Hr in Hp. exact Hp.
  - vm_compute. reflexivity.
Defined.



(** ** Crypto symbols *)

Lemma upper_alnum_fixed (c : ascii) :
  is_upper_alnum c = true -> upper_ascii c = c /\ is_space c = false.
Proof.
  destruct c as [[] [] [] [] [] [] [] []]; vm_compute; intros H;
    first [discriminate H | split; reflexivity].
Qed.

Lemma upper_ascii_space (c : ascii) : is_space (upper_ascii c) = is_space c.
Proof. destruct c as [[] [] [] [] [] [] [] []]; reflexivity. Qed.

Lemma list_ascii_of_string_app (s1 s2 : string) :
  list_ascii_of_string (s1 +:+ s2)
  = list_ascii_of_string s1 ++ list_ascii_of_string s2.
Proof.
  induction s1 as [|c s1 IH]; [reflexivity|].
  change (String c s1 +:+ s2) with (String c (s1 +:+ s2)).
  cbn [list_ascii_of_string]. rewrite IH. reflexivity.
Qed.

Lemma substring_app_l (s1 s2 : string) :
  substring 0 (String.length s1) (s1 +:+ s2) = s1.
Proof.
  induction s1 as [|c s1 IH]; cbn [String.length].
  - destruct s2; reflexivity.
  - change (String c s1 +:+ s2) with (String c (s1 +:+ s2)).
    cbn [substring]. rewrite IH. reflexivity.
Qed.

Lemma substring_all (s : string) : substring 0 (String.length s) s = s.
Proof.
  induction s as [|c s IH]; [reflexivity|].
  cbn [String.length substring]. rewrite IH. reflexivity.
Qed.

Lemma substring_app_r (s1 s2 : string) :
  substring (String.length s1) (String.length s2) (s1 +:+ s2) = s2.
Proof.
  induction s1 as [|c s1 IH]; cbn [String.length].
  - apply substring_all.
  - change (String c s1 +:+ s2) with (String c (s1 +:+ s2)).
    cbn [substring]. exact IH.
Qed.

Lemma str_endswith_app (s suffix : string) :
  str_endswith suffix (s +:+ suffix) = true.
Proof.
  unfold str_endswith. rewrite string_length_app.
  replace (String.length s + String.length suffix - String.length suffix)%nat
    with (String.length s) by lia.
  rewrite substring_app_r, String.eqb_refl, andb_true_r.
  apply Nat.leb_le. lia.
Qed.

Lemma lstrip_chars_head (c : ascii) (rest : list ascii) :
  is_space c = false -> lstrip_chars (c :: rest) = c :: rest.
Proof. intros H. cbn [lstrip_chars]. rewrite H. reflexivity. Qed.

Lemma str_upper_fixed (l : list ascii) :
  Forall (fun c => upper_ascii c = c) l ->
  str_upper (string_of_list_ascii l) = string_of_list_ascii l.
Proof.
  intros H. unfold str_upper. rewrite list_ascii_of_string_of_list_ascii.
  f_equal. induction H as [|c l Hc _ IH]; [reflexivity|].
  cbn [map]. rewrite Hc, IH. reflexivity.
Qed.

(** Text that neither starts nor ends with whitespace is its own
    [strip()]. *)
Lemma str_strip_fixed (first last : ascii) (middle : list ascii) :
  is_space first = false -> is_space last = false ->
  str_strip (string_of_list_ascii (first :: middle ++ [last]))
  = string_of_list_ascii (first :: middle ++ [last]).
Proof.
  intros Hf Hl. unfold str_strip. rewrite list_ascii_of_string_of_list_ascii.
  rewrite (lstrip_chars_head _ _ Hf).
  rewrite app_comm_cons, rev_unit.
  rewrite (lstrip_chars_head _ _ Hl).
  cbn [rev]. rewrite rev_app_distr, rev_involutive. reflexivity.
Qed.

Lemma filter_all {A} (p : A -> bool) (l : list A) :
  Forall (fun x => p x = true) l -> List.filter p l = l.
Proof.
  induction 1 as [|x l Hx _ IH]; [reflexivity|].
  cbn [List.filter]. rewrite Hx, IH. reflexivity.
Qed.

Lemma filter_Forall {A} (p : A -> bool) (l : list A) :
  Forall (fun x => p x = true) (List.filter p l).
Proof.
  induction l as [|x l IH]; cbn [List.filter]; [constructor|].
  destruct (p x) eqn:E; [constructor; assumption | exact IH].
Qed.

Lemma normalize_symbol_alphabet (symbol : string) :
  Forall (fun c => is_upper_alnum c = true)
         (list_ascii_of_string (normalize_symbol symbol)).
Proof.
  unfold normalize_symbol. rewrite list_ascii_of_string_of_list_ascii.
  apply filter_Forall.
Qed.

(** A base of [[A-Z0-9]] characters followed by "USD" normalises back to
    the base. *)
Lemma normalize_symbol_usd (l : list ascii) :
  Forall (fun c => is_upper_alnum c = true) l ->
  normalize_symbol (string_of_list_ascii l +:+ "USD") = string_of_list_ascii l.
Proof.
  intros Hl.
  assert (Hall : Forall (fun c => is_upper_alnum c = true)
                        (l ++ ["U"; "S"; "D"]%char)).
  { apply Forall_app. split; [exact Hl|]. repeat constructor. }
  assert (Hs : string_of_list_ascii l +:+ "USD"
               = string_of_list_ascii (l ++ ["U"; "S"; "D"]%char)).
  { rewrite <- (string_of_list_ascii_of_string (string_of_list_ascii l +:+ "USD")).
    rewrite list_ascii_of_string_app, list_ascii_of_string_of_list_ascii.
    reflexivity. }
  assert (Hstrip : str_strip (string_of_list_ascii l +:+ "USD")
                   = string_of_list_ascii l +:+ "USD").
  { rewrite Hs. destruct l as [|c l'].
    - reflexivity.
    - replace ((c :: l') ++ ["U"; "S"; "D"]%char)
        with (c :: (l' ++ ["U"; "S"]%char) ++ ["D"%char])
        by (cbn [app]; rewrite <- app_assoc; reflexivity).
      apply str_strip_fixed; [|reflexivity].
      apply Forall_cons in Hl. apply (upper_alnum_fixed c), Hl. }
  assert (Hupper : str_upper (string_of_list_ascii l +:+ "USD")
                   = string_of_list_ascii l +:+ "USD").
  { rewrite Hs. apply str_upper_fixed.
    eapply Forall_impl; [exact Hall|]. intros c Hc.
    apply (upper_alnum_fixed c Hc). }
  unfold normalize_symbol. rewrite Hstrip, Hupper, str_endswith_app.
  rewrite string_length_app.
  replace (String.length (string_of_list_ascii l) + String.length "USD" - 3)%nat
    with (String.length (string_of_list_ascii l)) by (cbn [String.length]; lia).
  rewrite substring_app_l, list_ascii_of_string_of_list_ascii.
  rewrite filter_all by exact Hl. reflexivity.
Qed.

(** X18.  [normalize_symbol] yields only characters of [[A-Z0-9]], and
    the fallback symbol that [format_for_fmp] builds from a base,
    [f"{base}USD"], normalises back to that base. *)
Theorem normalize_symbol_round_trip (symbol : string) :
  Forall (fun c => is_upper_alnum c = true)
         (list_ascii_of_string (normalize_symbol symbol)) /\
  normalize_symbol (normalize_symbol symbol +:+ "USD") = normalize_symbol symbol.
Proof.
  split; [apply normalize_symbol_alphabet|].
  pose proof (normalize_symbol_usd _ (normalize_symbol_alphabet symbol)) as E.
  rewrite string_of_list_ascii_of_string in E. exact E.
Qed.

(** ** Formatting the crypto list *)

Lemma strip_nonempty_chars (s : string) :
  strip_nonempty s = false <->
  Forall (fun c => is_space c = true) (list_ascii_of_string s).
Proof.
  unfold strip_nonempty. induction (list_ascii_of_string s) as [|c l IH];
    cbn [existsb].
  - split; [constructor | reflexivity].
  - rewrite orb_false_iff, negb_false_iff, IH. split.
    + intros [H1 H2]. constructor; assumption.
    + intros H. apply Forall_cons in H. exact H.
Qed.

Lemma lstrip_chars_spaces (l : list ascii) :
  Forall (fun c => is_space c = true) l -> lstrip_chars l = [].
Proof.
  induction 1 as [|c l Hc _ IH]; [reflexivity|].
  cbn [lstrip_chars]. rewrite Hc. exact IH.
Qed.

Lemma str_strip_blank (s : string) : strip_nonempty s = false -> str_strip s = "".
Proof.
  intros H. apply strip_nonempty_chars in H. unfold str_strip.
  rewrite (lstrip_chars_spaces _ H). reflexivity.
Qed.

Lemma string_of_list_ascii_nil (l : list ascii) :
  string_of_list_ascii l = "" -> l = [].
Proof. destruct l; [reflexivity | discriminate]. Qed.

Lemma str_upper_empty (s : string) : str_upper s = "" -> s = "".
Proof.
  unfold str_upper. intros H. apply string_of_list_ascii_nil in H.
  destruct s; [reflexivity | discriminate].
Qed.

Lemma strip_nonempty_upper (s : string) :
  strip_nonempty (str_upper s) = strip_nonempty s.
Proof.
  unfold strip_nonempty, str_upper. rewrite list_ascii_of_string_of_list_ascii.
  induction (list_ascii_of_string s) as [|c l IH]; [reflexivity|].
  cbn [map existsb]. rewrite upper_ascii_space, IH. reflexivity.
Qed.

Lemma strip_nonempty_app_r (s1 s2 : string) :
  strip_nonempty s2 = true -> strip_nonempty (s1 +:+ s2) = true.
Proof.
  unfold strip_nonempty. rewrite list_ascii_of_string_app, existsb_app.
  intros ->. apply orb_true_r.
Qed.

(** A row that passes the test of [build_reference_index] is an object
    with a non-blank string symbol. *)
Lemma get_text_indexed (row : json) (text : string) :
  get_text "symbol" row = inr text ->
  String.eqb (str_upper (str_strip text)) "" = false ->
  indexed_row row.
Proof.
  intros Hg Hne.
  assert (Hb : strip_nonempty text = true).
  { destruct (strip_nonempty text) eqn:E; [reflexivity|].
    rewrite (str_strip_blank _ E) in Hne. discriminate. }
  unfold get_text in Hg. destruct row as [| | | | |fields]; try discriminate.
  destruct (dict_get "symbol" fields) as [v|] eqn:Ed.
  - destruct v as [|b|q|s|items|fs];
      try (destruct (truthy _); [discriminate|];
           injection Hg as <-; discriminate).
    injection Hg as ->. exists fields, text. repeat split; assumption.
  - injection Hg as <-. discriminate.
Qed.

Lemma indexed_row_text (row : json) :
  indexed_row row ->
  exists text,
    get_text "symbol" row = inr text /\ symbol_upper row = inr (str_upper text) /\
    strip_nonempty (str_upper text) = true.
Proof.
  intros (fields & text & -> & Hd & Hb). exists text.
  unfold get_text, symbol_upper, py_getitem. rewrite Hd. cbn [pybind].
  rewrite strip_nonempty_upper. repeat split; try reflexivity. exact Hb.
Qed.

Lemma build_reference_index_ok (reference_rows : list json) :
  forall by_exact_symbol by_base index,
  index_ok (by_exact_symbol, by_base) ->
  build_reference_index_from reference_rows by_exact_symbol by_base = inr index ->
  index_ok index.
Proof.
  induction reference_rows as [|row rest IH];
    intros by_exact_symbol by_base index Hok H; cbn [build_reference_index_from] in H.
  - injection H as <-. exact Hok.
  - destruct (get_text "symbol" row) as [e|text] eqn:Eg; cbn [pybind] in H;
      [discriminate|].
    destruct (String.eqb (str_upper (str_strip text)) "") eqn:Ee.
    + eapply IH; eassumption.
    + pose proof (get_text_indexed row text Eg Ee) as Hrow.
      eapply IH; [|exact H]. destruct Hok as [H1 H2]. split; cbn [fst snd].
      * intros k r Hk. destruct (decide (str_upper (str_strip text) = k)) as [<-|Hne].
        -- rewrite lookup_insert_eq in Hk.
           replace r with row by congruence. exact Hrow.
        -- rewrite lookup_insert_ne in Hk by exact Hne. eapply H1. exact Hk.
      * intros k rows Hk.
        destruct (decide (normalize_symbol (str_upper (str_strip text)) = k))
          as [<-|Hne].
        -- rewrite lookup_insert_eq in Hk.
           replace rows
             with (default [] (by_base !! normalize_symbol (str_upper (str_strip text)))
                   ++ [row]) by congruence.
           apply Forall_app. split; [|repeat constructor; exact Hrow].
           destruct (by_base !! normalize_symbol (str_upper (str_strip text)))
             as [rows0|] eqn:E0; cbn [default from_option id]; [|constructor].
           eapply H2. exact E0.
        -- rewrite lookup_insert_ne in Hk by exact Hne. eapply H2. exact Hk.
Qed.

Lemma index_ok_empty : index_ok (∅, ∅).
Proof.
  split; cbn [fst snd]; intros k x H; rewrite lookup_empty in H; discriminate.
Qed.

Lemma first_usd_nonblank (matches : list json) (s : string) :
  Forall indexed_row matches -> first_usd matches = inr (Some s) ->
  strip_nonempty s = true.
Proof.
  induction 1 as [|row rest Hrow _ IH]; cbn [first_usd]; [discriminate|].
  destruct (indexed_row_text row Hrow) as (text & Hg & _ & Hb).
  rewrite Hg. cbn [pybind].
  destruct (str_endswith "USD" (str_upper text)); [|exact IH].
  intros [= <-]. exact Hb.
Qed.

Lemma pick_reference_symbol_nonblank (base : string) (index : reference_index)
    (s : string) :
  index_ok index ->
  pick_reference_symbol base (fst index) (snd index) = inr (Some s) ->
  strip_nonempty s = true.
Proof.
  intros [H1 H2]. unfold pick_reference_symbol.
  destruct (fst index !! (base +:+ "USD")) as [row|] eqn:E1.
  { destruct (indexed_row_text row (H1 _ _ E1)) as (text & _ & -> & Hb).
    cbn [pybind]. intros [= <-]. exact Hb. }
  destruct (fst index !! base) as [row|] eqn:E2.
  { destruct (indexed_row_text row (H1 _ _ E2)) as (text & _ & -> & Hb).
    cbn [pybind]. intros [= <-]. exact Hb. }
  destruct (snd index !! base) as [rows|] eqn:E3; cbn [default from_option id];
    [|discriminate].
  pose proof (H2 _ _ E3) as Hrows.
  destruct rows as [|first others]; [discriminate|]. cbv iota.
  destruct (first_usd (first :: others)) as [e|[found|]] eqn:Ef; cbn [pybind];
    [discriminate| |].
  - intros [= <-]. eapply first_usd_nonblank; eassumption.
  - apply Forall_cons in Hrows. destruct Hrows as [Hfirst _].
    destruct (indexed_row_text first Hfirst) as (text & -> & _ & Hb).
    cbn [pybind]. destruct (String.eqb (str_upper text) ""); [discriminate|].
    intros [= <-]. exact Hb.
Qed.

Lemma pick_reference_symbol_empty (base : string) :
  pick_reference_symbol base ∅ ∅ = inr None.
Proof. unfold pick_reference_symbol. rewrite !lookup_empty. reflexivity. Qed.

Lemma py_get_dict coin text :
  get_text "symbol" coin = inr text ->
  exists fields, coin = JDict fields /\
    forall key, py_get coin key = inr (default JNull (dict_get key fields)).
Proof.
  unfold get_text. destruct coin as [| | | | |fields]; try discriminate.
  intros _. exists fields. split; reflexivity.
Qed.

Lemma format_coins_records (index : reference_index) (coins : list json) :
  index_ok index ->
  forall fmp_tickers matched_count,
  format_coins coins index = inr (fmp_tickers, matched_count) ->
  Forall fmp_record fmp_tickers /\
  0 <= matched_count <= Z.of_nat (length fmp_tickers) /\
  (length fmp_tickers <= length coins)%nat /\
  (index = (∅, ∅) -> matched_count = 0 /\ Forall fallback_record fmp_tickers).
Proof.
  intros Hok. induction coins as [|coin rest IH];
    intros fmp_tickers matched_count H; cbn [format_coins] in H.
  - injection H as <- <-. repeat split; try constructor; cbn; lia.
  - destruct (get_text "symbol" coin) as [e|text] eqn:Eg; cbn [pybind] in H;
      [discriminate|].
    assert (Hskip : forall ts n,
      format_coins rest index = inr (ts, n) ->
      Forall fmp_record ts /\ 0 <= n <= Z.of_nat (length ts) /\
      (length ts <= length (coin :: rest))%nat /\
      (index = (∅, ∅) -> n = 0 /\ Forall fallback_record ts)).
    { intros ts n Hr. destruct (IH ts n Hr) as (A & B & C & D).
      repeat split; try assumption; try apply B; try apply D; try assumption.
      cbn [length]. lia. }
    destruct (String.eqb (str_upper (str_strip text)) "") eqn:Eraw;
      [apply Hskip; exact H|].
    destruct (String.eqb (normalize_symbol (str_upper (str_strip text))) "")
      eqn:Ebase; [apply Hskip; exact H|].
    set (base := normalize_symbol (str_upper (str_strip text))) in *.
    destruct (pick_reference_symbol base (fst index) (snd index))
      as [e|matched_symbol] eqn:Ep; cbn [pybind] in H; [discriminate|].
    destruct (py_get_dict coin text Eg) as (fields & -> & Hget).
    rewrite !Hget in H. cbn [pybind] in H.
    destruct (format_coins rest index) as [e|[ts n]] eqn:Er; cbn [pybind] in H;
      [discriminate|].
    injection H as <- <-.
    destruct (IH ts n eq_refl) as (A & B & C & D).
    assert (Hbase : base <> "").
    { intros E. rewrite E in Ebase. discriminate. }
    split; [|split; [|split]].
    + constructor; [|exact A].
      eexists _, _, _, _. split; [reflexivity|]. split.
      * destruct matched_symbol as [s|]; cbn [negb default].
        -- destruct (String.eqb s "") eqn:Es; cbn [negb].
           ++ apply strip_nonempty_app_r. reflexivity.
           ++ eapply pick_reference_symbol_nonblank; eassumption.
        -- apply strip_nonempty_app_r. reflexivity.
      * destruct (truthy (default JNull (dict_get "price_change_24h" fields)))
          eqn:Et; [right; exact Et | left; reflexivity].
    + cbn [length].
      destruct (match matched_symbol with
                | Some s => negb (String.eqb s "")
                | None => false
                end); lia.
    + cbn [length]. lia.
    + intros ->. destruct (D eq_refl) as [-> Hfb].
      cbn [fst snd] in Ep. rewrite pick_reference_symbol_empty in Ep.
      injection Ep as <-. split; [reflexivity|].
      constructor; [|exact Hfb].
      exists base. split; [reflexivity|]. split; [exact Hbase|].
      apply normalize_symbol_alphabet.
Qed.

(** X19.  Every record that [format_for_fmp] returns has the four fields
    symbol, price, change and volume; its symbol is a string that is not
    blank (the reference list's spelling in upper case, or the base
    followed by "USD") and its change is never missing: a missing or zero
    change becomes the integer 0.  No more records are returned than
    coins were given, and no more matches counted than records returned.
    Without a reference list nothing is matched and every symbol is
    [f"{base}USD"] for a non-empty base of [[A-Z0-9]] characters. *)
Theorem format_for_fmp_records
    (coins : list json) (reference_rows : option (list json))
    (fmp_tickers : list json) (matched_count : Z) :
  format_for_fmp coins reference_rows = inr (fmp_tickers, matched_count) ->
  Forall fmp_record fmp_tickers /\
  0 <= matched_count <= Z.of_nat (length fmp_tickers) /\
  (length fmp_tickers <= length coins)%nat /\
  (default [] reference_rows = [] ->
   matched_count = 0 /\ Forall fallback_record fmp_tickers).
Proof.
  unfold format_for_fmp, build_reference_index. intros H.
  destruct (build_reference_index_from (default [] reference_rows) ∅ ∅)
    as [e|index] eqn:Eb; cbn [pybind] in H; [discriminate|].
  pose proof (build_reference_index_ok _ _ _ _ index_ok_empty Eb) as Hok.
  destruct (format_coins_records index coins Hok _ _ H) as (A & B & C & D).
  split; [exact A|]. split; [exact B|]. split; [exact C|].
  intros Hnil. apply D. rewrite Hnil in Eb. injection Eb as <-. reflexivity.
Qed.

Lemma format_for_fmp_records_witness :
  exists fmp_tickers matched_count,
    format_for_fmp coins_sample (Some reference_sample)
      = inr (fmp_tickers, matched_count) /\
    map text_symbol fmp_tickers
    = [Some " BTC-USD "; Some "ETHUSD"; Some "USDTUSD"] /\
    matched_count = 2 /\
    Forall fmp_record fmp_tickers.
Proof.
  destruct (format_for_fmp coins_sample (Some reference_sample))
    as [e|[fmp_tickers matched_count]] eqn:E; [vm_compute in E; discriminate|].
  exists fmp_tickers, matched_count. split; [reflexivity|].
  pose proof (proj1 (format_for_fmp_records _ _ _ _ E)) as Hrec.
  split; [|split; [|exact Hrec]].
  - vm_compute in E. injection E as <- _. reflexivity.
  - vm_compute in E. injection E as _ <-. reflexivity.
Defined.

(** ** The crypto list, end to end *)

Lemma format_for_fmp_all_records
    (coins : list json) (reference_rows : option (list json))
    (fmp_tickers : list json) (matched_count : Z) :
  format_for_fmp coins reference_rows = inr (fmp_tickers, matched_count) ->
  Forall fmp_record fmp_tickers.
Proof.
  unfold format_for_fmp, build_reference_index. intros H.
  destruct (build_reference_index_from (default [] reference_rows) ∅ ∅)
    as [e|index] eqn:Eb; cbn [pybind] in H; [discriminate|].
  pose proof (build_reference_index_ok _ _ _ _ index_ok_empty Eb) as Hok.
  exact (proj1 (format_coins_records index coins Hok _ _ H)).
Qed.

Lemma fmp_record_symbol (t : json) :
  fmp_record t -> exists s, text_symbol t = Some s /\ strip_nonempty s = true.
Proof.
  intros (s & price & change & volume & -> & Hb & _). exists s.
  split; [reflexivity | exact Hb].
Qed.

Lemma fmp_records_symbols (ts : list json) :
  Forall fmp_record ts ->
  Forall (fun s => strip_nonempty s = true) (omap text_symbol ts).
Proof.
  induction 1 as [|t ts Ht _ IH]; [constructor|].
  rewrite omap_cons. destruct (fmp_record_symbol t Ht) as (s & -> & Hb).
  constructor; assumption.
Qed.

Lemma Forall_sublist {A} (P : A -> Prop) (l1 l2 : list A) :
  sublist l1 l2 -> Forall P l2 -> Forall P l1.
Proof.
  induction 1 as [|x l1 l2 _ IH|x l1 l2 _ IH]; intros H.
  - constructor.
  - apply Forall_cons in H. constructor; [tauto | apply IH; tauto].
  - apply Forall_cons in H. apply IH. tauto.
Qed.

(** X20.  From CoinGecko's coins to the file: when the records that
    [get_crypto_tickers] works on are those that [format_for_fmp] builds,
    the list it returns is exactly the list it leaves in
    crypto_tickers.json (no file-system call failing): no symbol is
    blank, none is repeated, and nothing returned is missing from the
    file. *)
Theorem crypto_list_returned_is_persisted
    (w : World) (coins : list json) (reference_rows : option (list json))
    (symbols : list string) (w' : World) :
  crypto_feed (env w)
    = pybind (format_for_fmp coins reference_rows) (fun r => inr (fst r)) ->
  (forall n, io_fault (env w) n = false) ->
  get_crypto_tickers w = (Return symbols, w') ->
  symbols <> [] ->
  NoDup symbols /\
  Forall (fun s => strip_nonempty s = true) symbols /\
  side_files w' !! CRYPTO_TICKERS_PATH = Some (mkFile (JsonArray symbols) None).
Proof.
  intros Hfeed Hok H Hne. unfold get_crypto_tickers in H.
  unfold bind at 1, gets in H. cbn [fst snd] in H. rewrite Hfeed in H.
  destruct (format_for_fmp coins reference_rows) as [e|[fmp_tickers n]] eqn:Ef;
    cbn [pybind fst] in H.
  { unfold bind, log, modify, ret in H. cbn in H. injection H as <- _.
    contradiction. }
  pose proof (format_for_fmp_all_records _ _ _ _ Ef) as Hrec.
  apply fmp_records_symbols in Hrec.
  unfold bind at 1 in H.
  destruct (crypto_symbols ∅ fmp_tickers) as [e|out] eqn:Es;
    cbn [lift raise ret] in H; [discriminate|].
  pose proof (crypto_symbols_dedupe fmp_tickers ∅ out Es) as Hout.
  destruct out as [|s rest].
  { unfold bind, log, modify in H. cbn in H. injection H as <- _.
    contradiction. }
  unfold bind at 1 in H.
  destruct (save_crypto_details_writes fmp_tickers false w Hok)
    as (w1 & E & Hf & _).
  rewrite E in H. unfold ret in H. injection H as <- <-.
  assert (Hall : Forall (fun s0 => strip_nonempty s0 = true) (s :: rest)).
  { rewrite Hout. eapply Forall_sublist; [apply dedupe_sublist | exact Hrec]. }
  split; [rewrite Hout; apply dedupe_spec|]. split; [exact Hall|].
  rewrite Hf, Hout. do 3 f_equal. rewrite omap_symbol_of_filter.
  rewrite filter_all by exact Hrec. reflexivity.
Qed.

Lemma crypto_list_returned_is_persisted_witness :
  let feed := pybind (format_for_fmp coins_sample (Some reference_sample))
                     (fun r => inr (fst r)) in
  let w := boot (scenario no_bars no_faults feed 8) ∅ ∅ in
  crypto_feed (env w) = feed /\
  (forall n, io_fault (env w) n = false) /\
  fst (get_crypto_tickers w) = Return [" BTC-USD "; "ETHUSD"; "USDTUSD"] /\
  side_files (snd (get_crypto_tickers w)) !! CRYPTO_TICKERS_PATH
  = Some (mkFile (JsonArray [" BTC-USD "; "ETHUSD"; "USDTUSD"]) None).
Proof.
  intros feed w.
  assert (H1 : crypto_feed (env w) = feed) by reflexivity.
  assert (H2 : forall n, io_fault (env w) n = false) by reflexivity.
  assert (Hr : fst (get_crypto_tickers w)
               = Return [" BTC-USD "; "ETHUSD"; "USDTUSD"])
    by (vm_compute; reflexivity).
  assert (H3 : get_crypto_tickers w
               = (Return [" BTC-USD "; "ETHUSD"; "USDTUSD"],
                  snd (get_crypto_tickers w))).
  { rewrite <- Hr. apply surjective_pairing. }
  assert (H4 : [" BTC-USD "; "ETHUSD"; "USDTUSD"] <> @nil string) by discriminate.
  split; [exact H1|]. split; [exact H2|]. split; [exact Hr|].
  exact (proj2 (proj2 (crypto_list_returned_is_persisted w coins_sample
                         (Some reference_sample) _ _ H1 H2 H3 H4))).
Defined.

(** ** The download from CoinGecko *)

Lemma coingecko_pages_returns (per_page : Z) (pages : list Z) :
  forall all_coins w,
  exists out w',
    coingecko_pages per_page pages all_coins w = (Return out, w') /\
    (http_calls w' <= http_calls w + length pages)%nat /\
    (exists more, out = all_coins ++ more) /\
    (pages <> [] ->
     (exists e, network (env w) (http_calls w) = Fails e) ->
     out = all_coins /\ http_calls w' = S (http_calls w)).
Proof.
  induction pages as [|page rest IH]; intros all_coins w;
    cbn [coingecko_pages].
  - exists all_coins, w. split; [reflexivity|]. split; [cbn; lia|].
    split; [exists []; rewrite app_nil_r; reflexivity|]. intros H. contradiction.
  - unfold bind at 1, try_except. unfold bind at 1, requests_get.
    destruct (network (env w) (http_calls w)) as [status_code body|e] eqn:En.
    + unfold bind at 1, raise_for_status.
      destruct ((400 <=? status_code) && (status_code <? 600)).
      * cbn [raise]. unfold bind at 1, log, modify. cbn [ret].
        eexists _, _. split; [reflexivity|]. split; [cbn; lia|].
        split; [exists []; rewrite app_nil_r; reflexivity|].
        intros _ [e He]. discriminate.
      * cbn [ret]. unfold bind at 1.
        destruct body as [v|].
        -- cbn [ret]. unfold bind at 1.
           destruct (py_iter v) as [e|items]; cbn [lift raise ret].
           ++ unfold bind at 1, log, modify. cbn [ret].
              eexists _, _. split; [reflexivity|]. split; [cbn; lia|].
              split; [exists []; rewrite app_nil_r; reflexivity|].
              intros _ [e0 He]. discriminate.
           ++ unfold bind at 1, time_sleep, modify. cbn [ret].
              match goal with |- context [coingecko_pages per_page rest ?a ?w1] =>
                destruct (IH a w1) as (out & w' & E & Hh & (more & Hm) & _) end.
              rewrite E. exists out, w'. split; [reflexivity|].
              split; [cbn in Hh; cbn; lia|].
              split; [exists (items ++ more); rewrite Hm, app_assoc; reflexivity|].
              intros _ [e0 He]. discriminate.
        -- cbn [raise]. unfold bind at 1, log, modify. cbn [ret].
           eexists _, _. split; [reflexivity|]. split; [cbn; lia|].
           split; [exists []; rewrite app_nil_r; reflexivity|].
           intros _ [e0 He]. discriminate.
    + unfold bind at 1, log, modify. cbn [ret].
      eexists _, _. split; [reflexivity|]. split; [cbn; lia|].
      split; [exists []; rewrite app_nil_r; reflexivity|].
      intros _ _. split; reflexivity.
Qed.

Lemma py_prefix_length {A} (l : list A) (limit : Z) :
  (0 <= limit \/ l = []) -> Z.of_nat (length (py_prefix l limit)) <= Z.max 0 limit.
Proof.
  unfold py_prefix. intros [H| ->].
  - rewrite (proj2 (Z.leb_le 0 limit) H), length_take. lia.
  - destruct (0 <=? limit); rewrite take_nil; cbn; lia.
Qed.

(** X21.  [get_top_crypto_from_coingecko] never raises: it always
    returns a list, of at most [limit] coins, after at most
    ceil(limit / 250) requests.  When the very first request fails, the
    download ends there: the result is the empty list after that single
    request. *)
Theorem get_top_crypto_is_bounded (limit : Z) (w : World) :
  exists coins w',
    get_top_crypto_from_coingecko limit w = (Return coins, w') /\
    Z.of_nat (length coins) <= Z.max 0 limit /\
    Z.of_nat (http_calls w')
      <= Z.of_nat (http_calls w) + Z.max 0 ((limit + 249) / 250) /\
    (0 < limit -> (exists e, network (env w) (http_calls w) = Fails e) ->
     coins = [] /\ http_calls w' = S (http_calls w)).
Proof.
  unfold get_top_crypto_from_coingecko. cbv zeta.
  destruct (coingecko_pages_returns 250 (seqZ 1 ((limit + 250 - 1) / 250)) [] w)
    as (out & w' & E & Hh & (more & Hm) & Hfail).
  unfold bind. rewrite E. cbn [ret].
  exists (py_prefix out limit), w'. split; [reflexivity|].
  rewrite length_seqZ in Hh.
  replace (limit + 250 - 1) with (limit + 249) in * by lia.
  split; [|split].
  - apply py_prefix_length.
    destruct (Z_le_gt_dec 0 limit) as [H|H]; [left; exact H|right].
    assert (Hp : (limit + 249) / 250 <= 0).
    { apply Z.lt_succ_r. apply Z.div_lt_upper_bound; lia. }
    assert (Hz : seqZ 1 ((limit + 249) / 250) = []).
    { unfold seqZ. replace (Z.to_nat ((limit + 249) / 250)) with 0%nat by lia.
      reflexivity. }
    rewrite Hz in E. cbn in E. injection E as <- _. reflexivity.
  - lia.
  - intros Hpos Hf.
    assert (Hp : 0 < (limit + 249) / 250).
    { apply Z.div_str_pos. lia. }
    destruct Hfail as [-> Hc]; [|exact Hf|].
    + intros Hz. apply (f_equal length) in Hz. rewrite length_seqZ in Hz.
      cbn in Hz. lia.
    + split; [|exact Hc]. unfold py_prefix. destruct (0 <=? limit); apply take_nil.
Qed.

Lemma get_top_crypto_is_bounded_witness :
  let w := boot (scenario two_pages no_faults (inr []) 8) ∅ ∅ in
  let offline_w := boot (scenario offline no_faults (inr []) 8) ∅ ∅ in
  0 < 500 /\ (exists e, network (env offline_w) (http_calls offline_w) = Fails e) /\
  fst (get_top_crypto_from_coingecko 500 offline_w) = Return [] /\
  http_calls (snd (get_top_crypto_from_coingecko 500 offline_w)) = 1%nat /\
  length (match fst (get_top_crypto_from_coingecko 750 w) with
          | Return coins => coins
          | _ => []
          end) = 3%nat.
Proof.
  intros w offline_w.
  assert (H1 : 0 < 500) by reflexivity.
  assert (H2 : exists e, network (env offline_w) (http_calls offline_w) = Fails e)
    by (exists ConnectionError; reflexivity).
  split; [exact H1|]. split; [exact H2|].
  destruct (get_top_crypto_is_bounded 500 offline_w)
    as (coins & w' & E & _ & _ & Hf).
  destruct (Hf H1 H2) as [-> Hc]. rewrite E. cbn [fst snd].
  split; [reflexivity|]. split; [exact Hc|]. vm_compute. reflexivity.
Defined.

(** ** Command-line arguments *)

Lemma prefix_split (p s : string) :
  String.prefix p s = true -> exists r, s = p +:+ r.
Proof.
  revert s. induction p as [|a p IH]; intros s H.
  - exists s. reflexivity.
  - destruct s as [|b s]; cbn [String.prefix] in H; [discriminate|].
    destruct (ascii_dec a b) as [->|]; [|discriminate].
    destruct (IH s H) as [r ->]. exists r. reflexivity.
Qed.

Lemma prefix_app (p r : string) : String.prefix p (p +:+ r) = true.
Proof.
  induction p as [|a p IH]; simpl; [destruct r; reflexivity|].
  destruct (ascii_dec a a); [exact IH|congruence].
Qed.

Lemma enddate_not_startdate (r : string) :
  String.prefix "startdate=" ("enddate=" +:+ r) = false.
Proof. simpl. destruct (ascii_dec "s" "e"); [discriminate|reflexivity]. Qed.

Lemma parse_main_args_loop_sound (argv : list string) :
  forall st en,
  exists st' en',
    parse_main_args_loop argv st en = inr (st', en') /\
    (forall s, st' = Some s -> st = Some s \/ In ("startdate=" +:+ s) argv) /\
    (forall e, en' = Some e -> en = Some e \/ In ("enddate=" +:+ e) argv).
Proof.
  induction argv as [|arg rest IH]; intros st en; cbn [parse_main_args_loop].
  - exists st, en. split; [reflexivity|]. split; intros ? ->; left; reflexivity.
  - destruct (String.prefix "startdate=" arg) eqn:Es.
    + destruct (prefix_split _ _ Es) as [v ->].
      change (after_first_eq ("startdate=" +:+ v)) with (@inr exn _ v).
      cbn [pybind]. destruct (IH (Some v) en) as (st' & en' & E & Hs & He).
      exists st', en'. split; [exact E|]. split.
      * intros s H. destruct (Hs s H) as [H1|H1].
        -- right. left. congruence.
        -- right. right. exact H1.
      * intros e H. destruct (He e H) as [H1|H1]; [left; exact H1|].
        right. right. exact H1.
    + destruct (String.prefix "enddate=" arg) eqn:Ee.
      * destruct (prefix_split _ _ Ee) as [v ->].
        change (after_first_eq ("enddate=" +:+ v)) with (@inr exn _ v).
        cbn [pybind]. destruct (IH st (Some v)) as (st' & en' & E & Hs & He).
        exists st', en'. split; [exact E|]. split.
        -- intros s H. destruct (Hs s H) as [H1|H1]; [left; exact H1|].
           right. right. exact H1.
        -- intros e H. destruct (He e H) as [H1|H1].
           ++ right. left. congruence.
           ++ right. right. exact H1.
      * destruct (IH st en) as (st' & en' & E & Hs & He).
        exists st', en'. split; [exact E|]. split.
        -- intros s H. destruct (Hs s H) as [H1|H1]; [left; exact H1|].
           right. right. exact H1.
        -- intros e H. destruct (He e H) as [H1|H1]; [left; exact H1|].
           right. right. exact H1.
Qed.

Lemma parse_main_args_loop_app (argv1 argv2 : list string) :
  forall st en,
  parse_main_args_loop (argv1 ++ argv2) st en
  = pybind (parse_main_args_loop argv1 st en)
           (fun r => parse_main_args_loop argv2 (fst r) (snd r)).
Proof.
  induction argv1 as [|arg rest IH]; intros st en;
    cbn [app parse_main_args_loop]; [reflexivity|].
  destruct (String.prefix "startdate=" arg).
  - destruct (after_first_eq arg); cbn [pybind]; [reflexivity|apply IH].
  - destruct (String.prefix "enddate=" arg); [|apply IH].
    destruct (after_first_eq arg); cbn [pybind]; [reflexivity|apply IH].
Qed.

Lemma not_text_nonempty (s : string) : s <> "" -> not_text (Some s) = false.
Proof. intros H. cbn [not_text]. apply String.eqb_neq. exact H. Qed.

(** X22.  [parse_main_args] never raises.  It returns a pair only when
    both values are non-empty and were given on the command line, as
    [startdate=<start>] and [enddate=<end>], and then prints nothing;
    otherwise it prints the two usage lines and exits with status 1. *)
Theorem parse_main_args_accepts_given_dates (argv : list string) (w : World) :
  exists r w',
    parse_main_args argv w = (Return r, w') /\
    match r with
    | Done (start_date_arg, end_date_arg) =>
        w' = w /\ start_date_arg <> "" /\ end_date_arg <> "" /\
        In ("startdate=" +:+ start_date_arg) argv /\
        In ("enddate=" +:+ end_date_arg) argv
    | Exit code =>
        code = 1 /\
        events w'
        = events w
          ++ [EvPrint "❌ Missing required arguments: startdate and enddate.";
              EvPrint "Usage: python3 concurrent_backfill.py startdate=DDMMYY enddate=DDMMYY"] /\
        side_files w' = side_files w
    end.
Proof.
  unfold parse_main_args.
  destruct (parse_main_args_loop_sound argv None None)
    as (st & en & E & Hs & He).
  rewrite E. unfold bind at 1. cbn [lift ret].
  destruct (not_text st || not_text en) eqn:Eb.
  - eexists _, _. split; [reflexivity|]. cbn.
    rewrite <- app_assoc. repeat split.
  - apply orb_false_elim in Eb. destruct Eb as [Eb1 Eb2].
    destruct st as [s|]; [|discriminate]. destruct en as [e|]; [|discriminate].
    eexists _, _. split; [reflexivity|]. cbn [default from_option id].
    cbn [not_text] in Eb1, Eb2.
    apply String.eqb_neq in Eb1. apply String.eqb_neq in Eb2.
    split; [reflexivity|]. split; [exact Eb1|]. split; [exact Eb2|]. split.
    + destruct (Hs s eq_refl) as [H|H]; [discriminate|exact H].
    + destruct (He e eq_refl) as [H|H]; [discriminate|exact H].
Qed.

(** X23.  The last [startdate=] and the last [enddate=] argument win,
    in either order and whatever precedes them, and a value is taken
    whole, further "=" signs included: [parse_main_args] gives back the
    two texts that were put after the first "=". *)
Theorem parse_main_args_last_wins
    (argv : list string) (start_date_arg end_date_arg : string) (w : World) :
  start_date_arg <> "" -> end_date_arg <> "" ->
  parse_main_args
    (argv ++ ["startdate=" +:+ start_date_arg; "enddate=" +:+ end_date_arg]) w
  = (Return (Done (start_date_arg, end_date_arg)), w) /\
  parse_main_args
    (argv ++ ["enddate=" +:+ end_date_arg; "startdate=" +:+ start_date_arg]) w
  = (Return (Done (start_date_arg, end_date_arg)), w).
Proof.
  intros Hs He. unfold parse_main_args.
  rewrite !parse_main_args_loop_app.
  destruct (parse_main_args_loop_sound argv None None) as (st & en & -> & _).
  cbn [pybind fst snd parse_main_args_loop].
  rewrite !prefix_app, !enddate_not_startdate.
  change (after_first_eq ("startdate=" +:+ start_date_arg))
    with (@inr exn _ start_date_arg).
  change (after_first_eq ("enddate=" +:+ end_date_arg))
    with (@inr exn _ end_date_arg).
  cbn [pybind lift].
  split; unfold bind at 1; unfold ret at 1; cbv beta iota;
    rewrite (not_text_nonempty _ Hs), (not_text_nonempty _ He); reflexivity.
Qed.

Lemma parse_main_args_last_wins_witness :
  parse_main_args
    ["startdate=010125"; "startdate=040325"; "enddate=05=03=25"]
    (boot (scenario no_bars no_faults (inr []) 8) ∅ ∅)
  = (Return (Done ("040325", "05=03=25")),
     boot (scenario no_bars no_faults (inr []) 8) ∅ ∅).
Proof.
  assert (H1 : "040325" <> "") by discriminate.
  assert (H2 : "05=03=25" <> "") by discriminate.
  exact (proj1 (parse_main_args_last_wins ["startdate=010125"] "040325"
                  "05=03=25" _ H1 H2)).
Defined.

(** ** [refresh.py] *)

(** X24.  [fetch_and_merge_tickers] cannot succeed: the method it calls
    first, [get_SP500_tickers], does not exist on [FMPMarketData] (the
    class spells it [get_sp500_tickers]).  Whatever the client, the
    network and the existing tickers, the call logs one error and raises
    AttributeError, having sent no request and touched no file. *)
Theorem fetch_and_merge_tickers_always_raises
    (fuel fmp : nat) (existing_tickers : list string) (w : World) :
  fetch_and_merge_tickers fuel fmp existing_tickers w
  = (Raise AttributeError, emit (EvLog ERROR "Error fetching tickers") w) /\
  FMPMarketData_method "get_sp500_tickers" = Some get_sp500_tickers.
Proof. split; reflexivity. Qed.



Lemma io_call_outcome (op : io_op) (effect : gmap Path file -> gmap Path file)
    (w : World) :
  io_call op effect w
  = (Return tt,
     emit (EvIO op true)
       (set_side_files (effect (side_files w)) (set_io_calls (S (io_calls w)) w)))
  \/ io_call op effect w
     = (Raise OSError, emit (EvIO op false) (set_io_calls (S (io_calls w)) w)).
Proof.
  unfold io_call. destruct (io_fault (env w) (io_calls w));
    [right|left]; reflexivity.
Qed.

Lemma load_existing_tickers_loaded (tickers_path : Path) (w : World)
    (f : file) (tickers : list string) :
  side_files w !! tickers_path = Some f ->
  io_fault (env w) (io_calls w) = false ->
  on_disk f = JsonArray tickers ->
  exists w2, load_existing_tickers tickers_path w = (Return tickers, w2).
Proof.
  intros Hf Hok Hd.
  unfold load_existing_tickers, bind, path_exists, gets, json_load_file.
  rewrite bool_decide_eq_true_2 by (rewrite Hf; eexists; reflexivity).
  cbv beta iota zeta. rewrite Hf, Hok, Hd. eexists. reflexivity.
Qed.

(** X26.  [save_tickers] writes in place.  When no file-system call
    fails, [load_existing_tickers] afterwards returns exactly the saved
    list.  When [save_tickers] raises (always the OSError, after one
    error line), either the file could not be opened and is as before, or
    it has been truncated and is left empty: the list that was there is
    lost and the next [load_existing_tickers] returns []. *)
Theorem save_tickers_then_load (tickers : list string) (tickers_path : Path)
    (w : World) :
  ((forall n, io_fault (env w) n = false) ->
   exists w1 w2,
     save_tickers tickers tickers_path w = (Return tt, w1) /\
     load_existing_tickers tickers_path w1 = (Return tickers, w2)) /\
  (forall e w1,
     save_tickers tickers tickers_path w = (Raise e, w1) ->
     e = OSError /\
     (side_files w1 = side_files w \/
      (exists f, side_files w1 !! tickers_path = Some f /\ on_disk f = Empty) /\
      exists w2, load_existing_tickers tickers_path w1 = (Return [], w2))).
Proof.
  split.
  - intros Hok.
    unfold save_tickers, try_except, with_file, open_w, json_dump, file_close,
      try_finally, bind, ret, log, modify.
    rewrite io_call_ok by apply Hok.
    rewrite io_call_ok by apply Hok.
    rewrite io_call_ok by apply Hok.
    match goal with |- exists w1 w2, (_, ?w') = _ /\ _ =>
      destruct (load_existing_tickers_loaded tickers_path w'
                  (mkFile (JsonArray tickers) None) tickers) as [w2 E2]
    end.
    + cbn [side_files emit set_side_files set_io_calls].
      rewrite !lookup_alter_eq, lookup_insert_eq. reflexivity.
    + apply Hok.
    + reflexivity.
    + eexists _, w2. split; [reflexivity|exact E2].
  - intros e w1.
    unfold save_tickers, try_except, with_file, open_w, json_dump, file_close,
      try_finally, bind, ret, log, modify, raise.
    destruct (io_call_outcome (OpenTruncate tickers_path)
                (fun m => <[tickers_path := mkFile Empty None]> m) w) as [E|E];
      rewrite E.
    2:{ intros H. injection H as <- <-. split; [reflexivity|].
        left. reflexivity. }
    set (w0 := emit _ _).
    assert (Hempty : forall w' : World,
      (exists f, side_files w' !! tickers_path = Some f /\ on_disk f = Empty) ->
      exists w2, load_existing_tickers tickers_path w' = (Return [], w2)).
    { intros w' (f & Hf & Hd).
      unfold load_existing_tickers, bind, path_exists, gets, json_load_file.
      rewrite bool_decide_eq_true_2 by (rewrite Hf; eexists; reflexivity).
      cbv beta iota zeta. rewrite Hf.
      destruct (io_fault (env w') (io_calls w')); [eexists; reflexivity|].
      rewrite Hd. eexists; reflexivity. }
    match goal with |- context [io_call (WriteBuffer ?p) ?eff w0] =>
      destruct (io_call_outcome (WriteBuffer p) eff w0) as [E1|E1]; rewrite E1
    end.
    + match goal with |- context [io_call (Close ?p) ?eff ?w'] =>
        destruct (io_call_outcome (Close p) eff w') as [E2|E2]; rewrite E2
      end; [intros H; discriminate H|].
      intros H. injection H as <- <-. split; [reflexivity|]. right.
      match goal with |- (exists f, side_files ?w' !! _ = _ /\ _) /\ _ =>
        assert (Hf : exists f, side_files w' !! tickers_path = Some f
                               /\ on_disk f = Empty)
      end.
      { cbn [side_files emit set_side_files set_io_calls]. subst w0.
        cbn [side_files emit set_side_files set_io_calls].
        rewrite lookup_alter_eq, lookup_insert_eq.
        eexists. split; [reflexivity|]. reflexivity. }
      split; [exact Hf|apply Hempty; exact Hf].
    + match goal with |- context [io_call (Close ?p) ?eff ?w'] =>
        destruct (io_call_outcome (Close p) eff w') as [E2|E2]; rewrite E2
      end.
      * intros H. injection H as <- <-. split; [reflexivity|]. right.
        match goal with |- (exists f, side_files ?w' !! _ = _ /\ _) /\ _ =>
          assert (Hf : exists f, side_files w' !! tickers_path = Some f
                                 /\ on_disk f = Empty)
        end.
        { subst w0. cbn [side_files emit set_side_files set_io_calls].
          rewrite lookup_alter_eq, lookup_insert_eq.
          eexists. split; [reflexivity|]. reflexivity. }
        split; [exact Hf|apply Hempty; exact Hf].
      * intros H. injection H as <- <-. split; [reflexivity|]. right.
        match goal with |- (exists f, side_files ?w' !! _ = _ /\ _) /\ _ =>
          assert (Hf : exists f, side_files w' !! tickers_path = Some f
                                 /\ on_disk f = Empty)
        end.
        { subst w0. cbn [side_files emit set_side_files set_io_calls].
          rewrite lookup_insert_eq.
          eexists. split; [reflexivity|]. reflexivity. }
        split; [exact Hf|apply Hempty; exact Hf].
Qed.

Lemma save_tickers_then_load_witness :
  let w := boot (scenario no_bars no_faults (inr []) 8)
                {[ ("orchestrator/backfill", "tickers.json")
                   := mkFile (JsonArray ["AAPL"]) None ]} ∅ in
  (forall n, io_fault (env w) n = false) /\
  exists w1 w2,
    save_tickers ["AAPL"; "MSFT"] ("orchestrator/backfill", "tickers.json") w
    = (Return tt, w1) /\
    load_existing_tickers ("orchestrator/backfill", "tickers.json") w1
    = (Return ["AAPL"; "MSFT"], w2).
Proof.
  intros w.
  assert (H : forall n, io_fault (env w) n = false) by reflexivity.
  split; [exact H|].
  exact (proj1 (save_tickers_then_load ["AAPL"; "MSFT"]
                  ("orchestrator/backfill", "tickers.json") w) H).
Defined.

(** ** Ticker files read by the command line *)

Lemma first_file_finds (dirs : list string) (filename : string) (w : World) :
  exists found,
    first_file dirs filename w = (Return found, w) /\
    (found = None ->
     forall d, In d dirs -> side_files w !! (d, filename) = None) /\
    (forall p, found = Some p ->
       is_Some (side_files w !! p) /\ snd p = filename /\ In (fst p) dirs) /\
    (forall d rest, dirs = d :: rest ->
       is_Some (side_files w !! (d, filename)) -> found = Some (d, filename)).
Proof.
  induction dirs as [|base rest IH]; cbn [first_file].
  - exists None. split; [reflexivity|]. split; [intros _ d []|].
    split; [intros p H; discriminate H|]. intros d rest H. discriminate H.
  - unfold bind at 1, path_exists, gets. cbv beta iota.
    match goal with |- context [bool_decide ?P] =>
      destruct (bool_decide P) eqn:Eb
    end.
    + apply bool_decide_eq_true_1 in Eb.
      exists (Some (base, filename)). split; [reflexivity|].
      split; [intros H; discriminate H|]. split.
      * intros p H. injection H as <-. split; [exact Eb|].
        split; [reflexivity|left; reflexivity].
      * intros d rest' H _. injection H as <- _. reflexivity.
    + apply bool_decide_eq_false_1 in Eb.
      destruct IH as (found & E & Hn & Hs & _). exists found.
      split; [exact E|]. split; [|split].
      * intros H d [<-|Hd]; [|apply Hn; assumption].
        apply eq_None_not_Some. exact Eb.
      * intros p H. destruct (Hs p H) as (A & B & C).
        split; [exact A|]. split; [exact B|right; exact C].
      * intros d rest' H Hd. injection H as <- _. contradiction.
Qed.


Lemma resolve_ticker_file_extra (cwd filename : string) (w : World) :
  is_Some (side_files w !! (EXTRA_TICKERS_DIR, filename)) ->
  _resolve_ticker_file cwd filename w
  = (Return (EXTRA_TICKERS_DIR, filename), w).
Proof.
  intros H. unfold _resolve_ticker_file, bind.
  destruct (first_file_finds (candidate_dirs cwd) filename w)
    as (found & -> & _ & _ & Hfirst).
  rewrite (Hfirst EXTRA_TICKERS_DIR _ eq_refl H). reflexivity.
Qed.


Lemma load_tickers_file_loaded (path : Path) (label : string) (w : World)
    (f : file) (data : list string) :
  side_files w !! path = Some f ->
  io_fault (env w) (io_calls w) = false ->
  on_disk f = JsonArray data ->
  exists w2,
    _load_tickers_file path label w = (Return (Done (clean_tickers data)), w2).
Proof.
  intros Hf Hok Hd. unfold _load_tickers_file, bind, json_load_file. cbv zeta.
  rewrite Hf, Hok, Hd. eexists. reflexivity.
Qed.

(** X27.  What a universe fetch writes, the command line reads: once
    [_write_json_atomic] has returned True for a file of the
    extra_tickers directory, [_resolve_ticker_file] finds that very file,
    whatever the working directory and whatever lies in the other
    directories searched, and [_load_tickers_file] returns its tickers
    stripped and in upper case, without the blank ones. *)
Theorem ticker_file_written_is_read
    (filename : string) (tickers : list string) (label : string) (w w1 : World)
    (cwd label' : string) :
  _write_json_atomic (EXTRA_TICKERS_DIR, filename) tickers label w
  = (Return true, w1) ->
  io_fault (env w1) (io_calls w1) = false ->
  _resolve_ticker_file cwd filename w1 = (Return (EXTRA_TICKERS_DIR, filename), w1) /\
  exists w2,
    _load_tickers_file (EXTRA_TICKERS_DIR, filename) label' w1
    = (Return (Done (clean_tickers tickers)), w2).
Proof.
  intros Hw Hok.
  destruct (write_json_atomic_effect (EXTRA_TICKERS_DIR, filename) tickers label w)
    as (b & w' & E & Hf & _).
  rewrite Hw in E. injection E as <- <-.
  split.
  - apply resolve_ticker_file_extra. eexists. exact Hf.
  - exact (load_tickers_file_loaded _ label' w1 _ tickers Hf Hok eq_refl).
Qed.

Lemma ticker_file_written_is_read_witness :
  let w := boot (scenario no_bars no_faults (inr []) 8) ∅ ∅ in
  let w1 := snd (_write_json_atomic SP500_TICKERS_PATH ["aapl "; "  "; "MSFT"]
                   "S&P 500 tickers" w) in
  _write_json_atomic SP500_TICKERS_PATH ["aapl "; "  "; "MSFT"]
    "S&P 500 tickers" w = (Return true, w1) /\
  io_fault (env w1) (io_calls w1) = false /\
  _resolve_ticker_file "/home/user" "sp500_tickers.json" w1
  = (Return SP500_TICKERS_PATH, w1) /\
  fst (_load_tickers_file SP500_TICKERS_PATH "sp500 tickers" w1)
  = Return (Done ["AAPL"; "MSFT"]).
Proof.
  intros w w1.
  assert (Hb : fst (_write_json_atomic SP500_TICKERS_PATH
                      ["aapl "; "  "; "MSFT"] "S&P 500 tickers" w)
               = Return true) by (vm_compute; reflexivity).
  assert (H1 : _write_json_atomic SP500_TICKERS_PATH ["aapl "; "  "; "MSFT"]
                 "S&P 500 tickers" w = (Return true, w1)).
  { unfold w1. rewrite <- Hb. apply surjective_pairing. }
  assert (H2 : io_fault (env w1) (io_calls w1) = false)
    by (vm_compute; reflexivity).
  split; [exact H1|]. split; [exact H2|].
  destruct (ticker_file_written_is_read "sp500_tickers.json" _ _ w w1
              "/home/user" "sp500 tickers" H1 H2) as [A [w2 B]].
  split; [exact A|]. unfold SP500_TICKERS_PATH. rewrite B. reflexivity.
Defined.

(** ** Exchanges of the selected tickers *)

Lemma identify_exchange_upper (t1 t2 : string)
    (exchange_sets : gmap string (gset string)) :
  str_upper t1 = str_upper t2 ->
  _identify_exchange_for_ticker t1 exchange_sets
  = _identify_exchange_for_ticker t2 exchange_sets.
Proof. intros H. unfold _identify_exchange_for_ticker. rewrite H. reflexivity. Qed.

Lemma identify_exchange_total (ticker : string)
    (exchange_sets : gmap string (gset string)) :
  four_sets exchange_sets ->
  exists ex, _identify_exchange_for_ticker ticker exchange_sets = inr ex /\
             In ex exchange_names.
Proof.
  intros H. unfold four_sets, exchange_names in H.
  repeat match goal with
  | H : Forall _ (_ :: _) |- _ => apply Forall_cons in H; destruct H as [[? ?] H]
  end.
  unfold _identify_exchange_for_ticker, exchange_set. cbv zeta.
  repeat match goal with E : _ !! _ = Some _ |- _ => rewrite E; clear E end.
  cbn [pybind].
  repeat match goal with
  | |- context [bool_decide ?P] => destruct (bool_decide P)
  end; eexists; (split; [reflexivity|]); cbn; tauto.
Qed.

Lemma exchange_map_of_covers (exchange_sets : gmap string (gset string))
    (selected_tickers : list string) :
  four_sets exchange_sets ->
  forall acc,
  exists m,
    exchange_map_of selected_tickers exchange_sets acc = inr m /\
    (forall ticker ex,
       _identify_exchange_for_ticker ticker exchange_sets = inr ex ->
       In ticker selected_tickers \/ acc !! str_upper ticker = Some ex ->
       m !! str_upper ticker = Some ex) /\
    (forall k ex, m !! k = Some ex ->
       acc !! k = Some ex \/
       exists ticker, In ticker selected_tickers /\ k = str_upper ticker).
Proof.
  intros H4. induction selected_tickers as [|t rest IH]; intros acc;
    cbn [exchange_map_of].
  - exists acc. split; [reflexivity|]. split.
    + intros ticker ex _ [[]|H]. exact H.
    + intros k ex H. left. exact H.
  - destruct (identify_exchange_total t exchange_sets H4) as (ex0 & E0 & _).
    rewrite E0. cbn [pybind].
    destruct (IH (<[str_upper t := ex0]> acc)) as (m & -> & Hin & Hdom).
    exists m. split; [reflexivity|]. split.
    + intros ticker ex Hid [[<-|Hr]|Hacc].
      * apply Hin; [exact Hid|]. right. rewrite lookup_insert_eq. congruence.
      * apply Hin; [exact Hid|]. left. exact Hr.
      * apply Hin; [exact Hid|]. right.
        destruct (decide (str_upper t = str_upper ticker)) as [Eu|Eu].
        -- rewrite Eu, lookup_insert_eq.
           rewrite (identify_exchange_upper _ _ _ Eu) in E0. congruence.
        -- rewrite lookup_insert_ne by exact Eu. exact Hacc.
    + intros k ex H. destruct (Hdom k ex H) as [Ha|(ticker & Ht & ->)].
      * destruct (decide (str_upper t = k)) as [<-|Ek].
        -- right. exists t. split; [left; reflexivity|reflexivity].
        -- rewrite lookup_insert_ne in Ha by exact Ek. left. exact Ha.
      * right. exists ticker. split; [right; exact Ht|reflexivity].
Qed.

Lemma build_exchange_sets_four (cwd : string) (w w' : World)
    (exchange_sets : gmap string (gset string)) :
  _build_exchange_sets cwd w = (Return (Done exchange_sets), w') ->
  four_sets exchange_sets.
Proof.
  unfold _build_exchange_sets, bind_exit, bind.
  destruct (_load_all_ticker_lists cwd w) as [[[code|lists]|e|] w0];
    unfold ret; intros H; try discriminate H.
  injection H as <- _. unfold four_sets, exchange_names.
  repeat constructor; eexists.
  - rewrite !lookup_insert_ne by discriminate. apply lookup_insert_eq.
  - rewrite !lookup_insert_ne by discriminate. apply lookup_insert_eq.
  - rewrite !lookup_insert_ne by discriminate. apply lookup_insert_eq.
  - apply lookup_insert_eq.
Qed.

Lemma effective_exchange_of_map (fuel : nat) (ticker : string)
    (start_date end_date : date) (interval : Z) (exchange : option string)
    (dry_run : bool) (on_conflict : string) (m : gmap string string)
    (ex : string) :
  m !! str_upper ticker = Some ex -> ex <> "" ->
  backfill_single_ticker fuel ticker start_date end_date interval exchange
    dry_run on_conflict (Some m)
  = backfill_single_ticker fuel ticker start_date end_date interval (Some ex)
      dry_run on_conflict None.
Proof.
  intros Hm Hne. unfold backfill_single_ticker.
  cbn [default from_option id]. rewrite Hm, lookup_empty.
  cbn [default from_option id].
  rewrite (proj2 (String.eqb_neq ex "") Hne). reflexivity.
Qed.

(** X28.  The exchange map that [_build_exchange_map] hands to
    [concurrent_backfill] decides the exchange of every selected ticker:
    under the ticker's upper-case form it holds the exchange that
    [_identify_exchange_for_ticker] finds, one of crypto, commodity,
    sp500 and nasdaq, also when the ticker is listed several times or in
    several spellings.  So [backfill_single_ticker] never falls back on
    its [exchange] argument: it runs as if it had been given that
    exchange and no map.  The map has no other keys. *)
Theorem exchange_map_decides_exchange
    (cwd : string) (selected_tickers : list string) (w w' : World)
    (m : gmap string string) :
  _build_exchange_map cwd selected_tickers w = (Return (Done m), w') ->
  exists exchange_sets,
    _build_exchange_sets cwd w = (Return (Done exchange_sets), w') /\
    (forall ticker, In ticker selected_tickers ->
     exists ex,
       In ex exchange_names /\
       _identify_exchange_for_ticker ticker exchange_sets = inr ex /\
       m !! str_upper ticker = Some ex /\
       forall fuel start_date end_date interval exchange dry_run on_conflict,
         backfill_single_ticker fuel ticker start_date end_date interval
           exchange dry_run on_conflict (Some m)
         = backfill_single_ticker fuel ticker start_date end_date interval
             (Some ex) dry_run on_conflict None) /\
    (forall k, is_Some (m !! k) ->
     exists ticker, In ticker selected_tickers /\ k = str_upper ticker).
Proof.
  unfold _build_exchange_map, bind_exit. unfold bind at 1.
  destruct (_build_exchange_sets cwd w) as [[[code|exchange_sets]|e|] w0] eqn:Eb;
    unfold ret; intros H; try discriminate H.
  pose proof (build_exchange_sets_four _ _ _ _ Eb) as H4.
  destruct (exchange_map_of_covers exchange_sets selected_tickers H4 ∅)
    as (m' & Em & Hin & Hdom).
  unfold bind in H. rewrite Em in H. cbn [lift] in H. unfold ret in H.
  injection H as <- <-.
  exists exchange_sets. split; [reflexivity|]. split.
  - intros ticker Ht.
    destruct (identify_exchange_total ticker exchange_sets H4) as (ex & Ei & Hex).
    exists ex. split; [exact Hex|]. split; [exact Ei|].
    pose proof (Hin ticker ex Ei (or_introl Ht)) as Hm. split; [exact Hm|].
    intros. apply effective_exchange_of_map; [exact Hm|].
    intros ->. cbn in Hex. intuition discriminate.
  - intros k [ex Hk]. destruct (Hdom k ex Hk) as [Ha|Hs]; [|exact Hs].
    rewrite lookup_empty in Ha. discriminate Ha.
Qed.

Lemma exchange_map_decides_exchange_witness :
  let w := boot (scenario no_bars no_faults (inr []) 8) ticker_files ∅ in
  let selected := ["btcusd"; "ETHUSD"; "aapl"; "TSLA"; "ibm"; "AAPL"] in
  exists m w',
    _build_exchange_map "/home/user" selected w = (Return (Done m), w') /\
    [m !! "BTCUSD"; m !! "ETHUSD"; m !! "AAPL"; m !! "TSLA"; m !! "IBM"]
    = [Some "crypto"; Some "crypto"; Some "sp500"; Some "nasdaq"; Some "nasdaq"] /\
    forall k, is_Some (m !! k) ->
      exists ticker, In ticker selected /\ k = str_upper ticker.
Proof.
  intros w selected.
  assert (Hd : match fst (_build_exchange_map "/home/user" selected w) with
               | Return (Done m) =>
                   [m !! "BTCUSD"; m !! "ETHUSD"; m !! "AAPL"; m !! "TSLA";
                    m !! "IBM"]
               | _ => []
               end
               = [Some "crypto"; Some "crypto"; Some "sp500"; Some "nasdaq";
                  Some "nasdaq"]) by (vm_compute; reflexivity).
  destruct (_build_exchange_map "/home/user" selected w)
    as [[[code|m]|e|] w'] eqn:E; cbn [fst] in Hd; try discriminate Hd.
  exists m, w'. split; [reflexivity|]. split; [exact Hd|].
  destruct (exchange_map_decides_exchange _ _ _ _ _ E) as (sets & _ & _ & Hdom).
  exact Hdom.
Defined.

(** ** How building the exchange map can end *)







